(** * WB_L3 / service 5: task queue and event-booking engine

    A shallow embedding of the retry policy ([pkg/queue] retry manager),
    the Redis queue ([pkg/queue/redisQueue.go]) with its DLQ handler
    ([pkg/queue/dlqHandler.go]) and expire handler
    ([pkg/queue/taskHandlers.go]), the booking and event repositories
    ([internal/database/postgres]), the booking and event services
    ([internal/service/bookingService.go]) and the cleanup worker, with
    the properties of the specification stated over it.

    Conventions.  Go's [int], [int64] and [time.Duration] are 64-bit: they
    are integers of [Z] and, in the queue, every arithmetic result is
    passed through [wrap64].  A [time.Time] is its Unix time in
    nanoseconds; the zero [time.Time{}] is the instant [zeroTime].  An
    [error] of the queue is [option string], [None] being [nil]; the
    errors of the booking engine are the values of [Entity.Error]. *)

From Stdlib Require Import ZArith List String Ascii Bool Lia.
From Stdlib Require Import DecimalString.
From Stdlib Require Decimal DecimalPos DecimalZ.
From Stdlib Require Import Permutation.
Import ListNotations.

#[local] Open Scope string_scope.
#[local] Open Scope Z_scope.

(* ===================================================================== *)
(** ** Machine integers and time *)
(* ===================================================================== *)

Module GoInt.

Definition MaxInt64 : Z := 2 ^ 63 - 1.
Definition MinInt64 : Z := - 2 ^ 63.

(** Two's-complement reduction of a mathematical integer to [int64]. *)
Definition wrap64 (z : Z) : Z := (z + 2 ^ 63) mod 2 ^ 64 - 2 ^ 63.

Definition in_int64 (z : Z) : Prop := MinInt64 <= z <= MaxInt64.

(** [x << k] on an [int64] with a non-negative count: counts of 64 and
    more give 0. *)
Definition shl64 (x k : Z) : Z :=
  if 64 <=? k then 0 else wrap64 (Z.shiftl x k).

(** Go's [/] truncates toward zero. *)
Definition div64 (x y : Z) : Z := wrap64 (Z.quot x y).

End GoInt.
Import GoInt.

Module GoTime.

(** Unix nanoseconds. *)
Definition Time : Type := Z.
Definition Duration : Type := Z.

Definition Nanosecond : Duration := 1.
Definition Millisecond : Duration := 1000000.
Definition Second : Duration := 1000000000.
Definition Minute : Duration := 60 * Second.

(** January 1, year 1, 00:00:00 UTC: 62135596800 s before the epoch. *)
Definition zeroTime : Time := - 62135596800 * Second.

Definition IsZero (t : Time) : bool := t =? zeroTime.
Definition After (t u : Time) : bool := u <? t.
Definition Before (t u : Time) : bool := t <? u.
Definition Add (t : Time) (d : Duration) : Time := t + d.
Definition UnixNano (t : Time) : Z := t.

End GoTime.
Import GoTime.

(* ===================================================================== *)
(** ** Strings: the fragment of package [strings] the queue uses *)
(* ===================================================================== *)

Module GoStrings.

Definition lower_ascii (c : ascii) : ascii :=
  let n := nat_of_ascii c in
  if (Nat.leb 65 n && Nat.leb n 90)%bool then ascii_of_nat (n + 32) else c.

(** [strings.ToLower] on the ASCII range; other bytes are kept. *)
Fixpoint ToLower (s : string) : string :=
  match s with
  | EmptyString => EmptyString
  | String c s' => String (lower_ascii c) (ToLower s')
  end.

Fixpoint HasPrefix (s p : string) : bool :=
  match p, s with
  | EmptyString, _ => true
  | String _ _, EmptyString => false
  | String a p', String b s' => (Ascii.eqb a b && HasPrefix s' p')%bool
  end.

(** [strings.Contains s substr]. *)
Fixpoint Contains (s substr : string) : bool :=
  (HasPrefix s substr ||
   match s with
   | EmptyString => false
   | String _ s' => Contains s' substr
   end)%bool.

(** [%d] of [fmt.Sprintf]. *)
Definition FormatInt (z : Z) : string :=
  NilZero.string_of_int (Z.to_int z).

End GoStrings.
Import GoStrings.

(* ===================================================================== *)
(** ** Tasks ([pkg/queue], type [Task]) *)
(* ===================================================================== *)

(** A value of the [map[string]interface{}] payload. *)
Inductive JSONValue : Type :=
| JString (s : string)
| JNumber (n : Z)
| JBool (b : bool).

Record Task : Type := mkTask {
  ID : string;
  Type_ : string;                              (* TaskType *)
  Data : option (list (string * JSONValue));   (* [None] is the nil map *)
  ExecuteAt : Time;
  CreatedAt : Time;
  Attempts : Z;
  MaxRetries : Z
}.

Definition set_ID (t : Task) (v : string) : Task :=
  mkTask v (Type_ t) (Data t) (ExecuteAt t) (CreatedAt t) (Attempts t) (MaxRetries t).
Definition set_Data (t : Task) (v : option (list (string * JSONValue))) : Task :=
  mkTask (ID t) (Type_ t) v (ExecuteAt t) (CreatedAt t) (Attempts t) (MaxRetries t).
Definition set_ExecuteAt (t : Task) (v : Time) : Task :=
  mkTask (ID t) (Type_ t) (Data t) v (CreatedAt t) (Attempts t) (MaxRetries t).
Definition set_CreatedAt (t : Task) (v : Time) : Task :=
  mkTask (ID t) (Type_ t) (Data t) (ExecuteAt t) v (Attempts t) (MaxRetries t).
Definition set_Attempts (t : Task) (v : Z) : Task :=
  mkTask (ID t) (Type_ t) (Data t) (ExecuteAt t) (CreatedAt t) v (MaxRetries t).
Definition set_MaxRetries (t : Task) (v : Z) : Task :=
  mkTask (ID t) (Type_ t) (Data t) (ExecuteAt t) (CreatedAt t) (Attempts t) v.

(* ===================================================================== *)
(** ** Random source ([math/rand]) *)
(* ===================================================================== *)

(** The process-wide generator is the sequence of raw non-negative values
    it is going to produce; consuming one returns the rest.  [Int63n n]
    and [Intn n] panic for [n <= 0] ([None]) and otherwise return a value
    of [[0, n)]: every value of that range is produced by some raw
    value. *)
Module Rand.

Definition Source : Type := list Z.

Definition next (s : Source) : Z * Source :=
  match s with
  | [] => (0, [])
  | r :: s' => (r, s')
  end.

Definition Int63 (s : Source) : Z * Source :=
  let '(r, s') := next s in (r mod 2 ^ 63, s').

Definition Int63n (n : Z) (s : Source) : option (Z * Source) :=
  if n <=? 0 then None
  else let '(r, s') := next s in Some (r mod n, s').

Definition Intn (n : Z) (s : Source) : option (Z * Source) := Int63n n s.

End Rand.

(* ===================================================================== *)
(** ** Retry policy ([RetryManager]) *)
(* ===================================================================== *)

Module Retry.

Record RetryManager : Type := mkRetryManager {
  maxRetries : Z;
  baseDelay : Duration;
  maxDelay : Duration
}.

Definition NewRetryManager (maxRetries : Z) (baseDelay : Duration) : RetryManager :=
  mkRetryManager maxRetries baseDelay (wrap64 (baseDelay * 16)).

Definition nonRetryableErrors : list string :=
  ["invalid"; "not found"; "permission denied"; "validation failed"].

(** [isRetryableError]: [nil] is not retryable; an error is not
    retryable when its lower-cased message contains one of the
    patterns. *)
Definition isRetryableError (err : option string) : bool :=
  match err with
  | None => false
  | Some errStr =>
      negb (existsb (fun pattern => Contains (ToLower errStr) (ToLower pattern))
                    nonRetryableErrors)
  end.

(** [calculateBackoff]: [None] is the panic of [rand.Int63n] on a
    non-positive bound. *)
Definition calculateBackoff (r : RetryManager) (attempt : Z) (rnd : Rand.Source)
  : option (Duration * Rand.Source) :=
  if attempt <=? 0 then Some (baseDelay r, rnd)
  else
    let backoff := wrap64 (baseDelay r * shl64 1 (attempt - 1)) in
    match Rand.Int63n (div64 backoff 2) rnd with
    | None => None
    | Some (jitter, rnd1) =>
        match Rand.Intn 2 rnd1 with
        | None => None
        | Some (coin, rnd2) =>
            let backoff :=
              if coin =? 0 then wrap64 (backoff + jitter)
              else wrap64 (backoff - jitter) in
            let backoff := if maxDelay r <? backoff then maxDelay r else backoff in
            Some (backoff, rnd2)
        end
    end.

(** [ShouldRetry]. *)
Definition ShouldRetry (r : RetryManager) (task : Task) (err : option string)
    (rnd : Rand.Source) : option ((bool * Duration) * Rand.Source) :=
  if MaxRetries task <=? Attempts task then Some ((false, 0), rnd)
  else if negb (isRetryableError err) then Some ((false, 0), rnd)
  else
    match calculateBackoff r (Attempts task) rnd with
    | None => None
    | Some (delay, rnd') => Some ((true, delay), rnd')
    end.

End Retry.

(* ===================================================================== *)
(** ** The outside world: wall clock, random generator, cancellation *)
(* ===================================================================== *)

(** [time.Now()] returns [clock_now] and the clock then advances by the
    next element of [clock_ticks] (nanoseconds, never negative), so
    successive readings never decrease.  Only the readings whose value the
    code uses are drawn; the time the code spends elsewhere is part of the
    ticks.  [ctx_done] lists, for each [select] on [ctx.Done()], whether
    the context is already cancelled at that point. *)
Record World : Type := mkWorld {
  clock_now : Time;
  clock_ticks : list N;
  rand_src : Rand.Source;
  ctx_done : list bool
}.

Definition Now (w : World) : Time * World :=
  (clock_now w,
   mkWorld (clock_now w + Z.of_N (hd 0%N (clock_ticks w)))
           (tl (clock_ticks w)) (rand_src w) (ctx_done w)).

(** [<-time.After(d)]: at least [d] elapses (nothing for [d <= 0]). *)
Definition Sleep (d : Duration) (w : World) : World :=
  mkWorld (clock_now w + Z.max 0 d) (clock_ticks w) (rand_src w) (ctx_done w).

Definition with_rand (w : World) (s : Rand.Source) : World :=
  mkWorld (clock_now w) (clock_ticks w) s (ctx_done w).

(** One [select] on [ctx.Done()]. *)
Definition ctxDone (w : World) : bool * World :=
  (hd false (ctx_done w),
   mkWorld (clock_now w) (clock_ticks w) (rand_src w) (tl (ctx_done w))).

(* ===================================================================== *)
(** ** Redis keyspace of the queue *)
(* ===================================================================== *)

Module Redis.

(** The commands are modelled by their effect on the keyspace; they always
    succeed: connection errors and timeouts of the client are outside the
    model. *)

(** A list key: the head is the left end. *)
Definition RList : Type := list string.
(** A sorted-set key: members with their scores, one entry per member.
    Scores are the code's [float64(UnixNano)/1e9] kept exactly, in
    nanoseconds. *)
Definition ZSet : Type := list (string * Z).

Definition LPush (l : RList) (v : string) : RList := v :: l.

(** [RPOPLPUSH]: the popped right end and both lists after the move. *)
Definition RPopLPush (src dst : RList) : option (string * RList * RList) :=
  match rev src with
  | [] => None
  | v :: rest => Some (v, rev rest, v :: dst)
  end.

(** [LREM key 1 v]: removes the first occurrence from the left. *)
Fixpoint LRem1 (l : RList) (v : string) : RList :=
  match l with
  | [] => []
  | x :: l' => if String.eqb x v then l' else x :: LRem1 l' v
  end.

Definition ZAdd (z : ZSet) (score : Z) (member : string) : ZSet :=
  (member, score) :: filter (fun e => negb (String.eqb (fst e) member)) z.

End Redis.

(* ===================================================================== *)
(** ** Redis queue ([RedisQueue]) *)
(* ===================================================================== *)

Module Queue.

Record RedisQueueConfig : Type := mkConfig {
  cfg_MaxRetries : Z;
  cfg_BaseDelay : Duration;
  cfg_QueueTimeout : Duration;
  cfg_EnableDLQ : bool;
  cfg_EnableMetrics : bool
}.

Definition defaultMaxRetries : Z := 3.
Definition defaultBaseDelay : Duration := 5 * Second.
Definition defaultQueueTimeout : Duration := 5 * Second.

Definition DefaultRedisQueueConfig : RedisQueueConfig :=
  mkConfig defaultMaxRetries defaultBaseDelay defaultQueueTimeout true true.

Record FailedTask : Type := mkFailedTask {
  ft_Task : Task;
  ft_Error : string;
  ft_FailedAt : Time;
  ft_Attempts : Z
}.

(** The four keys of the queue.  Metric counters are not modelled. *)
Record Store : Type := mkStore {
  mainQueue : Redis.RList;
  delayedQueue : Redis.ZSet;
  processingQueue : Redis.RList;
  dlq : Redis.ZSet
}.

(** The queue object: configuration, retry manager, and whether a DLQ
    handler is installed ([dlqHandler != nil]). *)
Record RedisQueue : Type := mkQueue {
  config : RedisQueueConfig;
  retryManager : Retry.RetryManager;
  dlqHandler : bool
}.

Definition NewRedisQueue (cfg : RedisQueueConfig) : RedisQueue :=
  mkQueue cfg (Retry.NewRetryManager (cfg_MaxRetries cfg) (cfg_BaseDelay cfg))
          (cfg_EnableDLQ cfg).

(** [generateTaskID]: ["task_%d_%d"] of the clock and [rand.Int63()]. *)
Definition formatTaskID (nano r : Z) : string :=
  "task_" ++ FormatInt nano ++ "_" ++ FormatInt r.

Definition generateTaskID (w : World) : string * World :=
  let '(now, w1) := Now w in
  let '(r, s) := Rand.Int63 (rand_src w1) in
  (formatTaskID (UnixNano now) r, with_rand w1 s).

(** [validateTask] works on the caller's task through a pointer: the
    task it leaves behind is returned with the error. *)
Definition validateTask (q : RedisQueue) (task : Task) (w : World)
  : (Task * option string) * World :=
  let '(task, w) :=
    if String.eqb (ID task) ""
    then let '(id, w') := generateTaskID w in (set_ID task id, w')
    else (task, w) in
  if String.eqb (Type_ task) ""
  then ((task, Some "task type is required"), w)
  else
    let task :=
      match Data task with
      | None => set_Data task (Some [])
      | Some _ => task
      end in
    let task :=
      if MaxRetries task =? 0
      then set_MaxRetries task (cfg_MaxRetries (config q)) else task in
    let '(task, w) :=
      if IsZero (CreatedAt task)
      then let '(now, w') := Now w in (set_CreatedAt task now, w')
      else (task, w) in
    let '(task, w) :=
      if IsZero (ExecuteAt task)
      then let '(now, w') := Now w in (set_ExecuteAt task now, w')
      else (task, w) in
    ((task, None), w).

Section Codec.

(** [encoding/json]: the encoder of tasks and of DLQ entries, and the
    decoder of tasks, which yields the task or the decoding error. *)
Variable marshal : Task -> string.
Variable unmarshal : string -> Task + string.
Variable marshalFailed : FailedTask -> string.

(** [Publish], for a non-nil task: the caller's task as the call
    leaves it, the error, and the store. *)
Definition Publish (q : RedisQueue) (st : Store) (task : Task) (w : World)
  : ((Task * option string) * Store) * World :=
  let '((task, err), w) := validateTask q task w in
  match err with
  | Some e => ((task, Some ("invalid task: " ++ e)), st, w)
  | None =>
      let taskData := marshal task in
      let '(now, w) := Now w in
      if (negb (IsZero (ExecuteAt task)) && After (ExecuteAt task) now)%bool
      then
        let score := UnixNano (ExecuteAt task) in
        ((task, None),
         mkStore (mainQueue st) (Redis.ZAdd (delayedQueue st) score taskData)
                 (processingQueue st) (dlq st), w)
      else
        ((task, None),
         mkStore (Redis.LPush (mainQueue st) taskData) (delayedQueue st)
                 (processingQueue st) (dlq st), w)
  end.

(** [DefaultDLQHandler.HandleFailedTask]. *)
Definition HandleFailedTask (st : Store) (task : Task) (err : string) (w : World)
  : Store * World :=
  let '(now, w) := Now w in
  let failedTask := mkFailedTask task err now (Attempts task) in
  let taskData := marshalFailed failedTask in
  let score := UnixNano (ft_FailedAt failedTask) in
  (mkStore (mainQueue st) (delayedQueue st) (processingQueue st)
           (Redis.ZAdd (dlq st) score taskData), w).

(** [moveToDLQ]. *)
Definition moveToDLQ (q : RedisQueue) (st : Store) (taskData : string)
    (err : string) (w : World) : Store * World :=
  if (negb (cfg_EnableDLQ (config q)) || negb (dlqHandler q))%bool then (st, w)
  else
    match unmarshal taskData with
    | inr jsonErr =>
        let '(now1, w) := Now w in
        let '(now2, w) := Now w in
        let failedTask :=
          mkTask ("corrupted_" ++ FormatInt (UnixNano now1)) "corrupted"
                 (Some [("raw_data", JString taskData)])
                 zeroTime now2 0 0 in
        HandleFailedTask st failedTask ("corrupted task: " ++ jsonErr) w
    | inl task => HandleFailedTask st task err w
    end.

(** What [executeTaskWithRetry] ends with.  [calls] is instrumentation:
    the tasks the handler was invoked on, oldest first. *)
Inductive ExecOutcome : Type :=
| ExecNil                      (* returned nil *)
| ExecErr (e : string)         (* returned a non-nil error *)
| ExecPanic                    (* [rand.Int63n] panicked *)
| ExecOutOfFuel.               (* the model ran out of fuel *)

Record ExecResult : Type := mkExecResult {
  outcome : ExecOutcome;
  final_task : Task;
  calls : list Task;
  world : World
}.

(** The body of the [for] loop of [executeTaskWithRetry]; the handler
    reads the task it is given. *)
Fixpoint execLoop (fuel : nat) (q : RedisQueue) (handler : Task -> option string)
    (task : Task) (calls : list Task) (w : World) : ExecResult :=
  match fuel with
  | O => mkExecResult ExecOutOfFuel task calls w
  | S fuel' =>
      let task := set_Attempts task (wrap64 (Attempts task + 1)) in
      let calls := (calls ++ [task])%list in
      match handler task with
      | None => mkExecResult ExecNil task calls w
      | Some e =>
          match Retry.ShouldRetry (retryManager q) task (Some e) (rand_src w) with
          | None => mkExecResult ExecPanic task calls w
          | Some ((false, _), s) => mkExecResult (ExecErr e) task calls (with_rand w s)
          | Some ((true, delay), s) =>
              let w := with_rand w s in
              match Rand.Int63n (div64 delay Millisecond) (rand_src w) with
              | None => mkExecResult ExecPanic task calls w
              | Some (j, s') =>
                  let w := with_rand w s' in
                  let jitteredDelay := wrap64 (delay + wrap64 (j * Millisecond)) in
                  let '(done, w) := ctxDone w in
                  if done
                  then mkExecResult (ExecErr "context canceled") task calls w
                  else execLoop fuel' q handler task calls (Sleep jitteredDelay w)
              end
          end
      end
  end.

(** The loop stops at the latest when [Attempts] reaches [MaxRetries]. *)
Definition retryFuel (task : Task) : nat :=
  S (Z.to_nat (MaxRetries task - wrap64 (Attempts task + 1))).

Definition executeTaskWithRetry (q : RedisQueue) (handler : Task -> option string)
    (task : Task) (w : World) : ExecResult :=
  execLoop (retryFuel task) q handler task [] w.

(** What one call of [processBatch] did. *)
Inductive BatchOutcome : Type :=
| BatchIdle                         (* timeout, no task: returns nil *)
| BatchMalformed                    (* undecodable entry: returns nil *)
| BatchHandled (r : ExecOutcome).   (* a task went through the retry loop *)

(** [processBatch]; [BRPOPLPUSH] on an empty list is the [redis.Nil]
    timeout. *)
Definition processBatch (q : RedisQueue) (handler : Task -> option string)
    (st : Store) (w : World) : (BatchOutcome * list Task) * Store * World :=
  match Redis.RPopLPush (mainQueue st) (processingQueue st) with
  | None => ((BatchIdle, []), st, w)
  | Some (taskData, main', processing') =>
      let st := mkStore main' (delayedQueue st) processing' (dlq st) in
      match unmarshal taskData with
      | inr jsonErr =>
          let '(st, w) :=
            moveToDLQ q st taskData ("invalid task format: " ++ jsonErr) w in
          ((BatchMalformed, []), st, w)
      | inl task =>
          let r := executeTaskWithRetry q handler task w in
          let '(st, w) :=
            match outcome r with
            | ExecErr e =>
                if dlqHandler q
                then HandleFailedTask st (final_task r) e (world r)
                else (st, world r)
            | _ => (st, world r)
            end in
          match outcome r with
          | ExecPanic | ExecOutOfFuel => ((BatchHandled (outcome r), calls r), st, w)
          | _ =>
              let st := mkStore (mainQueue st) (delayedQueue st)
                                (Redis.LRem1 (processingQueue st) taskData)
                                (dlq st) in
              ((BatchHandled (outcome r), calls r), st, w)
          end
      end
  end.

End Codec.

End Queue.

(* ===================================================================== *)
(** ** Entities ([internal/entity]) *)
(* ===================================================================== *)

Module Entity.

Definition BookingStatus : Type := string.

Definition BookingStatusPending : BookingStatus := "pending".
Definition BookingStatusConfirmed : BookingStatus := "confirmed".
Definition BookingStatusCancelled : BookingStatus := "cancelled".
Definition BookingStatusExpired : BookingStatus := "expired".

Record Booking : Type := mkBooking {
  Booking_ID : Z;
  Booking_EventID : Z;
  Booking_UserID : Z;
  Booking_Seats : Z;
  Booking_Status : BookingStatus;
  Booking_ExpiresAt : Time;
  Booking_ReservationTimeout : Z;
  Booking_CreatedAt : Time;
  Booking_UpdatedAt : Time
}.

Record Event : Type := mkEvent {
  Event_ID : Z;
  Event_Title : string;
  Event_Date : Time;
  Event_TotalSeats : Z
}.

Record EventWithAvailability : Type := mkEventWithAvailability {
  Event_ : Event;
  AvailableSeats : Z;
  BookedSeats : Z
}.

Record User : Type := mkUser {
  User_ID : Z;
  User_Email : string;
  User_TelegramID : string
}.

Record BookingExpiration : Type := mkBookingExpiration {
  Exp_BookingID : Z;
  Exp_ExpiresAt : Time;
  Exp_UserID : Z;
  Exp_EventID : Z
}.

(** Errors of the repository and of the booking service.  A wrapped
    error ([fmt.Errorf] with [%w] or [%v]) carries its cause. *)
Inductive Error : Type :=
| ErrBookingNotFound          (* entity.ErrBookingNotFound *)
| ErrNoRows                   (* sql.ErrNoRows *)
| ErrForeignKey               (* a REFERENCES constraint rejected the row *)
(* bookingRepository *)
| ErrGetCurrentBooking (cause : Error)  (* failed to get current booking *)
| ErrGetTotalSeats (cause : Error)      (* failed to get event total seats *)
| ErrUserAlreadyBooked        (* user already has a booking for this event *)
| ErrNotEnoughAvailable       (* not enough available seats: requested.. *)
| ErrNotEnoughToConfirm       (* not enough available seats to confirm booking *)
| ErrCreateBooking (cause : Error)      (* failed to create booking *)
| ErrUpdateBooking (cause : Error)      (* failed to update booking *)
(* bookingService *)
| SvcEventNotFound (cause : Error)      (* event not found *)
| SvcEventInPast              (* cannot book seats for a past event *)
| SvcInsufficientSeats        (* not enough available seats: requested.. *)
| SvcUserNotFound (cause : Error)       (* user not found *)
| SvcHasPendingBooking        (* you already have a pending booking *)
| SvcHasConfirmedBooking      (* you already have a confirmed booking *)
| SvcCreate (cause : Error)   (* error while creating the booking *)
| SvcBookingNotFound (cause : Error)    (* booking not found *)
| SvcNotPending               (* booking is not in pending status *)
| SvcExpired                  (* booking has expired *)
| SvcUpdateExpired (cause : Error)      (* error updating the expired status *)
| SvcEventInfo (cause : Error)          (* error getting the event *)
| SvcInsufficientToConfirm    (* not enough available seats to confirm *)
| SvcConfirm (cause : Error)  (* error while confirming *)
| SvcAlreadyCancelled         (* booking is already cancelled *)
| SvcCancel (cause : Error)   (* error while cancelling *)
| SvcSeatsNotPositive         (* the number of seats must be positive *)
| SvcSeatsOnlyPending         (* seats can be updated for pending bookings only *)
| SvcNotEnoughSeats           (* not enough available seats *)
| SvcUpdateSeats (cause : Error)        (* error updating the number of seats *)
| SvcInvalidStatus            (* invalid booking status *)
| SvcUpdateStatus (cause : Error)       (* error updating the booking status *)
| SvcDeleteConfirmed          (* a confirmed booking cannot be deleted *)
| SvcDelete (cause : Error).  (* error while deleting *)

End Entity.
Import Entity.

(* ===================================================================== *)
(** ** Relational store and repositories ([internal/database/postgres]) *)
(* ===================================================================== *)

(** Seat counts are PostgreSQL INTEGER columns, so the sums and
    differences the Go code forms over them stay far inside [int64] and
    are the mathematical ones.  Each function below runs alone, as one
    transaction. *)
Module Repository.

(** The three tables, rows in insertion order, and the sequence behind
    [bookings.id SERIAL]. *)
Record DB : Type := mkDB {
  events : list Event;
  users : list User;
  bookings : list Booking;
  bookings_id_seq : Z
}.

Definition with_bookings (db : DB) (bs : list Booking) : DB :=
  mkDB (events db) (users db) bs (bookings_id_seq db).

Definition sum (l : list Z) : Z := fold_right Z.add 0 l.

(** [SELECT COALESCE(SUM(seats), 0) FROM bookings
     WHERE event_id = $1 AND status = 'confirmed'] *)
Definition confirmedSeats (db : DB) (eventID : Z) : Z :=
  sum (map Booking_Seats
         (filter (fun b => (Booking_EventID b =? eventID) &&
                           String.eqb (Booking_Status b) "confirmed")%bool
                 (bookings db))).

(** [SELECT total_seats FROM events WHERE id = $1] *)
Definition totalSeats (db : DB) (eventID : Z) : option Z :=
  option_map Event_TotalSeats
    (find (fun e => Event_ID e =? eventID) (events db)).

(** [SELECT COUNT( * ) FROM bookings WHERE event_id = $1 AND user_id = $2
     AND status IN ('pending', 'confirmed')] *)
Definition existingBookingCount (db : DB) (eventID userID : Z) : Z :=
  Z.of_nat (List.length
    (filter (fun b => (Booking_EventID b =? eventID) &&
                      (Booking_UserID b =? userID) &&
                      (String.eqb (Booking_Status b) "pending" ||
                       String.eqb (Booking_Status b) "confirmed"))%bool
            (bookings db))).

Definition set_status (b : Booking) (s : BookingStatus) (now : Time) : Booking :=
  mkBooking (Booking_ID b) (Booking_EventID b) (Booking_UserID b) (Booking_Seats b)
            s (Booking_ExpiresAt b) (Booking_ReservationTimeout b)
            (Booking_CreatedAt b) now.

Definition userExists (db : DB) (userID : Z) : bool :=
  existsb (fun u => User_ID u =? userID) (users db).

(** [bookingRepository.Create]: the booking as the call leaves it, the
    error, the database.  A rejected INSERT still consumes a value of
    the id sequence. *)
Definition Create (db : DB) (booking : Booking) (w : World)
  : (Booking * option Error) * DB * World :=
  let confirmed := confirmedSeats db (Booking_EventID booking) in
  match totalSeats db (Booking_EventID booking) with
  | None => ((booking, Some (ErrGetTotalSeats ErrNoRows)), db, w)
  | Some total =>
      if 0 <? existingBookingCount db (Booking_EventID booking) (Booking_UserID booking)
      then ((booking, Some ErrUserAlreadyBooked), db, w)
      else if total <? confirmed + Booking_Seats booking
      then ((booking, Some ErrNotEnoughAvailable), db, w)
      else
        let '(now, w) := Now w in
        let expiresAt := Add now (Booking_ReservationTimeout booking * Minute) in
        let id := bookings_id_seq db in
        if negb (userExists db (Booking_UserID booking))
        then ((booking, Some (ErrCreateBooking ErrForeignKey)),
              mkDB (events db) (users db) (bookings db) (id + 1), w)
        else
          let row :=
            mkBooking id (Booking_EventID booking) (Booking_UserID booking)
                      (Booking_Seats booking) (Booking_Status booking) expiresAt
                      (Booking_ReservationTimeout booking) now now in
          ((row, None),
           mkDB (events db) (users db) (bookings db ++ [row])%list (id + 1), w)
  end.

(** [bookingRepository.GetByID] *)
Definition GetByID (db : DB) (id : Z) : Booking + Error :=
  match find (fun b => Booking_ID b =? id) (bookings db) with
  | Some b => inl b
  | None => inr ErrBookingNotFound
  end.

(** [bookingRepository.GetByEventAndUser]: the newest active booking of
    the user for the event, [None] when there is none. *)
Definition GetByEventAndUser (db : DB) (eventID userID : Z) : option Booking :=
  find (fun b => (Booking_EventID b =? eventID) &&
                 (Booking_UserID b =? userID) &&
                 (String.eqb (Booking_Status b) "pending" ||
                  String.eqb (Booking_Status b) "confirmed"))%bool
       (rev (bookings db)).

(** [UPDATE bookings SET status = $1, updated_at = $2 WHERE id = $3] *)
Definition update_status_rows (bs : list Booking) (id : Z) (s : BookingStatus)
    (now : Time) : list Booking :=
  map (fun b => if Booking_ID b =? id then set_status b s now else b) bs.

(** [bookingRepository.UpdateStatus] *)
Definition UpdateStatus (db : DB) (id : Z) (status : BookingStatus) (w : World)
  : option Error * DB * World :=
  match find (fun b => Booking_ID b =? id) (bookings db) with
  | None => (Some (ErrGetCurrentBooking ErrNoRows), db, w)
  | Some currentBooking =>
      let check :=
        if (String.eqb (Booking_Status currentBooking) BookingStatusPending &&
            String.eqb status BookingStatusConfirmed)%bool
        then
          let confirmed := confirmedSeats db (Booking_EventID currentBooking) in
          match totalSeats db (Booking_EventID currentBooking) with
          | None => Some (ErrGetTotalSeats ErrNoRows)
          | Some total =>
              if total <? confirmed + Booking_Seats currentBooking
              then Some ErrNotEnoughToConfirm else None
          end
        else None in
      match check with
      | Some e => (Some e, db, w)
      | None =>
          let '(now, w) := Now w in
          (None, with_bookings db (update_status_rows (bookings db) id status now), w)
      end
  end.

(** [UPDATE bookings SET event_id, user_id, seats, status, expires_at,
     reservation_timeout, updated_at WHERE id = $8] on one row. *)
Definition update_row (b booking : Booking) (now : Time) : Booking :=
  mkBooking (Booking_ID b) (Booking_EventID booking) (Booking_UserID booking)
            (Booking_Seats booking) (Booking_Status booking)
            (Booking_ExpiresAt booking) (Booking_ReservationTimeout booking)
            (Booking_CreatedAt b) now.

Definition set_UpdatedAt (b : Booking) (now : Time) : Booking :=
  set_status b (Booking_Status b) now.

(** [bookingRepository.Update]: the caller's booking as the call leaves
    it, the error, the database. *)
Definition Update (db : DB) (booking : Booking) (w : World)
  : (Booking * option Error) * DB * World :=
  let '(now, w) := Now w in
  if negb (existsb (fun b => Booking_ID b =? Booking_ID booking) (bookings db))
  then ((booking, Some ErrBookingNotFound), db, w)
  else if negb (userExists db (Booking_UserID booking) &&
                existsb (fun e => Event_ID e =? Booking_EventID booking) (events db))
  then ((booking, Some (ErrUpdateBooking ErrForeignKey)), db, w)
  else
    let rows :=
      map (fun b => if Booking_ID b =? Booking_ID booking
                    then update_row b booking now else b)
          (bookings db) in
    let '(now', w) := Now w in
    ((set_UpdatedAt booking now', None), with_bookings db rows, w).

(** [bookingRepository.Delete] *)
Definition Delete (db : DB) (id : Z) : option Error * DB :=
  if existsb (fun b => Booking_ID b =? id) (bookings db)
  then (None, with_bookings db
                (filter (fun b => negb (Booking_ID b =? id)) (bookings db)))
  else (Some ErrBookingNotFound, db).

(** Insertion into a list ordered by [expires_at]. *)
Fixpoint insert_by_expiry (x : BookingExpiration) (l : list BookingExpiration)
  : list BookingExpiration :=
  match l with
  | [] => [x]
  | y :: l' =>
      if Exp_ExpiresAt x <=? Exp_ExpiresAt y then x :: y :: l'
      else y :: insert_by_expiry x l'
  end.

(** [bookingRepository.GetExpiredBookings]: the pending bookings whose
    deadline is before [before], joined with their user and event,
    ordered by deadline. *)
Definition GetExpiredBookings (db : DB) (before : Time) : list BookingExpiration :=
  fold_right insert_by_expiry []
    (map (fun b => mkBookingExpiration (Booking_ID b) (Booking_ExpiresAt b)
                     (Booking_UserID b) (Booking_EventID b))
         (filter (fun b => String.eqb (Booking_Status b) "pending" &&
                           (Booking_ExpiresAt b <? before) &&
                           userExists db (Booking_UserID b) &&
                           existsb (fun e => Event_ID e =? Booking_EventID b)
                                   (events db))%bool
                 (bookings db))).

(** [eventRepository.GetByID] *)
Definition Event_GetByID (db : DB) (id : Z) : EventWithAvailability + Error :=
  match find (fun e => Event_ID e =? id) (events db) with
  | None => inr ErrNoRows
  | Some e =>
      let booked := confirmedSeats db id in
      inl (mkEventWithAvailability e (Event_TotalSeats e - booked) booked)
  end.

(** [userRepository.GetByID] *)
Definition User_GetByID (db : DB) (id : Z) : User + Error :=
  match find (fun u => User_ID u =? id) (users db) with
  | None => inr ErrNoRows
  | Some u => inl u
  end.

End Repository.

(* ===================================================================== *)
(** ** Booking service ([internal/service/bookingService.go]) *)
(* ===================================================================== *)

(** The notification tasks and Telegram messages the service sends after
    a successful change do not touch the database and are left out. *)
Module Service.
Import Repository.

Record BookSeatsRequest : Type := mkBookSeatsRequest {
  Req_EventID : Z;
  Req_UserID : Z;
  Req_Seats : Z;
  Req_ReservationTimeout : Z
}.

(** [bookingService.BookSeats] *)
Definition BookSeats (db : DB) (req : BookSeatsRequest) (w : World)
  : (Booking + Error) * DB * World :=
  match Event_GetByID db (Req_EventID req) with
  | inr e => (inr (SvcEventNotFound e), db, w)
  | inl eventWithAvailability =>
      let '(now, w) := Now w in
      if Before (Event_Date (Event_ eventWithAvailability)) now
      then (inr SvcEventInPast, db, w)
      else if AvailableSeats eventWithAvailability <? Req_Seats req
      then (inr SvcInsufficientSeats, db, w)
      else
        match User_GetByID db (Req_UserID req) with
        | inr e => (inr (SvcUserNotFound e), db, w)
        | inl _ =>
            let existingBooking :=
              GetByEventAndUser db (Req_EventID req) (Req_UserID req) in
            let clash :=
              match existingBooking with
              | Some b =>
                  if String.eqb (Booking_Status b) BookingStatusPending
                  then Some SvcHasPendingBooking
                  else if String.eqb (Booking_Status b) BookingStatusConfirmed
                  then Some SvcHasConfirmedBooking
                  else None
              | None => None
              end in
            match clash with
            | Some e => (inr e, db, w)
            | None =>
                let timeout :=
                  if Req_ReservationTimeout req =? 0 then 30
                  else Req_ReservationTimeout req in
                let booking :=
                  mkBooking 0 (Req_EventID req) (Req_UserID req) (Req_Seats req)
                            BookingStatusPending zeroTime timeout zeroTime zeroTime in
                match Create db booking w with
                | ((_, Some e), db', w') => (inr (SvcCreate e), db', w')
                | ((booking', None), db', w') => (inl booking', db', w')
                end
            end
        end
  end.

(** [bookingService.ConfirmBooking] *)
Definition ConfirmBooking (db : DB) (bookingID : Z) (w : World)
  : option Error * DB * World :=
  match GetByID db bookingID with
  | inr e => (Some (SvcBookingNotFound e), db, w)
  | inl booking =>
      if negb (String.eqb (Booking_Status booking) BookingStatusPending)
      then (Some SvcNotPending, db, w)
      else
        let '(now, w) := Now w in
        if After now (Booking_ExpiresAt booking)
        then
          match UpdateStatus db bookingID BookingStatusExpired w with
          | (Some e, db', w') => (Some (SvcUpdateExpired e), db', w')
          | (None, db', w') => (Some SvcExpired, db', w')
          end
        else
          match Event_GetByID db (Booking_EventID booking) with
          | inr e => (Some (SvcEventInfo e), db, w)
          | inl eventWithAvailability =>
              if AvailableSeats eventWithAvailability <? Booking_Seats booking
              then (Some SvcInsufficientToConfirm, db, w)
              else
                match UpdateStatus db bookingID BookingStatusConfirmed w with
                | (Some e, db', w') => (Some (SvcConfirm e), db', w')
                | (None, db', w') => (None, db', w')
                end
          end
  end.

(** [bookingService.CancelBooking] *)
Definition CancelBooking (db : DB) (bookingID : Z) (reason : string) (w : World)
  : option Error * DB * World :=
  match GetByID db bookingID with
  | inr e => (Some (SvcBookingNotFound e), db, w)
  | inl booking =>
      if (String.eqb (Booking_Status booking) BookingStatusCancelled ||
          String.eqb (Booking_Status booking) BookingStatusExpired)%bool
      then (Some SvcAlreadyCancelled, db, w)
      else
        match UpdateStatus db bookingID BookingStatusCancelled w with
        | (Some e, db', w') => (Some (SvcCancel e), db', w')
        | (None, db', w') => (None, db', w')
        end
  end.

(** The loop of [CancelExpiredBookings]: a failed update is logged and
    the loop goes on. *)
Fixpoint expire_each (db : DB) (l : list BookingExpiration) (w : World)
  : DB * World :=
  match l with
  | [] => (db, w)
  | expired :: l' =>
      let '(_, db', w') :=
        UpdateStatus db (Exp_BookingID expired) BookingStatusExpired w in
      expire_each db' l' w'
  end.

(** [bookingService.CancelExpiredBookings] *)
Definition CancelExpiredBookings (db : DB) (w : World)
  : option Error * DB * World :=
  let '(now, w) := Now w in
  let expiredBookings := GetExpiredBookings db now in
  let '(db', w') := expire_each db expiredBookings w in
  (None, db', w').

(** [bookingService.ExpireBooking] *)
Definition ExpireBooking (db : DB) (bookingID : Z) (w : World)
  : option Error * DB * World :=
  UpdateStatus db bookingID BookingStatusExpired w.

(** [bookingService.UpdateBookingSeats] *)
Definition UpdateBookingSeats (db : DB) (bookingID : Z) (seats : Z) (w : World)
  : option Error * DB * World :=
  if seats <=? 0 then (Some SvcSeatsNotPositive, db, w)
  else
    match GetByID db bookingID with
    | inr e => (Some (SvcBookingNotFound e), db, w)
    | inl booking =>
        if negb (String.eqb (Booking_Status booking) BookingStatusPending)
        then (Some SvcSeatsOnlyPending, db, w)
        else
          match Event_GetByID db (Booking_EventID booking) with
          | inr e => (Some (SvcEventInfo e), db, w)
          | inl eventWithAvailability =>
              let seatDifference := seats - Booking_Seats booking in
              if AvailableSeats eventWithAvailability + seatDifference <? 0
              then (Some SvcNotEnoughSeats, db, w)
              else
                let booking :=
                  mkBooking (Booking_ID booking) (Booking_EventID booking)
                            (Booking_UserID booking) seats (Booking_Status booking)
                            (Booking_ExpiresAt booking)
                            (Booking_ReservationTimeout booking)
                            (Booking_CreatedAt booking) (Booking_UpdatedAt booking) in
                match Update db booking w with
                | ((_, Some e), db', w') => (Some (SvcUpdateSeats e), db', w')
                | ((_, None), db', w') => (None, db', w')
                end
          end
    end.

(** [bookingService.UpdateBookingStatus] *)
Definition UpdateBookingStatus (db : DB) (bookingID : Z) (status : BookingStatus)
    (w : World) : option Error * DB * World :=
  if (String.eqb status BookingStatusPending ||
      String.eqb status BookingStatusConfirmed ||
      String.eqb status BookingStatusCancelled ||
      String.eqb status BookingStatusExpired)%bool
  then
    match UpdateStatus db bookingID status w with
    | (Some e, db', w') => (Some (SvcUpdateStatus e), db', w')
    | (None, db', w') => (None, db', w')
    end
  else (Some SvcInvalidStatus, db, w).

(** [bookingService.DeleteBooking] *)
Definition DeleteBooking (db : DB) (bookingID : Z) (w : World)
  : option Error * DB * World :=
  match GetByID db bookingID with
  | inr e => (Some (SvcBookingNotFound e), db, w)
  | inl booking =>
      if String.eqb (Booking_Status booking) BookingStatusConfirmed
      then (Some SvcDeleteConfirmed, db, w)
      else
        match Delete db bookingID with
        | (Some e, db') => (Some (SvcDelete e), db', w)
        | (None, db') => (None, db', w)
        end
  end.

(** The public operations that change bookings, and their sequences. *)
Inductive Op : Type :=
| OpBookSeats (req : BookSeatsRequest)
| OpConfirmBooking (bookingID : Z)
| OpCancelBooking (bookingID : Z) (reason : string)
| OpExpireBooking (bookingID : Z)
| OpCancelExpiredBookings
| OpUpdateBookingSeats (bookingID : Z) (seats : Z)
| OpUpdateBookingStatus (bookingID : Z) (status : BookingStatus)
| OpDeleteBooking (bookingID : Z).

Definition step (op : Op) (db : DB) (w : World) : DB * World :=
  match op with
  | OpBookSeats req => let '(_, db', w') := BookSeats db req w in (db', w')
  | OpConfirmBooking id => let '(_, db', w') := ConfirmBooking db id w in (db', w')
  | OpCancelBooking id reason =>
      let '(_, db', w') := CancelBooking db id reason w in (db', w')
  | OpExpireBooking id => let '(_, db', w') := ExpireBooking db id w in (db', w')
  | OpCancelExpiredBookings =>
      let '(_, db', w') := CancelExpiredBookings db w in (db', w')
  | OpUpdateBookingSeats id seats =>
      let '(_, db', w') := UpdateBookingSeats db id seats w in (db', w')
  | OpUpdateBookingStatus id status =>
      let '(_, db', w') := UpdateBookingStatus db id status w in (db', w')
  | OpDeleteBooking id => let '(_, db', w') := DeleteBooking db id w in (db', w')
  end.

Fixpoint run (ops : list Op) (db : DB) (w : World) : DB * World :=
  match ops with
  | [] => (db, w)
  | op :: ops' => let '(db', w') := step op db w in run ops' db' w'
  end.

(** The status of a booking, [None] when there is no such booking. *)
Definition statusOf (db : DB) (bookingID : Z) : option BookingStatus :=
  option_map Booking_Status
    (find (fun b => Booking_ID b =? bookingID) (bookings db)).

Definition seatsOf (db : DB) (bookingID : Z) : option Z :=
  option_map Booking_Seats
    (find (fun b => Booking_ID b =? bookingID) (bookings db)).

End Service.

(* ===================================================================== *)
(** ** Redis queue: batches, the delayed promoter and the DLQ handler *)
(* ===================================================================== *)

Module QueueOps.
Import Queue.

(** The order of a sorted set: by score, members of equal score in
    lexicographic order. *)
Definition score_le (a b : string * Z) : bool :=
  ((snd a <? snd b) || ((snd a =? snd b) && String.leb (fst a) (fst b)))%bool.

Fixpoint zinsert (x : string * Z) (l : list (string * Z)) : list (string * Z) :=
  match l with
  | [] => [x]
  | y :: l' => if score_le x y then x :: y :: l' else y :: zinsert x l'
  end.

Definition zsort (z : Redis.ZSet) : list (string * Z) := fold_right zinsert [] z.




(** [ZRANGEBYSCORE key -inf +inf] and [ZREVRANGEBYSCORE key +inf -inf] *)
Definition ZRangeAll (z : Redis.ZSet) : list string := map fst (zsort z).
Definition ZRevRangeAll (z : Redis.ZSet) : list string := rev (ZRangeAll z).

(** [ZREM key member] *)
Definition ZRem (z : Redis.ZSet) (member : string) : Redis.ZSet :=
  filter (fun e => negb (String.eqb (fst e) member)) z.


Section Codec.

Variable marshal : Task -> string.
Variable unmarshalFailed : string -> FailedTask + string.

(** One turn of the loop of [PublishBatch]: the task as the turn leaves
    it is recorded, an invalid task is skipped. *)
Definition publishBatchStep (q : RedisQueue) (acc : list Task * Store * World)
    (task : Task) : list Task * Store * World :=
  let '(seen, st, w) := acc in
  let '((task, err), w) := validateTask q task w in
  match err with
  | Some _ => ((seen ++ [task])%list, st, w)
  | None =>
      let taskData := marshal task in
      let '(now, w) := Now w in
      if (negb (IsZero (ExecuteAt task)) && After (ExecuteAt task) now)%bool
      then
        let score := UnixNano (ExecuteAt task) in
        ((seen ++ [task])%list,
         mkStore (mainQueue st) (Redis.ZAdd (delayedQueue st) score taskData)
                 (processingQueue st) (dlq st), w)
      else
        ((seen ++ [task])%list,
         mkStore (Redis.LPush (mainQueue st) taskData) (delayedQueue st)
                 (processingQueue st) (dlq st), w)
  end.

(** [PublishBatch], for non-nil tasks: the tasks as the call leaves them,
    the error, the store after the pipeline has run. *)
Definition PublishBatch (q : RedisQueue) (st : Store) (tasks : list Task) (w : World)
  : (list Task * option string) * Store * World :=
  match tasks with
  | [] => (([], None), st, w)
  | _ =>
      let '(seen, st', w') := fold_left (publishBatchStep q) tasks ([], st, w) in
      ((seen, None), st', w')
  end.


(** [DefaultDLQHandler.GetFailedTasks]: newest first, cut at [limit] (50
    when it is not positive) before decoding; entries that do not decode
    are dropped. *)
Definition GetFailedTasks (st : Store) (limit : Z) : list FailedTask :=
  let limit := if limit <=? 0 then 50 else limit in
  let tasks := ZRevRangeAll (dlq st) in
  let tasks :=
    if limit <? Z.of_nat (List.length tasks)
    then firstn (Z.to_nat limit) tasks else tasks in
  flat_map (fun taskData =>
              match unmarshalFailed taskData with
              | inl failedTask => [failedTask]
              | inr _ => []
              end) tasks.

(** The first entry, in score order, that decodes to a task with the given
    id. *)
Fixpoint findFailedTask (tasks : list string) (taskID : string)
  : option (string * FailedTask) :=
  match tasks with
  | [] => None
  | taskData :: tasks' =>
      match unmarshalFailed taskData with
      | inl failedTask =>
          if String.eqb (ID (ft_Task failedTask)) taskID
          then Some (taskData, failedTask)
          else findFailedTask tasks' taskID
      | inr _ => findFailedTask tasks' taskID
      end
  end.


(** [DefaultDLQHandler.DeleteFailedTask] *)
Definition DeleteFailedTask (st : Store) (taskID : string)
  : option string * Store :=
  match findFailedTask (ZRangeAll (dlq st)) taskID with
  | Some (taskData, _) =>
      (None,
       mkStore (mainQueue st) (delayedQueue st) (processingQueue st)
               (ZRem (dlq st) taskData))
  | None => (Some ("task " ++ taskID ++ " not found in DLQ"), st)
  end.

(** [DefaultDLQHandler.PurgeDLQ] *)
Definition PurgeDLQ (st : Store) : Z * Store :=
  (Z.of_nat (List.length (dlq st)),
   mkStore (mainQueue st) (delayedQueue st) (processingQueue st) []).

End Codec.

End QueueOps.

(* ===================================================================== *)
(** ** Booking engine: statistics, bulk operations, events, the expire
    handler *)
(* ===================================================================== *)

Module BookingOps.
Import Repository Service.

(** [entity.EventBookingStats] *)
Record EventBookingStats : Type := mkEventBookingStats {
  TotalBookings : Z;
  PendingSeats : Z;
  ConfirmedSeats : Z;
  CancelledSeats : Z;
  ExpiredSeats : Z;
  NoShowSeats : Z
}.

(** [EventBookingStats.AvailableSeats] *)
Definition Stats_AvailableSeats (s : EventBookingStats) (totalSeats : Z) : Z :=
  totalSeats - ConfirmedSeats s.

(** [SUM(CASE WHEN status = s THEN seats ELSE 0 END)] over the bookings of
    an event. *)
Definition seatsWithStatus (db : DB) (eventID : Z) (status : string) : Z :=
  sum (map (fun b => if String.eqb (Booking_Status b) status
                     then Booking_Seats b else 0)
           (filter (fun b => Booking_EventID b =? eventID) (bookings db))).

(** [bookingRepository.GetEventBookingStats] *)
Definition GetEventBookingStats (db : DB) (eventID : Z) : EventBookingStats :=
  mkEventBookingStats
    (Z.of_nat (List.length (filter (fun b => Booking_EventID b =? eventID)
                                   (bookings db))))
    (seatsWithStatus db eventID "pending")
    (seatsWithStatus db eventID "confirmed")
    (seatsWithStatus db eventID "cancelled")
    (seatsWithStatus db eventID "expired")
    0.

(** [bookingRepository.GetByEventID]: newest first, rows being inserted
    in the order of their [created_at]. *)
Definition GetByEventID (db : DB) (eventID : Z) : list Booking :=
  rev (filter (fun b => Booking_EventID b =? eventID) (bookings db)).

(** [bookingRepository.CountByEvent] *)
Definition CountByEvent (db : DB) (eventID : Z) : Z :=
  Z.of_nat (List.length (filter (fun b => Booking_EventID b =? eventID)
                                (bookings db))).

(** The rows [DeleteExpired] removes. *)
Definition overdue (before : Time) (b : Booking) : bool :=
  (String.eqb (Booking_Status b) "pending" && (Booking_ExpiresAt b <? before))%bool.

(** [bookingRepository.DeleteExpired]: the number of rows deleted and the
    database. *)
Definition DeleteExpired (db : DB) (before : Time) : Z * DB :=
  (Z.of_nat (List.length (filter (overdue before) (bookings db))),
   with_bookings db (filter (fun b => negb (overdue before b)) (bookings db))).

Inductive OpsError : Type :=
| ErrBulkCount (expected updated : Z)  (* expected to update %d rows, but updated %d *)
| ErrEventNotFound                     (* entity.ErrEventNotFound *)
| ErrEventHasBookings                  (* cannot delete event with existing bookings *)
| SvcGetExistingEvent (cause : Error)  (* failed to get existing event *)
| SvcEventDateInPast                   (* event date must be in the future *)
| SvcTotalBelowBooked (booked : Z)     (* cannot reduce total seats below current booked seats *)
| SvcUpdateEvent (cause : OpsError)    (* failed to update event *)
| SvcActiveBookings                    (* cannot delete event with active bookings *)
| SvcDeleteEvent (cause : OpsError)    (* failed to delete event *)
| SvcCheckSeatsNotPositive             (* the number of seats must be positive *)
| SvcCheckEventInfo (cause : Error)    (* error getting the event *)
| SvcCheckEventPast                    (* the event has already taken place *)
| SvcGetBooking (cause : Error).       (* error getting the booking *)

Definition inIDs (ids : list Z) (b : Booking) : bool :=
  existsb (fun id => Booking_ID b =? id) ids.

(** [bookingRepository.BulkUpdateStatus]: one UPDATE over the rows whose
    id is in the list; the transaction is rolled back unless as many rows
    were touched as ids were given. *)
Definition BulkUpdateStatus (db : DB) (ids : list Z) (status : BookingStatus)
    (w : World) : option OpsError * DB * World :=
  match ids with
  | [] => (None, db, w)
  | _ =>
      let '(now, w) := Now w in
      let rowsAffected := Z.of_nat (List.length (filter (inIDs ids) (bookings db))) in
      if negb (rowsAffected =? Z.of_nat (List.length ids))
      then (Some (ErrBulkCount (Z.of_nat (List.length ids)) rowsAffected), db, w)
      else
        (None,
         with_bookings db
           (map (fun b => if inIDs ids b then set_status b status now else b)
                (bookings db)), w)
  end.

Definition with_events (db : DB) (es : list Event) : DB :=
  mkDB es (users db) (bookings db) (bookings_id_seq db).

(** [eventRepository.Update]; the description and the timestamps of an
    event are not part of [Event]. *)
Definition Event_Update (db : DB) (event : Event) (w : World)
  : option OpsError * DB * World :=
  let '(_, w) := Now w in
  if negb (existsb (fun e => Event_ID e =? Event_ID event) (events db))
  then (Some ErrEventNotFound, db, w)
  else
    (None,
     with_events db
       (map (fun e => if Event_ID e =? Event_ID event
                      then mkEvent (Event_ID e) (Event_Title event)
                                   (Event_Date event) (Event_TotalSeats event)
                      else e)
            (events db)), w).

(** [eventRepository.Delete] *)
Definition Event_Delete (db : DB) (id : Z) : option OpsError * DB :=
  if 0 <? CountByEvent db id then (Some ErrEventHasBookings, db)
  else if negb (existsb (fun e => Event_ID e =? id) (events db))
  then (Some ErrEventNotFound, db)
  else (None, with_events db (filter (fun e => negb (Event_ID e =? id)) (events db))).

(** [UpdateEventRequest]: an absent field is [None]. *)
Record UpdateEventRequest : Type := mkUpdateEventRequest {
  Upd_Title : option string;
  Upd_Date : option Time;
  Upd_TotalSeats : option Z
}.

(** [eventService.UpdateEvent] *)
Definition UpdateEvent (db : DB) (id : Z) (req : UpdateEventRequest) (w : World)
  : (Event + OpsError) * DB * World :=
  match Event_GetByID db id with
  | inr e => (inr (SvcGetExistingEvent e), db, w)
  | inl existingEvent =>
      let '(_, w) := Now w in
      let event := mkEvent id (Event_Title (Event_ existingEvent))
                           (Event_Date (Event_ existingEvent))
                           (Event_TotalSeats (Event_ existingEvent)) in
      let event :=
        match Upd_Title req with
        | Some title => mkEvent (Event_ID event) title (Event_Date event)
                                (Event_TotalSeats event)
        | None => event
        end in
      let '(dateErr, event, w) :=
        match Upd_Date req with
        | Some date =>
            let '(now, w) := Now w in
            if Before date now then (true, event, w)
            else (false, mkEvent (Event_ID event) (Event_Title event) date
                                 (Event_TotalSeats event), w)
        | None => (false, event, w)
        end in
      if dateErr then (inr SvcEventDateInPast, db, w)
      else
        let '(seatsErr, event) :=
          match Upd_TotalSeats req with
          | Some total =>
              if total <? BookedSeats existingEvent then (true, event)
              else (false, mkEvent (Event_ID event) (Event_Title event)
                                   (Event_Date event) total)
          | None => (false, event)
          end in
        if seatsErr
        then (inr (SvcTotalBelowBooked (BookedSeats existingEvent)), db, w)
        else
          match Event_Update db event w with
          | (Some e, db', w') => (inr (SvcUpdateEvent e), db', w')
          | (None, db', w') => (inl event, db', w')
          end
  end.

(** [eventService.DeleteEvent] *)
Definition DeleteEvent (db : DB) (id : Z) : option OpsError * DB :=
  if existsb (fun b => String.eqb (Booking_Status b) BookingStatusPending ||
                       String.eqb (Booking_Status b) BookingStatusConfirmed)%bool
             (GetByEventID db id)
  then (Some SvcActiveBookings, db)
  else
    match Event_Delete db id with
    | (Some e, db') => (Some (SvcDeleteEvent e), db')
    | (None, db') => (None, db')
    end.

(** [bookingService.CheckBookingAvailability] *)
Definition CheckBookingAvailability (db : DB) (eventID seats : Z) (w : World)
  : (bool * option OpsError) * World :=
  if seats <=? 0 then ((false, Some SvcCheckSeatsNotPositive), w)
  else
    match Event_GetByID db eventID with
    | inr e => ((false, Some (SvcCheckEventInfo e)), w)
    | inl eventWithAvailability =>
        let '(now, w) := Now w in
        if Before (Event_Date (Event_ eventWithAvailability)) now
        then ((false, Some SvcCheckEventPast), w)
        else ((seats <=? AvailableSeats eventWithAvailability, None), w)
    end.

(** Errors of the task handler. *)
Inductive HandlerError : Type :=
| HBadBookingID                 (* invalid booking_id in the task data *)
| HGetBooking (cause : OpsError) (* could not get the booking *)
| HExpire (cause : Error).      (* could not expire the booking *)

(** [bookingService.GetBooking] *)
Definition GetBooking (db : DB) (id : Z) : Booking + OpsError :=
  match GetByID db id with
  | inr e => inr (SvcGetBooking e)
  | inl booking => inl booking
  end.

(** [task.Data[key]]: the value under a key, [None] for a missing key and
    for the nil map. *)
Definition dataLookup (t : Task) (key : string) : option JSONValue :=
  match Data t with
  | None => None
  | Some d => option_map snd (find (fun kv => String.eqb (fst kv) key) d)
  end.

(** [TaskHandler.handleExpireBooking]; numbers of the payload are the
    [float64] values the JSON decoder produces, here whole numbers.  The
    notification it sends after expiring does not touch the database. *)
Definition handleExpireBooking (db : DB) (task : Task) (w : World)
  : option HandlerError * DB * World :=
  match dataLookup task "booking_id" with
  | Some (JNumber bookingID) =>
      match GetBooking db bookingID with
      | inr e => (Some (HGetBooking e), db, w)
      | inl booking =>
          if negb (String.eqb (Booking_Status booking) BookingStatusPending)
          then (None, db, w)
          else
            let '(now, w) := Now w in
            if Before now (Booking_ExpiresAt booking) then (None, db, w)
            else
              match ExpireBooking db (Booking_ID booking) w with
              | (Some e, db', w') => (Some (HExpire e), db', w')
              | (None, db', w') => (None, db', w')
              end
      end
  | _ => (Some HBadBookingID, db, w)
  end.

(** Insertion into a list of events ordered by date. *)
Fixpoint insert_by_date (x : EventWithAvailability) (l : list EventWithAvailability)
  : list EventWithAvailability :=
  match l with
  | [] => [x]
  | y :: l' =>
      if Event_Date (Event_ x) <=? Event_Date (Event_ y) then x :: y :: l'
      else y :: insert_by_date x l'
  end.

(** [eventRepository.GetAll]: every event with its confirmed seats,
    [ORDER BY e.date]; events of the same date are listed in the order
    of their insertion. *)
Definition Event_GetAll (db : DB) : list EventWithAvailability :=
  fold_right insert_by_date []
    (map (fun e =>
            let booked := confirmedSeats db (Event_ID e) in
            mkEventWithAvailability e (Event_TotalSeats e - booked) booked)
         (events db)).

(** [EventFilter] *)
Record EventFilter : Type := mkEventFilter {
  Filter_Title : string;
  Filter_DateFrom : Time;
  Filter_DateTo : Time;
  Filter_Limit : Z;
  Filter_Offset : Z;
  Filter_SortBy : string;
  Filter_SortOrder : string
}.

(** [containsIgnoreCase]:
    [len(s) >= len(substr) && s[:len(substr)] == substr]. *)
Definition containsIgnoreCase (s substr : string) : bool :=
  (Nat.leb (String.length substr) (String.length s) &&
   String.eqb (String.substring 0 (String.length substr) s) substr)%bool.

(** [eventService.sortEvents]: every branch of the switch is empty. *)
Definition sortEvents (events : list EventWithAvailability)
    (sortBy sortOrder : string) : list EventWithAvailability :=
  if String.eqb sortBy "title"
  then (if String.eqb sortOrder "desc" then events else events)
  else if String.eqb sortBy "created_at"
  then (if String.eqb sortOrder "desc" then events else events)
  else (if String.eqb sortOrder "desc" then events else events).

(** The test of the loop of [SearchEvents]: the event is kept. *)
Definition keptBy (filter : EventFilter) (event : EventWithAvailability) : bool :=
  if (negb (String.eqb (Filter_Title filter) "") &&
      negb (containsIgnoreCase (Event_Title (Event_ event)) (Filter_Title filter)))%bool
  then false
  else if (negb (IsZero (Filter_DateFrom filter)) &&
           Before (Event_Date (Event_ event)) (Filter_DateFrom filter))%bool
  then false
  else if (negb (IsZero (Filter_DateTo filter)) &&
           After (Event_Date (Event_ event)) (Filter_DateTo filter))%bool
  then false
  else true.

(** [eventService.SearchEvents], for a filter that is not nil. *)
Definition SearchEvents (db : DB) (filter : EventFilter)
  : list EventWithAvailability :=
  let limit :=
    if ((Filter_Limit filter <=? 0) || (100 <? Filter_Limit filter))%bool
    then 50 else Filter_Limit filter in
  let sortBy :=
    if String.eqb (Filter_SortBy filter) "" then "date" else Filter_SortBy filter in
  let sortOrder :=
    if String.eqb (Filter_SortOrder filter) "" then "asc"
    else Filter_SortOrder filter in
  let allEvents := Event_GetAll db in
  let filteredEvents := List.filter (keptBy filter) allEvents in
  let filteredEvents := sortEvents filteredEvents sortBy sortOrder in
  if ((0 <? Filter_Offset filter) &&
      (Z.of_nat (List.length filteredEvents) <=? Filter_Offset filter))%bool
  then []
  else
    let filteredEvents :=
      if 0 <? Filter_Offset filter
      then skipn (Z.to_nat (Filter_Offset filter)) filteredEvents
      else filteredEvents in
    if limit <? Z.of_nat (List.length filteredEvents)
    then firstn (Z.to_nat limit) filteredEvents
    else filteredEvents.

(** The loop of [BookingCleanupWorker.cleanupExpiredBookings]: before
    each booking the context is polled; [true] when the loop was
    interrupted. *)
Fixpoint cleanup_each (db : DB) (l : list BookingExpiration) (w : World)
  : bool * DB * World :=
  match l with
  | [] => (false, db, w)
  | expired :: l' =>
      let '(done, w) := ctxDone w in
      if done then (true, db, w)
      else
        let '(_, db', w') := ExpireBooking db (Exp_BookingID expired) w in
        cleanup_each db' l' w'
  end.

(** [BookingCleanupWorker.cleanupExpiredBookings], with
    [performBulkCancellation] at its end. *)
Definition cleanupExpiredBookings (db : DB) (w : World) : DB * World :=
  let '(now, w) := Now w in
  let expiredBookings := GetExpiredBookings db now in
  match expiredBookings with
  | [] => (db, w)
  | _ =>
      let '(interrupted, db', w') := cleanup_each db expiredBookings w in
      if interrupted then (db', w')
      else
        let '(_, db'', w'') := CancelExpiredBookings db' w' in (db'', w'')
  end.

End BookingOps.

(* ===================================================================== *)
(** * Properties *)
(* ===================================================================== *)

(** ** Machine integers, clock, random source *)

Module GoFacts.

Lemma wrap64_small z : in_int64 z -> wrap64 z = z.
Proof.
  unfold in_int64, MinInt64, MaxInt64, wrap64. intros H.
  rewrite Z.mod_small; lia.
Qed.

Lemma wrap64_range z : in_int64 (wrap64 z).
Proof.
  unfold in_int64, MinInt64, MaxInt64, wrap64.
  pose proof (Z.mod_pos_bound (z + 2 ^ 63) (2 ^ 64) ltac:(lia)). lia.
Qed.

Lemma Int63n_range n s v s' :
  Rand.Int63n n s = Some (v, s') -> 0 <= v < n.
Proof.
  unfold Rand.Int63n. destruct (n <=? 0) eqn:E; [discriminate|].
  apply Z.leb_gt in E. destruct (Rand.next s) as [r s0]. intros H.
  inversion H; subst. apply Z.mod_pos_bound. lia.
Qed.

(** Every value of the range is a possible draw. *)
Lemma Int63n_any n v s : 0 <= v < n -> Rand.Int63n n (v :: s) = Some (v, s).
Proof.
  intros H. unfold Rand.Int63n. destruct (n <=? 0) eqn:E.
  - apply Z.leb_le in E. lia.
  - simpl. rewrite Z.mod_small by lia. reflexivity.
Qed.

(** The clock never runs backwards. *)
Lemma Now_reading w : fst (Now w) = clock_now w.
Proof. reflexivity. Qed.

Lemma Now_mono w : clock_now w <= clock_now (snd (Now w)).
Proof. unfold Now; simpl. lia. Qed.

Lemma Now_rand w : rand_src (snd (Now w)) = rand_src w.
Proof. reflexivity. Qed.

End GoFacts.
Import GoFacts.

(** ** Retry policy *)

Module RetryFacts.
Import Retry.

(** The delay the specification describes before jitter: [base *
    2^(attempts-1)] capped at [16 * base]. *)
Definition spec_cappedExponential (base : Duration) (attempts : Z) : Z :=
  Z.min (base * 2 ^ (attempts - 1)) (16 * base).

(** The specification's band around it: within 25% either way. *)
Definition spec_withinQuarter (delay capped : Z) : Prop :=
  3 * capped <= 4 * delay <= 5 * capped.

(** Out of attempts: no retry, whatever the error. *)
Lemma ShouldRetry_exhausted r task err rnd :
  MaxRetries task <= Attempts task ->
  ShouldRetry r task err rnd = Some ((false, 0), rnd).
Proof.
  intros H. unfold ShouldRetry.
  destruct (MaxRetries task <=? Attempts task) eqn:E; [reflexivity|].
  apply Z.leb_gt in E. lia.
Qed.

(** A message that contains one of the four patterns, in any case: no
    retry. *)
Lemma ShouldRetry_nonretryable r task msg rnd pattern :
  In pattern nonRetryableErrors ->
  Contains (ToLower msg) pattern = true ->
  ShouldRetry r task (Some msg) rnd = Some ((false, 0), rnd).
Proof.
  intros Hin Hc. unfold ShouldRetry.
  destruct (MaxRetries task <=? Attempts task); [reflexivity|].
  assert (Hx : isRetryableError (Some msg) = false).
  { unfold isRetryableError. apply negb_false_iff. apply existsb_exists.
    exists pattern. split; [exact Hin|].
    simpl in Hin.
    destruct Hin as [<-|[<-|[<-|[<-|[]]]]]; exact Hc. }
  rewrite Hx. reflexivity.
Qed.

(** Whenever a retry is granted the attempts are below the cap and the
    error is a retryable one. *)
Lemma ShouldRetry_true r task err rnd delay rnd' :
  ShouldRetry r task err rnd = Some ((true, delay), rnd') ->
  Attempts task < MaxRetries task /\ isRetryableError err = true.
Proof.
  unfold ShouldRetry.
  destruct (MaxRetries task <=? Attempts task) eqn:E; [discriminate|].
  apply Z.leb_gt in E.
  destruct (isRetryableError err); simpl; [|discriminate].
  intros _. split; [lia|reflexivity].
Qed.

(** What [calculateBackoff] does where nothing overflows: the jitter is
    drawn from [[0, backoff/2)], up to half of the exponential value,
    and the cap comes last. *)
Lemma calculateBackoff_half r attempt rnd delay rnd' :
  1 <= attempt <= 32 ->
  2 <= baseDelay r <= 2 ^ 28 ->
  maxDelay r = 16 * baseDelay r ->
  calculateBackoff r attempt rnd = Some (delay, rnd') ->
  let backoff := baseDelay r * 2 ^ (attempt - 1) in
  exists jitter,
    0 <= 2 * jitter < backoff /\
    (delay = Z.min (maxDelay r) (backoff + jitter) \/
     delay = Z.min (maxDelay r) (backoff - jitter)).
Proof.
  intros Ha Hb Hmax. unfold calculateBackoff.
  destruct (attempt <=? 0) eqn:E; [apply Z.leb_le in E; lia|].
  assert (Hs : shl64 1 (attempt - 1) = 2 ^ (attempt - 1)).
  { unfold shl64. destruct (64 <=? attempt - 1) eqn:E'.
    - apply Z.leb_le in E'. lia.
    - rewrite Z.shiftl_1_l. apply wrap64_small.
      unfold in_int64, MinInt64, MaxInt64.
      assert (0 < 2 ^ (attempt - 1)) by (apply Z.pow_pos_nonneg; lia).
      assert (2 ^ (attempt - 1) <= 2 ^ 31) by (apply Z.pow_le_mono_r; lia).
      lia. }
  rewrite Hs.
  assert (Hp : 1 <= 2 ^ (attempt - 1) <= 2 ^ 31).
  { split.
    - assert (0 < 2 ^ (attempt - 1)) by (apply Z.pow_pos_nonneg; lia). lia.
    - apply Z.pow_le_mono_r; lia. }
  set (p := 2 ^ (attempt - 1)) in *.
  assert (Hbp : 2 <= baseDelay r * p <= 2 ^ 59) by nia.
  rewrite (wrap64_small (baseDelay r * p))
    by (unfold in_int64, MinInt64, MaxInt64; lia).
  set (b := baseDelay r * p) in *.
  assert (Hq : 1 <= Z.quot b 2 /\ 2 * Z.quot b 2 <= b).
  { rewrite Z.quot_div_nonneg by lia.
    pose proof (Z.div_mod b 2 ltac:(lia)).
    pose proof (Z.mod_pos_bound b 2 ltac:(lia)). lia. }
  unfold div64.
  rewrite (wrap64_small (Z.quot b 2))
    by (unfold in_int64, MinInt64, MaxInt64; lia).
  destruct (Rand.Int63n (Z.quot b 2) rnd) as [[jitter rnd1]|] eqn:Ej; [|discriminate].
  apply Int63n_range in Ej.
  unfold Rand.Intn.
  destruct (Rand.Int63n 2 rnd1) as [[coin rnd2]|] eqn:Ec; [|discriminate].
  intros H. inversion H; subst delay rnd'. clear H.
  exists jitter. split; [lia|].
  destruct (coin =? 0).
  - left. rewrite wrap64_small by (unfold in_int64, MinInt64, MaxInt64; lia).
    destruct (maxDelay r <? b + jitter) eqn:El.
    + apply Z.ltb_lt in El. lia.
    + apply Z.ltb_ge in El. lia.
  - right. rewrite wrap64_small by (unfold in_int64, MinInt64, MaxInt64; lia).
    destruct (maxDelay r <? b - jitter) eqn:El.
    + apply Z.ltb_lt in El. lia.
    + apply Z.ltb_ge in El. lia.
Qed.

(** C2.  [ShouldRetry] with the default base delay of 5 s, on the first
    failure of a task with three retries and a retryable error, when
    [rand.Int63n(backoff/2)] draws 2 s and the coin says "add": the
    delay returned is 7 s, outside the band of 25% around the capped
    exponential value of 5 s. *)
Theorem ShouldRetry_jitter_beyond_quarter :
  let r := NewRetryManager 3 (5 * Second) in
  let task := mkTask "t1" "send_notification" None zeroTime zeroTime 1 3 in
  ShouldRetry r task (Some "connection reset by peer") [2 * Second; 0]
    = Some ((true, 7 * Second), []) /\
  spec_cappedExponential (baseDelay r) (Attempts task) = 5 * Second /\
  ~ spec_withinQuarter (7 * Second) (5 * Second).
Proof.
  split; [vm_compute; reflexivity|].
  split; [vm_compute; reflexivity|].
  unfold spec_withinQuarter, Second. lia.
Qed.

End RetryFacts.

(** ** Execution with retry *)

Module ExecFacts.
Import Retry Queue.

(** The tasks a run of the loop hands to the handler: the same task with
    [Attempts] counting up from [a]. *)
Fixpoint attempts_from (t : Task) (a : Z) (n : nat) : list Task :=
  match n with
  | O => []
  | S n' => set_Attempts t a :: attempts_from t (a + 1) n'
  end.

Lemma attempts_from_length t a n : List.length (attempts_from t a n) = n.
Proof. revert a. induction n; intros a; simpl; [reflexivity|]. now rewrite IHn. Qed.

Lemma attempts_from_nth t n : forall a i ti,
  nth_error (attempts_from t a n) i = Some ti ->
  ti = set_Attempts t (a + Z.of_nat i).
Proof.
  induction n; intros a i ti H.
  - destruct i; discriminate.
  - destruct i; simpl in H.
    + inversion H. f_equal. lia.
    + apply IHn in H. subst ti. f_equal. lia.
Qed.

Lemma attempts_from_set t a b n :
  attempts_from (set_Attempts t b) a n = attempts_from t a n.
Proof. revert a. induction n; intros a; simpl; [reflexivity|]. now rewrite IHn. Qed.

(** A run that stops in its first iteration made one call. *)
Ltac one_call :=
  split; [simpl; discriminate
         |exists 1%nat; simpl; split; [lia|split; [lia|reflexivity]]].

(** With fuel above [MaxRetries - Attempts'], where [Attempts'] is the
    counter after its first increment, the loop ends by itself, after at
    least one and at most [max 1 (MaxRetries - Attempts' + 1)] calls of
    the handler. *)
Lemma execLoop_calls : forall fuel q handler t calls0 w,
  in_int64 (MaxRetries t) ->
  (Z.to_nat (MaxRetries t - wrap64 (Attempts t + 1)) < fuel)%nat ->
  let r := execLoop fuel q handler t calls0 w in
  outcome r <> ExecOutOfFuel /\
  exists n, (1 <= n)%nat /\
    Z.of_nat n <= Z.max 1 (MaxRetries t - wrap64 (Attempts t + 1) + 1) /\
    calls r = (calls0 ++ attempts_from t (wrap64 (Attempts t + 1)) n)%list.
Proof.
  induction fuel as [|fuel IH]; intros q handler t calls0 w HM Hf; [lia|].
  simpl.
  set (a1 := wrap64 (Attempts t + 1)) in *.
  set (t1 := set_Attempts t a1).
  destruct (handler t1) as [e|]; [|one_call].
  destruct (ShouldRetry (retryManager q) t1 (Some e) (rand_src w))
    as [[[b delay] s]|] eqn:Esr; [|one_call].
  destruct b; [|one_call].
  apply RetryFacts.ShouldRetry_true in Esr. destruct Esr as [Hlt _].
  simpl in Hlt. fold a1 in Hlt.
  match goal with
  | |- context [Rand.Int63n ?n ?src] =>
      destruct (Rand.Int63n n src) as [[j s']|]; [|one_call]
  end.
  destruct (hd false (ctx_done w)); [one_call|].
  assert (Ha2 : wrap64 (Attempts t1 + 1) = a1 + 1).
  { simpl. apply wrap64_small. unfold in_int64, MinInt64, MaxInt64 in *.
    pose proof (wrap64_range (Attempts t + 1)) as Hr.
    unfold in_int64, MinInt64, MaxInt64 in Hr. fold a1 in Hr. lia. }
  match goal with
  | |- context [execLoop fuel q handler t1 ?c ?w'] =>
      specialize (IH q handler t1 c w')
  end.
  rewrite Ha2 in IH. simpl in IH.
  destruct IH as [Hout [n [Hn1 [Hn2 Hcalls]]]]; [exact HM|lia|].
  split; [exact Hout|].
  exists (S n). split; [lia|]. split; [lia|].
  rewrite Hcalls. subst t1. rewrite attempts_from_set.
  rewrite <- app_assoc. reflexivity.
Qed.

(** C9, as the code has it.  For a task whose counters are Go [int]s,
    taken with a non-negative [Attempts] below the largest [int], the
    retry loop ends by itself, calls the handler at least once and at
    most [max 1 (MaxRetries - Attempts)] times, and the i-th call
    (counting from 0) sees the same task with [Attempts] increased by
    [i + 1]: the counter goes up by exactly one before every call. *)
Theorem executeTaskWithRetry_retry_cap :
  forall q handler t w,
    in_int64 (MaxRetries t) ->
    0 <= Attempts t < MaxInt64 ->
    let r := executeTaskWithRetry q handler t w in
    outcome r <> ExecOutOfFuel /\
    (1 <= List.length (calls r))%nat /\
    Z.of_nat (List.length (calls r)) <= Z.max 1 (MaxRetries t - Attempts t) /\
    forall i ti, nth_error (calls r) i = Some ti ->
      ti = set_Attempts t (Attempts t + 1 + Z.of_nat i).
Proof.
  intros q handler t w HM Ha. unfold executeTaskWithRetry.
  assert (Hw : wrap64 (Attempts t + 1) = Attempts t + 1).
  { apply wrap64_small. unfold in_int64, MinInt64, MaxInt64 in *. lia. }
  assert (Hf : (Z.to_nat (MaxRetries t - wrap64 (Attempts t + 1)) < retryFuel t)%nat).
  { unfold retryFuel. lia. }
  pose proof (execLoop_calls (retryFuel t) q handler t [] w HM Hf) as H.
  cbv zeta in H. rewrite Hw in H.
  destruct H as [Ho [n [Hn1 [Hn2 Hc]]]]. rewrite app_nil_l in Hc.
  cbv zeta.
  split; [exact Ho|]. rewrite Hc, attempts_from_length.
  split; [exact Hn1|]. split; [lia|].
  intros i ti Hi. apply attempts_from_nth in Hi. exact Hi.
Qed.

Definition failing_handler (t : Task) : option string := Some "connection refused".

(** C9, witness: three retries, a handler that fails every time. *)
Lemma executeTaskWithRetry_retry_cap_witness :
  let t := mkTask "t1" "send_notification" None zeroTime zeroTime 0 3 in
  let r := executeTaskWithRetry (NewRedisQueue DefaultRedisQueueConfig)
             failing_handler t (mkWorld 0 [] [] []) in
  outcome r <> ExecOutOfFuel /\
  (1 <= List.length (calls r))%nat /\
  Z.of_nat (List.length (calls r)) <= Z.max 1 (MaxRetries t - Attempts t) /\
  forall i ti, nth_error (calls r) i = Some ti ->
    ti = set_Attempts t (Attempts t + 1 + Z.of_nat i).
Proof.
  apply (executeTaskWithRetry_retry_cap (NewRedisQueue DefaultRedisQueueConfig)
           failing_handler
           (mkTask "t1" "send_notification" None zeroTime zeroTime 0 3)
           (mkWorld 0 [] [] [])).
  - unfold in_int64, MinInt64, MaxInt64. simpl. lia.
  - unfold MaxInt64. simpl. lia.
Defined.

(** C9, as stated, fails: a task published with [max_retries = -1] (or
    with 0 on a queue configured with no retries) still reaches the
    handler once. *)
Lemma handler_called_beyond_max_retries :
  ~ (forall q handler t w,
       in_int64 (MaxRetries t) -> 0 <= Attempts t < MaxInt64 ->
       Z.of_nat (List.length (calls (executeTaskWithRetry q handler t w)))
       <= MaxRetries t).
Proof.
  intros H.
  specialize (H (NewRedisQueue DefaultRedisQueueConfig) failing_handler
                (mkTask "t1" "send_notification" None zeroTime zeroTime 0 (-1))
                (mkWorld 0 [] [] [])).
  assert (H1 : in_int64 (-1)) by (unfold in_int64, MinInt64, MaxInt64; lia).
  assert (H2 : 0 <= 0 < MaxInt64) by (unfold MaxInt64; lia).
  specialize (H H1 H2). vm_compute in H. apply H. reflexivity.
Qed.

End ExecFacts.

(** ** Publish *)

Module PublishFacts.
Import Retry Queue.

Lemma formatTaskID_nonempty nano r : formatTaskID nano r <> "".
Proof. unfold formatTaskID. simpl. discriminate. Qed.

Lemma generateTaskID_nonempty w : fst (generateTaskID w) <> "".
Proof.
  unfold generateTaskID. destruct (Now w) as [now w1].
  destruct (Rand.Int63 (rand_src w1)) as [r s]. simpl.
  apply formatTaskID_nonempty.
Qed.

Lemma generateTaskID_clock w :
  clock_now w <= clock_now (snd (generateTaskID w)).
Proof.
  unfold generateTaskID. pose proof (Now_mono w) as H.
  destruct (Now w) as [now w1]. simpl in H.
  destruct (Rand.Int63 (rand_src w1)) as [r s]. simpl. exact H.
Qed.

Lemma eqb_empty_false s : s <> "" -> String.eqb s "" = false.
Proof. intros H. apply String.eqb_neq. exact H. Qed.











(** The clock reading [Publish] compares [execute_at] with: the one that
    follows the readings of [validateTask]. *)
Definition routeNow (q : RedisQueue) (task : Task) (w : World) : Time :=
  clock_now (snd (validateTask q task w)).

(** What [validateTask] leaves in a task that has a type. *)
Lemma validateTask_ok q t w :
  Type_ t <> "" ->
  let '((t', err), w') := validateTask q t w in
  err = None /\
  Type_ t' = Type_ t /\
  Attempts t' = Attempts t /\
  ID t' = (if String.eqb (ID t) "" then fst (generateTaskID w) else ID t) /\
  Data t' = (match Data t with None => Some [] | Some d => Some d end) /\
  MaxRetries t' = (if MaxRetries t =? 0 then cfg_MaxRetries (config q)
                   else MaxRetries t) /\
  (if IsZero (CreatedAt t)
   then clock_now w <= CreatedAt t' <= clock_now w'
   else CreatedAt t' = CreatedAt t) /\
  (if IsZero (ExecuteAt t)
   then clock_now w <= ExecuteAt t' <= clock_now w'
   else ExecuteAt t' = ExecuteAt t).
Proof.
  intros Hty. unfold validateTask.
  pose proof (generateTaskID_clock w) as Hg.
  destruct (String.eqb (ID t) "") eqn:Eid.
  - destruct (generateTaskID w) as [id w1] eqn:Eg. simpl in Hg.
    cbn [Type_ set_ID]. rewrite (eqb_empty_false _ Hty).
    destruct t as [i ty d ex cr at_ mr]. cbn in *.
    destruct d as [d|]; cbn;
      destruct (mr =? 0); cbn;
      destruct (IsZero cr); cbn;
      destruct (IsZero ex); cbn;
      repeat split; try reflexivity; cbn; try lia;
      pose proof (Now_mono w1); unfold Now in *; cbn in *; lia.
  - rewrite (eqb_empty_false _ Hty).
    destruct t as [i ty d ex cr at_ mr]. cbn in *.
    destruct d as [d|]; cbn;
      destruct (mr =? 0); cbn;
      destruct (IsZero cr); cbn;
      destruct (IsZero ex); cbn;
      repeat split; try reflexivity; cbn; lia.
Qed.

(** What [validateTask] does to a task without a type: an id is
    assigned when there was none, and the error is returned. *)
Lemma validateTask_no_type q t w :
  Type_ t = "" ->
  validateTask q t w =
    if String.eqb (ID t) ""
    then ((set_ID t (fst (generateTaskID w)), Some "task type is required"),
          snd (generateTaskID w))
    else ((t, Some "task type is required"), w).
Proof.
  intros Hty. unfold validateTask.
  destruct (String.eqb (ID t) "").
  - destruct (generateTaskID w) as [id w1]. cbn [Type_ set_ID fst snd].
    rewrite Hty. reflexivity.
  - rewrite Hty. reflexivity.
Qed.


(** C10.  [Publish] on a task with neither id nor type fails, and yet
    the caller's task comes back changed: it now carries a generated,
    non-empty id.  Nothing is enqueued. *)
Theorem Publish_mutates_rejected_task :
  forall (marshal : Task -> string) q st t w,
    ID t = "" ->
    Type_ t = "" ->
    let '((t', err), st', w') := Publish marshal q st t w in
    err = Some "invalid task: task type is required" /\
    ID t' = fst (generateTaskID w) /\
    ID t' <> ID t /\
    t' <> t /\
    st' = st.
Proof.
  intros marshal q st t w Hid Hty. unfold Publish.
  rewrite (validateTask_no_type q t w Hty), Hid. cbn.
  pose proof (generateTaskID_nonempty w) as Hne.
  split; [reflexivity|]. split; [reflexivity|].
  split; [exact Hne|].
  split; [|reflexivity].
  intros Heq. apply (f_equal ID) in Heq. cbn in Heq.
  rewrite Hid in Heq. exact (Hne Heq).
Qed.

Definition demo_marshal (t : Task) : string := "{id:" ++ ID t ++ "}".

(** C10, witness: an empty task on the default queue. *)
Lemma Publish_mutates_rejected_task_witness :
  let t := mkTask "" "" None zeroTime zeroTime 0 0 in
  let w := mkWorld 1700000000 [] [42] [] in
  let q := NewRedisQueue DefaultRedisQueueConfig in
  let st := mkStore [] [] [] [] in
  let '((t', err), st', w') := Publish demo_marshal q st t w in
  err = Some "invalid task: task type is required" /\
  ID t' = fst (generateTaskID w) /\
  ID t' <> ID t /\
  t' <> t /\
  st' = st.
Proof.
  apply (Publish_mutates_rejected_task demo_marshal
           (NewRedisQueue DefaultRedisQueueConfig) (mkStore [] [] [] [])
           (mkTask "" "" None zeroTime zeroTime 0 0)
           (mkWorld 1700000000 [] [42] [])); reflexivity.
Defined.

End PublishFacts.

(** ** The consumer: [processBatch] *)

Module ConsumerFacts.
Import Retry Queue.

Lemma RPopLPush_last rest raw dst :
  Redis.RPopLPush (rest ++ [raw])%list dst = Some (raw, rest, raw :: dst).
Proof.
  unfold Redis.RPopLPush. rewrite rev_app_distr. simpl.
  rewrite rev_involutive. reflexivity.
Qed.

Lemma LRem1_head raw l : Redis.LRem1 (raw :: l) raw = l.
Proof. simpl. rewrite String.eqb_refl. reflexivity. Qed.

Section Codec.

Variable unmarshal : string -> Task + string.
Variable marshalFailed : FailedTask -> string.

(** The DLQ entry [moveToDLQ] writes for data that does not decode. *)
Definition corruptedEntry (raw jsonErr : string) (w : World) : FailedTask :=
  let '(now1, w1) := Now w in
  let '(now2, w2) := Now w1 in
  let '(now3, _) := Now w2 in
  mkFailedTask
    (mkTask ("corrupted_" ++ FormatInt (UnixNano now1)) "corrupted"
            (Some [("raw_data", JString raw)]) zeroTime now2 0 0)
    ("corrupted task: " ++ jsonErr) now3 0.

(** C3.  When the entry the consumer pops from the ready list does not
    decode, [processBatch] returns without calling the handler; with
    the DLQ enabled the raw data is shipped to it, wrapped in a
    "corrupted" task; and the entry that the pop pushed on the
    in-flight list is still there: it is not removed. *)
Theorem processBatch_malformed_stays_in_flight :
  forall q handler st w rest raw jsonErr,
    mainQueue st = (rest ++ [raw])%list ->
    unmarshal raw = inr jsonErr ->
    let '((out, called), st', w') :=
      processBatch unmarshal marshalFailed q handler st w in
    out = BatchMalformed /\
    called = [] /\
    mainQueue st' = rest /\
    processingQueue st' = raw :: processingQueue st /\
    In raw (processingQueue st') /\
    dlq st' =
      (if (cfg_EnableDLQ (config q) && dlqHandler q)%bool
       then let ft := corruptedEntry raw jsonErr w in
            Redis.ZAdd (dlq st) (UnixNano (ft_FailedAt ft)) (marshalFailed ft)
       else dlq st).
Proof.
  intros q handler st w rest raw jsonErr Hmain Hdec.
  unfold processBatch. rewrite Hmain, RPopLPush_last, Hdec.
  unfold moveToDLQ. cbn [config dlqHandler].
  destruct (cfg_EnableDLQ (config q)); destruct (dlqHandler q); cbn;
    try (repeat split; auto; fail).
  rewrite Hdec. cbn.
  repeat split; auto.
Qed.

(** The other terminal outcomes do remove the entry: when the popped
    entry decodes and the retry loop returns (nil, a final error, or
    cancellation), the in-flight list is as before the pop. *)
Lemma processBatch_handled_removed :
  forall q handler st w rest raw task,
    mainQueue st = (rest ++ [raw])%list ->
    unmarshal raw = inl task ->
    outcome (executeTaskWithRetry q handler task w) <> ExecPanic ->
    outcome (executeTaskWithRetry q handler task w) <> ExecOutOfFuel ->
    let '(_, st', _) := processBatch unmarshal marshalFailed q handler st w in
    mainQueue st' = rest /\
    processingQueue st' = processingQueue st.
Proof.
  intros q handler st w rest raw task Hmain Hdec Hp Hf.
  unfold processBatch. rewrite Hmain, RPopLPush_last, Hdec.
  destruct (outcome (executeTaskWithRetry q handler task w)) eqn:Eo;
    try contradiction.
  - cbn. rewrite String.eqb_refl. split; reflexivity.
  - destruct (dlqHandler q); cbn; rewrite String.eqb_refl; split; reflexivity.
Qed.

End Codec.

(** A decoder for the examples: an entry decodes when it starts with an
    opening brace. *)
Definition demo_unmarshal (s : string) : Task + string :=
  if HasPrefix s "{"
  then inl (mkTask s "send_notification" (Some []) zeroTime zeroTime 0 3)
  else inr "invalid character looking for beginning of value".

Definition demo_marshalFailed (ft : FailedTask) : string :=
  "{task:" ++ ID (ft_Task ft) ++ ",error:" ++ ft_Error ft ++ "}".

(** C3, witness: the entry [not json] on the default queue. *)
Lemma processBatch_malformed_stays_in_flight_witness :
  let q := NewRedisQueue DefaultRedisQueueConfig in
  let st := mkStore ["not json"] [] [] [] in
  let w := mkWorld 1700000000 [] [] [] in
  let '((out, called), st', w') :=
    processBatch demo_unmarshal demo_marshalFailed q (fun _ => None) st w in
  out = BatchMalformed /\
  called = [] /\
  mainQueue st' = [] /\
  processingQueue st' = "not json" :: processingQueue st /\
  In "not json" (processingQueue st') /\
  dlq st' =
    (if (cfg_EnableDLQ (config q) && dlqHandler q)%bool
     then let ft := corruptedEntry "not json"
                      "invalid character looking for beginning of value" w in
          Redis.ZAdd (dlq st) (UnixNano (ft_FailedAt ft)) (demo_marshalFailed ft)
     else dlq st).
Proof.
  apply (processBatch_malformed_stays_in_flight demo_unmarshal demo_marshalFailed
           (NewRedisQueue DefaultRedisQueueConfig) (fun _ => None)
           (mkStore ["not json"] [] [] []) (mkWorld 1700000000 [] [] [])
           [] "not json" "invalid character looking for beginning of value");
    reflexivity.
Defined.

End ConsumerFacts.

(** ** Booking repository *)

Module RepositoryFacts.
Import Repository Service.

Definition byID (id : Z) (b : Booking) : bool := Booking_ID b =? id.

(** Rewriting rows keeps what [find] sees of a booking, as long as ids
    are kept. *)
Lemma find_map_id (f : Booking -> Booking) id bs :
  (forall b, Booking_ID (f b) = Booking_ID b) ->
  find (byID id) (map f bs) = option_map f (find (byID id) bs).
Proof.
  intros Hf. induction bs as [|b bs IH]; [reflexivity|].
  simpl. unfold byID at 1 3. rewrite Hf.
  destruct (Booking_ID b =? id); [reflexivity|exact IH].
Qed.

Lemma find_update_status_rows bs i s now id :
  find (byID id) (update_status_rows bs i s now) =
  option_map (fun b => if Booking_ID b =? i then set_status b s now else b)
             (find (byID id) bs).
Proof.
  unfold update_status_rows. apply find_map_id.
  intros b. destruct (Booking_ID b =? i); reflexivity.
Qed.

Lemma find_byID_id id bs b : find (byID id) bs = Some b -> Booking_ID b = id.
Proof.
  intros H. apply find_some in H. destruct H as [_ H].
  unfold byID in H. apply Z.eqb_eq in H. exact H.
Qed.

(** The status of every booking after the UPDATE of [UpdateStatus]. *)
Lemma statusOf_update_status_rows db i s now id :
  statusOf (with_bookings db (update_status_rows (bookings db) i s now)) id =
  if id =? i then option_map (fun _ => s) (statusOf db id) else statusOf db id.
Proof.
  unfold statusOf. cbn [bookings with_bookings].
  change (fun b => Booking_ID b =? id) with (byID id).
  rewrite find_update_status_rows.
  destruct (find (byID id) (bookings db)) as [b|] eqn:Ef; cbn.
  - apply find_byID_id in Ef. rewrite Ef.
    destruct (id =? i); reflexivity.
  - destruct (id =? i); reflexivity.
Qed.

(** [UpdateStatus] either fails and leaves the database alone, or
    rewrites the status of the rows with the given id. *)
Lemma UpdateStatus_cases db i s w :
  let '(err, db', w') := UpdateStatus db i s w in
  (err <> None /\ db' = db) \/
  (err = None /\
   db' = with_bookings db (update_status_rows (bookings db) i s (clock_now w)) /\
   statusOf db i <> None).
Proof.
  unfold UpdateStatus.
  destruct (find (fun b => Booking_ID b =? i) (bookings db)) as [cur|] eqn:Ef.
  2:{ left. split; [discriminate|reflexivity]. }
  assert (Hs : statusOf db i <> None).
  { unfold statusOf. rewrite Ef. discriminate. }
  destruct (String.eqb (Booking_Status cur) BookingStatusPending &&
            String.eqb s BookingStatusConfirmed)%bool.
  - destruct (totalSeats db (Booking_EventID cur)) as [total|].
    + destruct (total <? confirmedSeats db (Booking_EventID cur) + Booking_Seats cur).
      * left. split; [discriminate|reflexivity].
      * right. cbn. auto.
    + left. split; [discriminate|reflexivity].
  - right. cbn. auto.
Qed.

(** When the target is not [confirmed], or the booking is not pending,
    [UpdateStatus] on an existing booking always goes through. *)
Lemma UpdateStatus_unchecked db i s w b :
  find (byID i) (bookings db) = Some b ->
  (String.eqb (Booking_Status b) BookingStatusPending &&
   String.eqb s BookingStatusConfirmed)%bool = false ->
  UpdateStatus db i s w =
    (None, with_bookings db (update_status_rows (bookings db) i s (clock_now w)),
     snd (Now w)).
Proof.
  intros Hf Hc. unfold UpdateStatus. unfold byID in Hf. rewrite Hf, Hc.
  reflexivity.
Qed.



End RepositoryFacts.

(** ** Booking service: single operations *)

Module ServiceFacts.
Import Repository Service RepositoryFacts.

(** A booking without its [updated_at] column. *)
Definition forget_UpdatedAt (b : Booking) : Booking := set_UpdatedAt b zeroTime.

Lemma expired_not_confirmed :
  String.eqb BookingStatusExpired BookingStatusConfirmed = false.
Proof. reflexivity. Qed.

Lemma update_status_rows_twice bs i s now1 now2 :
  map forget_UpdatedAt (update_status_rows (update_status_rows bs i s now1) i s now2)
  = map forget_UpdatedAt (update_status_rows bs i s now1).
Proof.
  unfold update_status_rows. rewrite !map_map. apply map_ext. intros b.
  destruct (Booking_ID b =? i) eqn:E; cbn; rewrite E; reflexivity.
Qed.

(** C4, as the code has it.  On a booking that exists, whatever its
    status, [ExpireBooking] returns nil and leaves it [expired]; the
    other bookings are as they were; and a second [ExpireBooking]
    returns nil again and changes nothing but [updated_at]. *)
Theorem ExpireBooking_unconditional :
  forall db id w b,
    find (byID id) (bookings db) = Some b ->
    let '(err, db', w') := ExpireBooking db id w in
    err = None /\
    statusOf db' id = Some BookingStatusExpired /\
    (forall id', id' <> id ->
       find (byID id') (bookings db') = find (byID id') (bookings db)) /\
    let '(err2, db'', _) := ExpireBooking db' id w' in
    err2 = None /\
    map forget_UpdatedAt (bookings db'') = map forget_UpdatedAt (bookings db').
Proof.
  intros db id w b Hf. unfold ExpireBooking.
  rewrite (UpdateStatus_unchecked db id BookingStatusExpired w b Hf)
    by (rewrite expired_not_confirmed; apply andb_false_r).
  split; [reflexivity|].
  split.
  { rewrite statusOf_update_status_rows, Z.eqb_refl.
    unfold statusOf. unfold byID in Hf. rewrite Hf. reflexivity. }
  split.
  { intros id' Hne. cbn [bookings with_bookings].
    rewrite find_update_status_rows.
    destruct (find (byID id') (bookings db)) as [b'|] eqn:Ef'; [|reflexivity].
    cbn. apply find_byID_id in Ef'. rewrite Ef'.
    destruct (id' =? id) eqn:E; [apply Z.eqb_eq in E; contradiction|reflexivity]. }
  set (db' := with_bookings db
                (update_status_rows (bookings db) id BookingStatusExpired (clock_now w))).
  assert (Hf' : find (byID id) (bookings db')
                = Some (set_status b BookingStatusExpired (clock_now w))).
  { subst db'. cbn [bookings with_bookings]. rewrite find_update_status_rows, Hf.
    cbn. rewrite (find_byID_id _ _ _ Hf), Z.eqb_refl. reflexivity. }
  rewrite (UpdateStatus_unchecked db' id BookingStatusExpired (snd (Now w)) _ Hf')
    by (rewrite expired_not_confirmed; apply andb_false_r).
  split; [reflexivity|].
  subst db'. cbn [bookings with_bookings]. apply update_status_rows_twice.
Qed.

(** An event with ten seats, two users, and one booking of two seats in
    the given status, due at 1000 s. *)
Definition demo_db (status : BookingStatus) : DB :=
  mkDB [mkEvent 1 "concert" (5000 * Second) 10]
       [mkUser 1 "ann@example.org" ""; mkUser 2 "bob@example.org" ""]
       [mkBooking 1 1 1 2 status (1000 * Second) 30 (100 * Second) (100 * Second)]
       2.

Definition demo_world (now : Time) : World := mkWorld now [] [] [].

(** C4, witness: a confirmed booking. *)
Lemma ExpireBooking_unconditional_witness :
  let '(err, db', w') :=
    ExpireBooking (demo_db BookingStatusConfirmed) 1 (demo_world (200 * Second)) in
  err = None /\
  statusOf db' 1 = Some BookingStatusExpired /\
  (forall id', id' <> 1 ->
     find (byID id') (bookings db')
     = find (byID id') (bookings (demo_db BookingStatusConfirmed))) /\
  let '(err2, db'', _) := ExpireBooking db' 1 w' in
  err2 = None /\
  map forget_UpdatedAt (bookings db'') = map forget_UpdatedAt (bookings db').
Proof.
  apply (ExpireBooking_unconditional (demo_db BookingStatusConfirmed) 1
           (demo_world (200 * Second))
           (mkBooking 1 1 1 2 BookingStatusConfirmed (1000 * Second) 30
                      (100 * Second) (100 * Second))).
  reflexivity.
Defined.

(** C4, as stated, fails: [ExpireBooking] is not a no-op on a booking
    that is not pending; a confirmed booking becomes expired. *)
Lemma ExpireBooking_not_noop_on_confirmed :
  ~ (forall db id w b,
       find (byID id) (bookings db) = Some b ->
       Booking_Status b <> BookingStatusPending ->
       let '(_, db', _) := ExpireBooking db id w in
       statusOf db' id = statusOf db id).
Proof.
  intros H.
  specialize (H (demo_db BookingStatusConfirmed) 1 (demo_world (200 * Second))
                (mkBooking 1 1 1 2 BookingStatusConfirmed (1000 * Second) 30
                           (100 * Second) (100 * Second))
                eq_refl).
  cbn in H. assert (Hne : "confirmed" <> BookingStatusPending) by discriminate.
  specialize (H Hne). discriminate H.
Qed.

(** Every case of [ConfirmBooking] on a booking that exists, with the
    clock reading of the call for [now]. *)
Lemma ConfirmBooking_cases :
  forall db id w b,
    find (byID id) (bookings db) = Some b ->
    let '(err, db', w') := ConfirmBooking db id w in
    if negb (String.eqb (Booking_Status b) BookingStatusPending)
    then err = Some SvcNotPending /\ db' = db
    else if Booking_ExpiresAt b <? clock_now w
    then err = Some SvcExpired /\ statusOf db' id = Some BookingStatusExpired
    else
      match totalSeats db (Booking_EventID b) with
      | None => err = Some (SvcEventInfo ErrNoRows) /\ db' = db
      | Some total =>
          if total <? confirmedSeats db (Booking_EventID b) + Booking_Seats b
          then err = Some SvcInsufficientToConfirm /\ db' = db
          else err = None /\ statusOf db' id = Some BookingStatusConfirmed
      end.
Proof.
  intros db id w b Hf. unfold ConfirmBooking, GetByID.
  pose proof Hf as Hf0. unfold byID in Hf. rewrite Hf.
  destruct (negb (String.eqb (Booking_Status b) BookingStatusPending)) eqn:Ep.
  { split; reflexivity. }
  apply negb_false_iff in Ep.
  destruct (Now w) as [now w1] eqn:EN.
  assert (Hnow : now = clock_now w) by (unfold Now in EN; inversion EN; reflexivity).
  assert (Hw1 : w1 = snd (Now w)) by (rewrite EN; reflexivity).
  subst now. unfold After.
  assert (Hst : forall s now',
    statusOf (with_bookings db (update_status_rows (bookings db) id s now')) id
    = Some s).
  { intros s now'. rewrite statusOf_update_status_rows, Z.eqb_refl.
    unfold statusOf. rewrite Hf. reflexivity. }
  destruct (Booking_ExpiresAt b <? clock_now w).
  { rewrite (UpdateStatus_unchecked db id BookingStatusExpired w1 b Hf0)
      by (rewrite expired_not_confirmed; apply andb_false_r).
    split; [reflexivity|apply Hst]. }
  unfold Event_GetByID, totalSeats.
  destruct (find (fun e => Event_ID e =? Booking_EventID b) (events db))
    as [e|] eqn:Ee; cbn [option_map].
  2:{ split; reflexivity. }
  cbn [AvailableSeats].
  replace (Event_TotalSeats e - confirmedSeats db (Booking_EventID b) <? Booking_Seats b)
    with (Event_TotalSeats e <? confirmedSeats db (Booking_EventID b) + Booking_Seats b).
  2:{ destruct (Event_TotalSeats e <? confirmedSeats db (Booking_EventID b) + Booking_Seats b) eqn:E1;
      symmetry; [apply Z.ltb_lt; apply Z.ltb_lt in E1|apply Z.ltb_ge; apply Z.ltb_ge in E1]; lia. }
  destruct (Event_TotalSeats e <? confirmedSeats db (Booking_EventID b) + Booking_Seats b) eqn:Ecap.
  { split; reflexivity. }
  unfold UpdateStatus. rewrite Hf, Ep, String.eqb_refl. cbn [andb].
  unfold totalSeats. rewrite Ee. cbn [option_map]. rewrite Ecap.
  destruct (Now w1) as [now2 w2]. split; [reflexivity|apply Hst].
Qed.

(** C7.  [ConfirmBooking] on a booking that exists, with [now] the clock
    reading of the call.  It returns nil only when the booking is pending,
    [now] is not after [expires_at] and the confirmed seats of the event
    plus the seats of the booking do not exceed [total_seats], and then
    the booking is [confirmed]; under these conditions it does return nil.
    On a pending booking whose deadline is before [now] it moves the
    booking to [expired] and fails.  On an already confirmed booking it
    fails with the not-pending error and the database is untouched. *)
Theorem ConfirmBooking_spec :
  forall db id w b,
    find (byID id) (bookings db) = Some b ->
    let '(err, db', w') := ConfirmBooking db id w in
    (err = None ->
       Booking_Status b = BookingStatusPending /\
       clock_now w <= Booking_ExpiresAt b /\
       (exists total, totalSeats db (Booking_EventID b) = Some total /\
          confirmedSeats db (Booking_EventID b) + Booking_Seats b <= total) /\
       statusOf db' id = Some BookingStatusConfirmed) /\
    (forall total,
       Booking_Status b = BookingStatusPending ->
       clock_now w <= Booking_ExpiresAt b ->
       totalSeats db (Booking_EventID b) = Some total ->
       confirmedSeats db (Booking_EventID b) + Booking_Seats b <= total ->
       err = None) /\
    (Booking_Status b = BookingStatusPending ->
     Booking_ExpiresAt b < clock_now w ->
       err = Some SvcExpired /\ statusOf db' id = Some BookingStatusExpired) /\
    (Booking_Status b = BookingStatusConfirmed ->
       err = Some SvcNotPending /\ db' = db).
Proof.
  intros db id w b Hf.
  pose proof (ConfirmBooking_cases db id w b Hf) as H.
  destruct (ConfirmBooking db id w) as [[err db'] w'].
  destruct (String.eqb (Booking_Status b) BookingStatusPending) eqn:Ep; cbn [negb] in H.
  - apply String.eqb_eq in Ep.
    assert (Hnc : Booking_Status b <> BookingStatusConfirmed).
    { rewrite Ep. discriminate. }
    destruct (Booking_ExpiresAt b <? clock_now w) eqn:Ed.
    + apply Z.ltb_lt in Ed. destruct H as [He Hs]. subst err.
      split; [discriminate|]. split; [intros; lia|].
      split; [intros; split; [reflexivity|exact Hs]|].
      intros Hc. contradiction.
    + apply Z.ltb_ge in Ed.
      destruct (totalSeats db (Booking_EventID b)) as [total|].
      * destruct (total <? confirmedSeats db (Booking_EventID b) + Booking_Seats b) eqn:Ec.
        -- apply Z.ltb_lt in Ec. destruct H as [He Hd]. subst err.
           split; [discriminate|].
           split; [intros total' _ _ Ht Hle; inversion Ht; lia|].
           split; [intros; lia|].
           intros Hc. contradiction.
        -- apply Z.ltb_ge in Ec. destruct H as [He Hs]. subst err.
           split.
           { intros _. split; [exact Ep|]. split; [exact Ed|].
             split; [|exact Hs]. exists total. split; [reflexivity|exact Ec]. }
           split; [reflexivity|].
           split; [intros; lia|].
           intros Hc. contradiction.
      * destruct H as [He Hd]. subst err.
        split; [discriminate|].
        split; [intros total _ _ Ht; discriminate Ht|].
        split; [intros; lia|].
        intros Hc. contradiction.
  - destruct H as [He Hd]. subst err db'.
    assert (Hnp : Booking_Status b <> BookingStatusPending).
    { intros Hc. rewrite Hc in Ep. discriminate. }
    split; [discriminate|].
    split; [intros; contradiction|].
    split; [intros; contradiction|].
    intros _. split; reflexivity.
Qed.

(** C7, witness: a pending booking of two seats on an event with ten free
    seats, confirmed before its deadline. *)
Lemma ConfirmBooking_spec_witness :
  let db := demo_db BookingStatusPending in
  let w := demo_world (200 * Second) in
  let b := mkBooking 1 1 1 2 BookingStatusPending (1000 * Second) 30
                     (100 * Second) (100 * Second) in
  let '(err, db', w') := ConfirmBooking db 1 w in
  (err = None ->
     Booking_Status b = BookingStatusPending /\
     clock_now w <= Booking_ExpiresAt b /\
     (exists total, totalSeats db (Booking_EventID b) = Some total /\
        confirmedSeats db (Booking_EventID b) + Booking_Seats b <= total) /\
     statusOf db' 1 = Some BookingStatusConfirmed) /\
  (forall total,
     Booking_Status b = BookingStatusPending ->
     clock_now w <= Booking_ExpiresAt b ->
     totalSeats db (Booking_EventID b) = Some total ->
     confirmedSeats db (Booking_EventID b) + Booking_Seats b <= total ->
     err = None) /\
  (Booking_Status b = BookingStatusPending ->
   Booking_ExpiresAt b < clock_now w ->
     err = Some SvcExpired /\ statusOf db' 1 = Some BookingStatusExpired) /\
  (Booking_Status b = BookingStatusConfirmed ->
     err = Some SvcNotPending /\ db' = db).
Proof.
  exact (ConfirmBooking_spec (demo_db BookingStatusPending) 1
           (demo_world (200 * Second))
           (mkBooking 1 1 1 2 BookingStatusPending (1000 * Second) 30
                      (100 * Second) (100 * Second))
           eq_refl).
Defined.

(** C6.  An event of ten seats, none confirmed, and a pending booking of
    two seats: [UpdateBookingSeats] to 100 seats, an increase of 98 with
    10 available, returns nil and the booking has 100 seats. *)
Theorem UpdateBookingSeats_accepts_excess :
  let db := demo_db BookingStatusPending in
  let '(err, db', _) := UpdateBookingSeats db 1 100 (demo_world (200 * Second)) in
  option_map AvailableSeats
    (match Event_GetByID db 1 with inl e => Some e | inr _ => None end) = Some 10 /\
  seatsOf db 1 = Some 2 /\
  err = None /\
  seatsOf db' 1 = Some 100.
Proof. vm_compute. repeat split; reflexivity. Qed.

End ServiceFacts.

(** ** Booking service: sequences of operations *)

Module SequenceFacts.
Import Repository Service RepositoryFacts ServiceFacts.





Lemma find_app_last (f : Booking -> bool) l x :
  find f (l ++ [x]) =
  match find f l with
  | Some y => Some y
  | None => if f x then Some x else None
  end.
Proof.
  induction l as [|y l IH]; simpl; [reflexivity|].
  destruct (f y); [reflexivity|exact IH].
Qed.

Lemma find_filter_keep (f g : Booking -> bool) l :
  (forall x, f x = true -> g x = true) ->
  find f (filter g l) = find f l.
Proof.
  intros H. induction l as [|x l IH]; simpl; [reflexivity|].
  destruct (g x) eqn:Eg; simpl.
  - destruct (f x); [reflexivity|exact IH].
  - destruct (f x) eqn:Ef; [|exact IH].
    rewrite (H x Ef) in Eg. discriminate.
Qed.

Lemma find_filter_drop (f g : Booking -> bool) l :
  (forall x, f x = true -> g x = false) ->
  find f (filter g l) = None.
Proof.
  intros H. induction l as [|x l IH]; simpl; [reflexivity|].
  destruct (g x) eqn:Eg; simpl; [|exact IH].
  destruct (f x) eqn:Ef; [|exact IH].
  rewrite (H x Ef) in Eg. discriminate.
Qed.

















(** An event with a single seat and two users. *)
Definition one_seat_db : DB :=
  mkDB [mkEvent 1 "premiere" (5000 * Second) 1]
       [mkUser 1 "ann@example.org" ""; mkUser 2 "bob@example.org" ""]
       [] 1.

Definition overbooking_ops : list Op :=
  [ OpBookSeats (mkBookSeatsRequest 1 1 1 0);
    OpBookSeats (mkBookSeatsRequest 1 2 1 0);
    OpConfirmBooking 1;
    OpCancelBooking 2 "changed plans";
    OpUpdateBookingStatus 2 BookingStatusConfirmed ].

(** C1.  On an event with one seat: two users book a seat each, the
    first booking is confirmed, the second is cancelled and then set to
    [confirmed] with [UpdateBookingStatus].  Before the last step one
    seat is confirmed; after it two are, for a total of one. *)
Theorem capacity_broken_by_reconfirmation :
  let w := demo_world (200 * Second) in
  let before := fst (run (firstn 4 overbooking_ops) one_seat_db w) in
  let after := fst (run overbooking_ops one_seat_db w) in
  totalSeats after 1 = Some 1 /\
  confirmedSeats before 1 = 1 /\
  statusOf before 2 = Some BookingStatusCancelled /\
  confirmedSeats after 1 = 2.
Proof. vm_compute. repeat split; reflexivity. Qed.

End SequenceFacts.

(** ** Scenarios of the specification, run on the model *)

Module Scenarios.
Import Retry Queue Repository Service ServiceFacts SequenceFacts.

Definition queue0 : RedisQueue := NewRedisQueue DefaultRedisQueueConfig.
Definition store0 : Store := mkStore [] [] [] [].

(** A task due now goes to the ready list, a task due later to the
    delayed set, scored by its [execute_at]. *)
Example Publish_immediate :
  let t := mkTask "n1" "send_notification" None zeroTime zeroTime 0 0 in
  let '((t', err), st', _) :=
    Publish PublishFacts.demo_marshal queue0 store0 t (demo_world (100 * Second)) in
  err = None /\ MaxRetries t' = 3 /\ CreatedAt t' = 100 * Second /\
  mainQueue st' = ["{id:n1}"] /\ delayedQueue st' = [].
Proof. vm_compute. repeat split; reflexivity. Qed.

Example Publish_delayed :
  let t := mkTask "e1" "expire_booking" None (1900 * Second) zeroTime 0 3 in
  let '((t', err), st', _) :=
    Publish PublishFacts.demo_marshal queue0 store0 t (demo_world (100 * Second)) in
  err = None /\ mainQueue st' = [] /\
  delayedQueue st' = [("{id:e1}", 1900 * Second)].
Proof. vm_compute. repeat split; reflexivity. Qed.

(** Scenario 5: a handler that fails twice with a transient error and
    then succeeds is called three times, the last time with
    [attempts = 3]. *)
Definition flaky_handler (t : Task) : option string :=
  if Attempts t <? 3 then Some "connection refused" else None.

Example retry_then_success :
  let t := mkTask "m1" "send_notification" (Some []) zeroTime zeroTime 0 3 in
  let r := executeTaskWithRetry queue0 flaky_handler t
             (mkWorld 0 [] [1; 0; 7; 2; 1; 9] []) in
  outcome r = ExecNil /\ map Attempts (calls r) = [1; 2; 3].
Proof. vm_compute. split; reflexivity. Qed.

(** Scenario 6: a handler that answers "not found" is called once and the
    task goes to the DLQ; the in-flight list is empty again. *)
Example permanent_failure_to_DLQ :
  let st := mkStore ["{id:x1}"] [] [] [] in
  let '((out, called), st', _) :=
    processBatch ConsumerFacts.demo_unmarshal ConsumerFacts.demo_marshalFailed
      queue0 (fun _ => Some "booking not found") st (demo_world (100 * Second)) in
  out = BatchHandled (ExecErr "booking not found") /\
  List.length called = 1%nat /\
  mainQueue st' = [] /\ processingQueue st' = [] /\
  List.length (dlq st') = 1%nat.
Proof. vm_compute. repeat split; reflexivity. Qed.

(** Scenario 1: a booking of three seats on an event of ten is created
    pending with a deadline 30 minutes ahead; confirmed in time, it leaves
    seven seats available. *)
Example happy_path :
  let db0 := mkDB [mkEvent 1 "concert" (5000 * Second) 10]
                  [mkUser 1 "ann@example.org" ""] [] 1 in
  let '(r, db1, w1) :=
    BookSeats db0 (mkBookSeatsRequest 1 1 3 0) (demo_world (100 * Second)) in
  let '(err, db2, _) := ConfirmBooking db1 1 w1 in
  option_map Booking_Status (match r with inl b => Some b | inr _ => None end)
    = Some BookingStatusPending /\
  option_map Booking_ExpiresAt (match r with inl b => Some b | inr _ => None end)
    = Some (100 * Second + 30 * Minute) /\
  err = None /\
  statusOf db2 1 = Some BookingStatusConfirmed /\
  option_map AvailableSeats
    (match Event_GetByID db2 1 with inl e => Some e | inr _ => None end) = Some 7.
Proof. vm_compute. repeat split; reflexivity. Qed.

(** Booking exactly the available seats is accepted; one more is not. *)
Example book_at_the_boundary :
  let db0 := mkDB [mkEvent 1 "concert" (5000 * Second) 10]
                  [mkUser 1 "ann@example.org" ""] [] 1 in
  let w := demo_world (100 * Second) in
  (match fst (fst (BookSeats db0 (mkBookSeatsRequest 1 1 10 0) w)) with
   | inl _ => true | inr _ => false end) = true /\
  fst (fst (BookSeats db0 (mkBookSeatsRequest 1 1 11 0) w)) = inr SvcInsufficientSeats.
Proof. vm_compute. split; reflexivity. Qed.

(** Confirming exactly at the deadline is accepted; one nanosecond later
    the booking expires. *)
Example confirm_at_the_deadline :
  fst (fst (ConfirmBooking (demo_db BookingStatusPending) 1
              (demo_world (1000 * Second)))) = None /\
  fst (fst (ConfirmBooking (demo_db BookingStatusPending) 1
              (demo_world (1000 * Second + 1)))) = Some SvcExpired.
Proof. vm_compute. split; reflexivity. Qed.

End Scenarios.

(** ** Capacity: which operations keep it *)

Module CapacityFacts.
Import Repository Service RepositoryFacts.

(** What a booking adds to the confirmed seats of an event. *)
Definition contrib (eventID : Z) (b : Booking) : Z :=
  if ((Booking_EventID b =? eventID) &&
      String.eqb (Booking_Status b) "confirmed")%bool
  then Booking_Seats b else 0.

Definition seats_of (eventID : Z) (bs : list Booking) : Z :=
  sum (map (contrib eventID) bs).

Lemma confirmedSeats_contrib db eventID :
  confirmedSeats db eventID = seats_of eventID (bookings db).
Proof.
  unfold confirmedSeats, seats_of, contrib.
  induction (bookings db) as [|b bs IH]; [reflexivity|].
  simpl. destruct ((Booking_EventID b =? eventID) &&
                   String.eqb (Booking_Status b) "confirmed")%bool; simpl; lia.
Qed.

Lemma seats_of_app eventID l1 l2 :
  seats_of eventID (l1 ++ l2) = seats_of eventID l1 + seats_of eventID l2.
Proof.
  unfold seats_of. induction l1 as [|b l1 IH]; simpl; [reflexivity|]. lia.
Qed.

(** Rewriting rows so that none adds more than before does not raise the
    confirmed seats. *)
Lemma seats_of_map_le eventID (f : Booking -> Booking) bs :
  Forall (fun b => contrib eventID (f b) <= contrib eventID b) bs ->
  seats_of eventID (map f bs) <= seats_of eventID bs.
Proof.
  unfold seats_of. induction 1 as [|b bs Hb _ IH]; simpl; lia.
Qed.

Lemma seats_of_filter_le eventID (p : Booking -> bool) bs :
  Forall (fun b => 0 <= Booking_Seats b) bs ->
  seats_of eventID (filter p bs) <= seats_of eventID bs.
Proof.
  unfold seats_of. induction 1 as [|b bs Hb _ IH]; simpl; [lia|].
  assert (0 <= contrib eventID b).
  { unfold contrib. destruct (_ && _)%bool; lia. }
  destruct (p b); simpl; lia.
Qed.

Lemma update_status_rows_ids bs i s now :
  map Booking_ID (update_status_rows bs i s now) = map Booking_ID bs.
Proof.
  unfold update_status_rows. rewrite map_map. apply map_ext.
  intros b. destruct (Booking_ID b =? i); reflexivity.
Qed.

Lemma update_status_rows_absent bs i s now :
  ~ In i (map Booking_ID bs) -> update_status_rows bs i s now = bs.
Proof.
  induction bs as [|b bs IH]; intros Hn; [reflexivity|].
  simpl in *. destruct (Booking_ID b =? i) eqn:E.
  - apply Z.eqb_eq in E. exfalso. apply Hn. left. exact E.
  - rewrite IH; [reflexivity|]. intros H. apply Hn. right. exact H.
Qed.

(** Confirming the one row of a booking that was not confirmed adds its
    seats to its event and nothing to the others. *)
Lemma seats_of_confirm eventID bs i now b :
  NoDup (map Booking_ID bs) ->
  find (byID i) bs = Some b ->
  String.eqb (Booking_Status b) "confirmed" = false ->
  seats_of eventID (update_status_rows bs i BookingStatusConfirmed now) =
  seats_of eventID bs +
  (if Booking_EventID b =? eventID then Booking_Seats b else 0).
Proof.
  induction bs as [|x bs IH]; intros Hnd Hf Hs; [discriminate|].
  simpl in Hnd. inversion Hnd as [|? ? Hnotin Hnd']. subst.
  simpl in Hf. unfold byID at 1 in Hf.
  cbn [update_status_rows map]. fold (update_status_rows bs i BookingStatusConfirmed now).
  destruct (Booking_ID x =? i) eqn:E.
  - inversion Hf. subst x. apply Z.eqb_eq in E.
    rewrite update_status_rows_absent by (rewrite <- E; exact Hnotin).
    unfold seats_of. simpl. unfold contrib at 1 3. cbn [Booking_EventID Booking_Status Booking_Seats set_status].
    rewrite Hs, andb_false_r.
    destruct (Booking_EventID b =? eventID); simpl; lia.
  - specialize (IH Hnd' Hf Hs). unfold seats_of in *. simpl. lia.
Qed.

(** The invariant behind capacity: ids are unique and issued by the
    sequence, seat counts are not negative, and no event has more
    confirmed seats than it has seats. *)
Record Inv (db : DB) : Prop := mkInv {
  inv_nodup : NoDup (map Booking_ID (bookings db));
  inv_issued : Forall (fun b => Booking_ID b < bookings_id_seq db) (bookings db);
  inv_seats : Forall (fun b => 0 <= Booking_Seats b) (bookings db);
  inv_capacity : forall eventID total,
    totalSeats db eventID = Some total -> confirmedSeats db eventID <= total
}.

(** The ways the operations change the database. *)
Inductive trans : DB -> DB -> Prop :=
| tr_refl db : trans db db
| tr_then db1 db2 db3 : trans db1 db2 -> trans db2 db3 -> trans db1 db3
| tr_status db i s now :
    String.eqb s BookingStatusConfirmed = false ->
    trans db (with_bookings db (update_status_rows (bookings db) i s now))
| tr_confirm db i now b total :
    find (byID i) (bookings db) = Some b ->
    Booking_Status b = BookingStatusPending ->
    totalSeats db (Booking_EventID b) = Some total ->
    confirmedSeats db (Booking_EventID b) + Booking_Seats b <= total ->
    trans db (with_bookings db
                (update_status_rows (bookings db) i BookingStatusConfirmed now))
| tr_seq db :
    trans db (mkDB (events db) (users db) (bookings db) (bookings_id_seq db + 1))
| tr_insert db row :
    Booking_ID row = bookings_id_seq db ->
    Booking_Status row = BookingStatusPending ->
    0 <= Booking_Seats row ->
    trans db (mkDB (events db) (users db) (bookings db ++ [row])
                   (bookings_id_seq db + 1))
| tr_rewrite db booking now :
    Booking_Status booking = BookingStatusPending ->
    0 <= Booking_Seats booking ->
    trans db (with_bookings db
                (map (fun b => if Booking_ID b =? Booking_ID booking
                               then update_row b booking now else b)
                     (bookings db)))
| tr_delete db i :
    trans db (with_bookings db
                (filter (fun b => negb (Booking_ID b =? i)) (bookings db))).

Lemma NoDup_map_filter (p : Booking -> bool) bs :
  NoDup (map Booking_ID bs) -> NoDup (map Booking_ID (filter p bs)).
Proof.
  induction bs as [|b bs IH]; intros H; [constructor|].
  simpl in H. inversion H as [|? ? Hn Hd]. subst. simpl.
  destruct (p b); [|apply IH; exact Hd].
  simpl. constructor; [|apply IH; exact Hd].
  intros Hin. apply Hn. apply in_map_iff in Hin. destruct Hin as [x [Hx Hin]].
  apply filter_In in Hin. destruct Hin as [Hin _].
  apply in_map_iff. exists x. split; assumption.
Qed.

Lemma contrib_nonneg eventID b : 0 <= Booking_Seats b -> 0 <= contrib eventID b.
Proof. intros H. unfold contrib. destruct (_ && _)%bool; lia. Qed.

Lemma contrib_not_confirmed eventID b :
  String.eqb (Booking_Status b) "confirmed" = false -> contrib eventID b = 0.
Proof. intros H. unfold contrib. rewrite H, andb_false_r. reflexivity. Qed.

Lemma NoDup_snoc (l : list Z) x : NoDup l -> ~ In x l -> NoDup (l ++ [x]).
Proof.
  induction l as [|y l IH]; intros Hd Hn; simpl.
  - constructor; [intros []|constructor].
  - inversion Hd as [|? ? Hy Hd']. subst. constructor.
    + intros Hin. apply in_app_or in Hin. destruct Hin as [Hin|[Hin|[]]].
      * exact (Hy Hin).
      * apply Hn. left. symmetry. exact Hin.
    + apply IH; [exact Hd'|]. intros Hin. apply Hn. right. exact Hin.
Qed.

Lemma Forall_filter_keep (P : Booking -> Prop) (p : Booking -> bool) bs :
  Forall P bs -> Forall P (filter p bs).
Proof.
  induction 1 as [|b bs Hb _ IH]; simpl; [constructor|].
  destruct (p b); [constructor; assumption|exact IH].
Qed.

Lemma totalSeats_bookings db bs seq eventID :
  totalSeats (mkDB (events db) (users db) bs seq) eventID = totalSeats db eventID.
Proof. reflexivity. Qed.

(** Every such change keeps the invariant. *)
Lemma trans_inv db db' : trans db db' -> Inv db -> Inv db'.
Proof.
  induction 1 as [db|db1 db2 db3 _ IH1 _ IH2|db i s now Hs|db i now b total Hf Hp Ht Hc
                 |db|db row Hid Hp Hseats|db booking now Hp Hseats|db i];
    intros [Hnd His Hse Hcap].
  - constructor; assumption.
  - apply IH2, IH1. constructor; assumption.
  - (* a status other than confirmed *)
    constructor; cbn [bookings bookings_id_seq with_bookings].
    + rewrite update_status_rows_ids. exact Hnd.
    + unfold update_status_rows. apply Forall_map.
      eapply Forall_impl; [|exact His]. intros x Hx.
      destruct (Booking_ID x =? i); exact Hx.
    + unfold update_status_rows. apply Forall_map.
      eapply Forall_impl; [|exact Hse]. intros x Hx.
      destruct (Booking_ID x =? i); exact Hx.
    + intros eventID total Ht. specialize (Hcap eventID total Ht).
      rewrite confirmedSeats_contrib in *. cbn [bookings with_bookings].
      eapply Z.le_trans; [|exact Hcap].
      apply seats_of_map_le.
      eapply Forall_impl; [|exact Hse]. intros x Hx. cbn beta.
      destruct (Booking_ID x =? i); [|lia].
      rewrite contrib_not_confirmed by exact Hs.
      apply contrib_nonneg. exact Hx.
  - (* a pending booking confirmed after the seat check *)
    constructor; cbn [bookings bookings_id_seq with_bookings].
    + rewrite update_status_rows_ids. exact Hnd.
    + unfold update_status_rows. apply Forall_map.
      eapply Forall_impl; [|exact His]. intros x Hx.
      destruct (Booking_ID x =? i); exact Hx.
    + unfold update_status_rows. apply Forall_map.
      eapply Forall_impl; [|exact Hse]. intros x Hx.
      destruct (Booking_ID x =? i); exact Hx.
    + intros eventID total' Ht'.
      rewrite confirmedSeats_contrib. cbn [bookings with_bookings].
      rewrite (seats_of_confirm eventID (bookings db) i now b Hnd Hf)
        by (rewrite Hp; reflexivity).
      rewrite <- confirmedSeats_contrib.
      destruct (Booking_EventID b =? eventID) eqn:E.
      * apply Z.eqb_eq in E. subst eventID.
        change (totalSeats db (Booking_EventID b) = Some total') in Ht'.
        rewrite Ht in Ht'. inversion Ht'. subst total'. exact Hc.
      * specialize (Hcap eventID total' Ht'). lia.
  - (* a value of the id sequence consumed *)
    constructor; cbn [bookings bookings_id_seq]; try assumption.
    eapply Forall_impl; [|exact His]. intros x Hx. cbn beta in *. lia.
  - (* a pending row appended *)
    constructor; cbn [bookings bookings_id_seq].
    + rewrite map_app. cbn [map]. apply NoDup_snoc; [exact Hnd|].
      rewrite Hid. intros Hin. apply in_map_iff in Hin.
      destruct Hin as [x [Hx Hin]].
      rewrite Forall_forall in His. specialize (His x Hin). lia.
    + apply Forall_app. split.
      * eapply Forall_impl; [|exact His]. intros x Hx. cbn beta in *. lia.
      * constructor; [lia|constructor].
    + apply Forall_app. split; [exact Hse|]. constructor; [exact Hseats|constructor].
    + intros eventID total Ht. specialize (Hcap eventID total Ht).
      rewrite confirmedSeats_contrib in *. cbn [bookings].
      rewrite seats_of_app. unfold seats_of at 2. cbn [map sum fold_right].
      rewrite contrib_not_confirmed by (rewrite Hp; reflexivity). lia.
  - (* the rows of a pending booking rewritten *)
    constructor; cbn [bookings bookings_id_seq with_bookings].
    + rewrite map_map.
      replace (map (fun x => Booking_ID
                       (if Booking_ID x =? Booking_ID booking
                        then update_row x booking now else x)) (bookings db))
        with (map Booking_ID (bookings db)); [exact Hnd|].
      apply map_ext. intros x. destruct (Booking_ID x =? Booking_ID booking); reflexivity.
    + apply Forall_map. eapply Forall_impl; [|exact His]. intros x Hx.
      destruct (Booking_ID x =? Booking_ID booking); exact Hx.
    + apply Forall_map. eapply Forall_impl; [|exact Hse]. intros x Hx.
      destruct (Booking_ID x =? Booking_ID booking); [exact Hseats|exact Hx].
    + intros eventID total Ht. specialize (Hcap eventID total Ht).
      rewrite confirmedSeats_contrib in *. cbn [bookings with_bookings].
      eapply Z.le_trans; [|exact Hcap].
      apply seats_of_map_le.
      eapply Forall_impl; [|exact Hse]. intros x Hx. cbn beta.
      destruct (Booking_ID x =? Booking_ID booking); [|lia].
      rewrite contrib_not_confirmed
        by (cbn [update_row Booking_Status]; rewrite Hp; reflexivity).
      apply contrib_nonneg. exact Hx.
  - (* rows deleted *)
    constructor; cbn [bookings bookings_id_seq with_bookings].
    + apply NoDup_map_filter. exact Hnd.
    + apply Forall_filter_keep. exact His.
    + apply Forall_filter_keep. exact Hse.
    + intros eventID total Ht. specialize (Hcap eventID total Ht).
      rewrite confirmedSeats_contrib in *. cbn [bookings with_bookings].
      eapply Z.le_trans; [|exact Hcap].
      apply seats_of_filter_le. exact Hse.
Qed.

Lemma UpdateStatus_trans db i s w :
  String.eqb s BookingStatusConfirmed = false ->
  let '(_, db', _) := UpdateStatus db i s w in trans db db'.
Proof.
  intros Hs. pose proof (UpdateStatus_cases db i s w) as H.
  destruct (UpdateStatus db i s w) as [[err db'] w'].
  destruct H as [[_ ->]|[_ [-> _]]]; [apply tr_refl|apply tr_status; exact Hs].
Qed.

Lemma UpdateStatus_confirm_trans db i w b :
  find (byID i) (bookings db) = Some b ->
  Booking_Status b = BookingStatusPending ->
  let '(_, db', _) := UpdateStatus db i BookingStatusConfirmed w in trans db db'.
Proof.
  intros Hf Hp. unfold UpdateStatus. pose proof Hf as Hf0. unfold byID in Hf.
  rewrite Hf, Hp. cbn [andb String.eqb].
  replace (String.eqb BookingStatusPending BookingStatusPending) with true by reflexivity.
  replace (String.eqb BookingStatusConfirmed BookingStatusConfirmed) with true by reflexivity.
  cbn [andb].
  destruct (totalSeats db (Booking_EventID b)) as [total|] eqn:Et; [|apply tr_refl].
  destruct (total <? confirmedSeats db (Booking_EventID b) + Booking_Seats b) eqn:Ec;
    [apply tr_refl|].
  apply Z.ltb_ge in Ec. destruct (Now w) as [now w1].
  apply (tr_confirm db i now b total Hf0 Hp Et Ec).
Qed.

Lemma Create_trans db booking w :
  Booking_Status booking = BookingStatusPending ->
  0 <= Booking_Seats booking ->
  let '(_, db', _) := Create db booking w in trans db db'.
Proof.
  intros Hp Hs. unfold Create.
  destruct (totalSeats db (Booking_EventID booking)) as [total|]; [|apply tr_refl].
  destruct (0 <? existingBookingCount db (Booking_EventID booking)
                   (Booking_UserID booking)); [apply tr_refl|].
  destruct (total <? confirmedSeats db (Booking_EventID booking)
                     + Booking_Seats booking); [apply tr_refl|].
  destruct (Now w) as [now w1].
  destruct (negb (userExists db (Booking_UserID booking))); [apply tr_seq|].
  apply tr_insert; [reflexivity|exact Hp|exact Hs].
Qed.

Lemma BookSeats_trans db req w :
  0 <= Req_Seats req ->
  let '(_, db', _) := BookSeats db req w in trans db db'.
Proof.
  intros Hs. unfold BookSeats.
  destruct (Event_GetByID db (Req_EventID req)) as [ewa|]; [|apply tr_refl].
  destruct (Now w) as [now w1].
  destruct (Before (Event_Date (Event_ ewa)) now); [apply tr_refl|].
  destruct (AvailableSeats ewa <? Req_Seats req); [apply tr_refl|].
  destruct (User_GetByID db (Req_UserID req)); [|apply tr_refl].
  match goal with
  | |- context [match ?c with Some e => (inr e, db, w1) | None => _ end] =>
      destruct c; [apply tr_refl|]
  end.
  match goal with
  | |- context [Create db ?b w1] =>
      pose proof (Create_trans db b w1 eq_refl Hs) as H;
      destruct (Create db b w1) as [[[b' [e|]] db'] w']; exact H
  end.
Qed.

Lemma expired_target : String.eqb BookingStatusExpired BookingStatusConfirmed = false.
Proof. reflexivity. Qed.

Lemma cancelled_target : String.eqb BookingStatusCancelled BookingStatusConfirmed = false.
Proof. reflexivity. Qed.

Lemma ConfirmBooking_trans db i w :
  let '(_, db', _) := ConfirmBooking db i w in trans db db'.
Proof.
  unfold ConfirmBooking, GetByID.
  destruct (find (fun b => Booking_ID b =? i) (bookings db)) as [b|] eqn:Ef;
    [|apply tr_refl].
  destruct (negb (String.eqb (Booking_Status b) BookingStatusPending)) eqn:Ep;
    [apply tr_refl|].
  apply negb_false_iff, String.eqb_eq in Ep.
  destruct (Now w) as [now w1].
  destruct (After now (Booking_ExpiresAt b)).
  - pose proof (UpdateStatus_trans db i BookingStatusExpired w1 expired_target) as H.
    destruct (UpdateStatus db i BookingStatusExpired w1) as [[[e|] db'] w']; exact H.
  - destruct (Event_GetByID db (Booking_EventID b)) as [ewa|]; [|apply tr_refl].
    destruct (AvailableSeats ewa <? Booking_Seats b); [apply tr_refl|].
    pose proof (UpdateStatus_confirm_trans db i w1 b Ef Ep) as H.
    destruct (UpdateStatus db i BookingStatusConfirmed w1) as [[[e|] db'] w']; exact H.
Qed.

Lemma CancelBooking_trans db i reason w :
  let '(_, db', _) := CancelBooking db i reason w in trans db db'.
Proof.
  unfold CancelBooking.
  destruct (GetByID db i) as [b|]; [|apply tr_refl].
  destruct (String.eqb (Booking_Status b) BookingStatusCancelled ||
            String.eqb (Booking_Status b) BookingStatusExpired)%bool;
    [apply tr_refl|].
  pose proof (UpdateStatus_trans db i BookingStatusCancelled w cancelled_target) as H.
  destruct (UpdateStatus db i BookingStatusCancelled w) as [[[e|] db'] w']; exact H.
Qed.

Lemma expire_each_trans l : forall db w, trans db (fst (expire_each db l w)).
Proof.
  induction l as [|x l IH]; intros db w; [apply tr_refl|].
  simpl.
  pose proof (UpdateStatus_trans db (Exp_BookingID x) BookingStatusExpired w
                expired_target) as H.
  destruct (UpdateStatus db (Exp_BookingID x) BookingStatusExpired w) as [[e db'] w'].
  exact (tr_then _ _ _ H (IH db' w')).
Qed.

Lemma UpdateBookingSeats_trans db i seats w :
  let '(_, db', _) := UpdateBookingSeats db i seats w in trans db db'.
Proof.
  unfold UpdateBookingSeats.
  destruct (seats <=? 0) eqn:Es; [apply tr_refl|]. apply Z.leb_gt in Es.
  destruct (GetByID db i) as [b|]; [|apply tr_refl].
  destruct (negb (String.eqb (Booking_Status b) BookingStatusPending)) eqn:Ep;
    [apply tr_refl|].
  apply negb_false_iff, String.eqb_eq in Ep.
  destruct (Event_GetByID db (Booking_EventID b)) as [ewa|]; [|apply tr_refl].
  destruct (AvailableSeats ewa + (seats - Booking_Seats b) <? 0); [apply tr_refl|].
  unfold Update. destruct (Now w) as [now w1].
  cbn [Booking_ID Booking_UserID Booking_EventID].
  destruct (negb (existsb (fun b0 => Booking_ID b0 =? Booking_ID b) (bookings db)));
    [apply tr_refl|].
  destruct (negb (userExists db (Booking_UserID b) &&
                  existsb (fun e => Event_ID e =? Booking_EventID b) (events db)));
    [apply tr_refl|].
  destruct (Now w1) as [now' w2].
  match goal with
  | |- trans db (with_bookings db (map (fun b0 => if _ then update_row b0 ?bk now else b0) _)) =>
      apply (tr_rewrite db bk now); [exact Ep|cbn; lia]
  end.
Qed.

Lemma DeleteBooking_trans db i w :
  let '(_, db', _) := DeleteBooking db i w in trans db db'.
Proof.
  unfold DeleteBooking.
  destruct (GetByID db i) as [b|]; [|apply tr_refl].
  destruct (String.eqb (Booking_Status b) BookingStatusConfirmed); [apply tr_refl|].
  unfold Delete.
  destruct (existsb (fun b0 => Booking_ID b0 =? i) (bookings db));
    [apply tr_delete|apply tr_refl].
Qed.

(** The operations that keep capacity by themselves: every one except a
    [BookSeats] with a negative seat count, which the request binding
    ([min=1]) rules out, and an [UpdateBookingStatus] to [confirmed]. *)
Definition capacity_safe (op : Op) : bool :=
  match op with
  | OpBookSeats req => 0 <=? Req_Seats req
  | OpUpdateBookingStatus _ status => negb (String.eqb status BookingStatusConfirmed)
  | _ => true
  end.

Lemma step_trans op db w :
  capacity_safe op = true -> trans db (fst (step op db w)).
Proof.
  intros Hop. destruct op as [req|i|i reason|i| |i seats|i s|i]; cbn [step capacity_safe] in *.
  - apply Z.leb_le in Hop. pose proof (BookSeats_trans db req w Hop) as H.
    destruct (BookSeats db req w) as [[r db'] w']. exact H.
  - pose proof (ConfirmBooking_trans db i w) as H.
    destruct (ConfirmBooking db i w) as [[r db'] w']. exact H.
  - pose proof (CancelBooking_trans db i reason w) as H.
    destruct (CancelBooking db i reason w) as [[r db'] w']. exact H.
  - unfold ExpireBooking.
    pose proof (UpdateStatus_trans db i BookingStatusExpired w expired_target) as H.
    destruct (UpdateStatus db i BookingStatusExpired w) as [[r db'] w']. exact H.
  - unfold CancelExpiredBookings. destruct (Now w) as [now w1].
    pose proof (expire_each_trans (GetExpiredBookings db now) db w1) as H.
    destruct (expire_each db (GetExpiredBookings db now) w1) as [db' w']. exact H.
  - pose proof (UpdateBookingSeats_trans db i seats w) as H.
    destruct (UpdateBookingSeats db i seats w) as [[r db'] w']. exact H.
  - apply negb_true_iff in Hop. unfold UpdateBookingStatus.
    destruct (String.eqb s BookingStatusPending || String.eqb s BookingStatusConfirmed ||
              String.eqb s BookingStatusCancelled || String.eqb s BookingStatusExpired)%bool;
      [|apply tr_refl].
    pose proof (UpdateStatus_trans db i s w Hop) as H.
    destruct (UpdateStatus db i s w) as [[[e|] db'] w']; exact H.
  - pose proof (DeleteBooking_trans db i w) as H.
    destruct (DeleteBooking db i w) as [[r db'] w']. exact H.
Qed.

(** Every sequence of operations without an [UpdateBookingStatus] to
    [confirmed] (and with the seat counts the request binding admits)
    keeps the invariant, and with it the capacity of every event. *)
Lemma capacity_kept_without_reconfirmation ops : forall db w,
  Inv db ->
  forallb capacity_safe ops = true ->
  Inv (fst (run ops db w)).
Proof.
  induction ops as [|op ops IH]; intros db w HI Hops; [exact HI|].
  simpl in Hops. apply andb_true_iff in Hops. destruct Hops as [Hop Hops].
  pose proof (step_trans op db w Hop) as Ht.
  simpl. destruct (step op db w) as [db' w']. cbn [fst] in Ht.
  apply IH; [|exact Hops]. exact (trans_inv db db' Ht HI).
Qed.

End CapacityFacts.

(** ** Retry policy: refusals, bounds and panics *)

Module RetryMore.
Import Retry Queue.

(** [ShouldRetry] refuses, with a zero delay and without drawing a random
    number, when the attempts are used up, when the error is nil, and
    when the message contains one of the four patterns in any case. *)
Theorem ShouldRetry_refuses :
  forall r task err rnd,
    (MaxRetries task <= Attempts task \/
     err = None \/
     exists msg pattern,
       err = Some msg /\ In pattern nonRetryableErrors /\
       Contains (ToLower msg) pattern = true) ->
    ShouldRetry r task err rnd = Some ((false, 0), rnd).
Proof.
  intros r task err rnd [H|[H|[msg [pattern [He [Hin Hc]]]]]].
  - apply RetryFacts.ShouldRetry_exhausted. exact H.
  - subst err. unfold ShouldRetry.
    destruct (MaxRetries task <=? Attempts task); reflexivity.
  - subst err. apply (RetryFacts.ShouldRetry_nonretryable r task msg rnd pattern Hin Hc).
Qed.

Lemma ShouldRetry_refuses_witness :
  ShouldRetry (NewRetryManager 3 (5 * Second))
    (mkTask "t1" "expire_booking" None zeroTime zeroTime 1 3)
    (Some "Booking NOT FOUND") [7; 1]
  = Some ((false, 0), [7; 1]).
Proof.
  apply (ShouldRetry_refuses (NewRetryManager 3 (5 * Second))
           (mkTask "t1" "expire_booking" None zeroTime zeroTime 1 3)
           (Some "Booking NOT FOUND") [7; 1]).
  right. right. exists "Booking NOT FOUND", "not found".
  split; [reflexivity|]. split; [simpl; auto|reflexivity].
Defined.

(** With a base delay between 2 ns and 2^33 ns (about 8.6 s), the cap at
    sixteen times the base and an attempt number between 1 and 30,
    [calculateBackoff] does not panic, and the delay is positive, at most
    the cap, more than half the exponential value unless capped, and
    less than one and a half times it. *)
Theorem calculateBackoff_bounded :
  forall r attempt rnd,
    1 <= attempt <= 30 ->
    2 <= baseDelay r <= 2 ^ 33 ->
    maxDelay r = 16 * baseDelay r ->
    exists delay rnd',
      calculateBackoff r attempt rnd = Some (delay, rnd') /\
      let backoff := baseDelay r * 2 ^ (attempt - 1) in
      0 < delay <= maxDelay r /\
      Z.min (2 * maxDelay r) backoff <= 2 * delay /\
      2 * delay < 3 * backoff.
Proof.
  intros r attempt rnd Ha Hb Hmax. unfold calculateBackoff.
  destruct (attempt <=? 0) eqn:E; [apply Z.leb_le in E; lia|].
  assert (Hp : 1 <= 2 ^ (attempt - 1) <= 2 ^ 29).
  { split.
    - assert (0 < 2 ^ (attempt - 1)) by (apply Z.pow_pos_nonneg; lia). lia.
    - apply Z.pow_le_mono_r; lia. }
  assert (Hs : shl64 1 (attempt - 1) = 2 ^ (attempt - 1)).
  { unfold shl64. destruct (64 <=? attempt - 1) eqn:E'.
    - apply Z.leb_le in E'. lia.
    - rewrite Z.shiftl_1_l. apply wrap64_small.
      unfold in_int64, MinInt64, MaxInt64. lia. }
  rewrite Hs. set (p := 2 ^ (attempt - 1)) in *.
  assert (Hbp : 2 <= baseDelay r * p <= 2 ^ 62) by nia.
  rewrite (wrap64_small (baseDelay r * p))
    by (unfold in_int64, MinInt64, MaxInt64; lia).
  set (b := baseDelay r * p) in *.
  assert (Hq : 1 <= Z.quot b 2 /\ 2 * Z.quot b 2 <= b).
  { rewrite Z.quot_div_nonneg by lia.
    pose proof (Z.div_mod b 2 ltac:(lia)).
    pose proof (Z.mod_pos_bound b 2 ltac:(lia)). lia. }
  unfold div64.
  rewrite (wrap64_small (Z.quot b 2))
    by (unfold in_int64, MinInt64, MaxInt64; lia).
  destruct (Rand.Int63n (Z.quot b 2) rnd) as [[jitter rnd1]|] eqn:Ej.
  2:{ unfold Rand.Int63n in Ej. destruct (Z.quot b 2 <=? 0) eqn:E0.
      - apply Z.leb_le in E0. lia.
      - destruct (Rand.next rnd). discriminate. }
  apply Int63n_range in Ej.
  unfold Rand.Intn.
  destruct (Rand.Int63n 2 rnd1) as [[coin rnd2]|] eqn:Ec.
  2:{ unfold Rand.Int63n in Ec. simpl in Ec. destruct (Rand.next rnd1). discriminate. }
  eexists. eexists. split; [reflexivity|]. cbv zeta.
  destruct (coin =? 0).
  - rewrite wrap64_small by (unfold in_int64, MinInt64, MaxInt64; lia).
    destruct (maxDelay r <? b + jitter) eqn:El.
    + apply Z.ltb_lt in El. lia.
    + apply Z.ltb_ge in El. lia.
  - rewrite wrap64_small by (unfold in_int64, MinInt64, MaxInt64; lia).
    destruct (maxDelay r <? b - jitter) eqn:El.
    + apply Z.ltb_lt in El. lia.
    + apply Z.ltb_ge in El. lia.
Qed.

Lemma calculateBackoff_bounded_witness :
  exists delay rnd',
    calculateBackoff (NewRetryManager 3 (5 * Second)) 2 [123456789; 1]
      = Some (delay, rnd') /\
    let backoff := 5 * Second * 2 ^ (2 - 1) in
    0 < delay <= 80 * Second /\
    Z.min (2 * (80 * Second)) backoff <= 2 * delay /\
    2 * delay < 3 * backoff.
Proof.
  apply (calculateBackoff_bounded (NewRetryManager 3 (5 * Second)) 2 [123456789; 1]).
  - lia.
  - vm_compute. split; discriminate.
  - reflexivity.
Defined.

End RetryMore.

(** ** The retry loop and the consumer: further properties *)

Module ExecMore.
Import Retry Queue ExecFacts.

(** The task the handler sees first: the task with one more attempt. *)
Definition firstCall (t : Task) : Task :=
  set_Attempts t (wrap64 (Attempts t + 1)).

(** A handler error that is not retryable ends the loop after one call:
    the error comes back as it is, no random number is drawn and no time
    passes. *)
Theorem executeTaskWithRetry_permanent_error :
  forall q handler t w e,
    handler (firstCall t) = Some e ->
    isRetryableError (Some e) = false ->
    executeTaskWithRetry q handler t w
    = mkExecResult (ExecErr e) (firstCall t) [firstCall t] w.
Proof.
  intros q handler t w e Hh Hr. unfold executeTaskWithRetry, retryFuel.
  cbn [execLoop]. fold (firstCall t). rewrite Hh.
  unfold ShouldRetry. rewrite Hr. cbn [negb].
  destruct (MaxRetries (firstCall t) <=? Attempts (firstCall t));
    cbn; destruct w; reflexivity.
Qed.

Lemma executeTaskWithRetry_permanent_error_witness :
  executeTaskWithRetry (NewRedisQueue DefaultRedisQueueConfig)
    (fun _ => Some "booking not found")
    (mkTask "t1" "expire_booking" None zeroTime zeroTime 0 3)
    (mkWorld 0 [] [5; 6] [])
  = mkExecResult (ExecErr "booking not found")
      (firstCall (mkTask "t1" "expire_booking" None zeroTime zeroTime 0 3))
      [firstCall (mkTask "t1" "expire_booking" None zeroTime zeroTime 0 3)]
      (mkWorld 0 [] [5; 6] []).
Proof.
  apply (executeTaskWithRetry_permanent_error
           (NewRedisQueue DefaultRedisQueueConfig)
           (fun _ => Some "booking not found")
           (mkTask "t1" "expire_booking" None zeroTime zeroTime 0 3)
           (mkWorld 0 [] [5; 6] []) "booking not found"); reflexivity.
Defined.

(** On a queue whose base delay is zero (a configuration that leaves
    [BaseDelay] unset), the first retryable failure of a task that has
    attempts left makes the worker panic in [rand.Int63n]. *)
Theorem zero_base_delay_panics :
  forall q handler t w e,
    baseDelay (retryManager q) = 0 ->
    handler (firstCall t) = Some e ->
    isRetryableError (Some e) = true ->
    Attempts (firstCall t) < MaxRetries t ->
    outcome (executeTaskWithRetry q handler t w) = ExecPanic /\
    calls (executeTaskWithRetry q handler t w) = [firstCall t].
Proof.
  intros q handler t w e Hb Hh Hr Hlt. unfold executeTaskWithRetry, retryFuel.
  cbn [execLoop]. fold (firstCall t). rewrite Hh.
  unfold ShouldRetry. rewrite Hr. cbn [negb].
  assert (Hm : MaxRetries (firstCall t) = MaxRetries t) by reflexivity.
  rewrite Hm.
  destruct (MaxRetries t <=? Attempts (firstCall t)) eqn:E;
    [apply Z.leb_le in E; lia|].
  unfold calculateBackoff. rewrite Hb.
  destruct (Attempts (firstCall t) <=? 0).
  - cbn. split; reflexivity.
  - cbn. split; reflexivity.
Qed.

Lemma zero_base_delay_panics_witness :
  let q := NewRedisQueue (mkConfig 3 0 (5 * Second) true true) in
  let t := mkTask "t1" "send_notification" None zeroTime zeroTime 0 3 in
  outcome (executeTaskWithRetry q failing_handler t (mkWorld 0 [] [] [])) = ExecPanic /\
  calls (executeTaskWithRetry q failing_handler t (mkWorld 0 [] [] [])) = [firstCall t].
Proof.
  apply (zero_base_delay_panics
           (NewRedisQueue (mkConfig 3 0 (5 * Second) true true)) failing_handler
           (mkTask "t1" "send_notification" None zeroTime zeroTime 0 3)
           (mkWorld 0 [] [] []) "connection refused").
  - reflexivity.
  - reflexivity.
  - reflexivity.
  - vm_compute. reflexivity.
Defined.

(** A call of the handler that is followed by a retry: it failed with a
    retryable error while attempts were left. *)
Definition retried (handler : Task -> option string) (c : Task) : Prop :=
  exists e, handler c = Some e /\ isRetryableError (Some e) = true /\
            Attempts c < MaxRetries c.

Lemma execLoop_history : forall fuel q handler t calls0 w,
  let r := execLoop fuel q handler t calls0 w in
  outcome r <> ExecOutOfFuel ->
  exists pre last,
    calls r = (calls0 ++ pre ++ [last])%list /\
    Forall (retried handler) pre /\
    (outcome r = ExecNil <-> handler last = None).
Proof.
  induction fuel as [|fuel IH]; intros q handler t calls0 w; cbv zeta.
  { simpl. intros H. contradiction. }
  cbn [execLoop].
  set (t1 := set_Attempts t (wrap64 (Attempts t + 1))).
  destruct (handler t1) as [e|] eqn:Hh.
  2:{ intros _. exists [], t1. cbn. split; [reflexivity|].
      split; [constructor|]. split; [intros _; exact Hh|reflexivity]. }
  assert (Hstop : forall o w', o <> ExecNil ->
    exists pre last,
      calls (mkExecResult o t1 (calls0 ++ [t1]) w') = (calls0 ++ pre ++ [last])%list /\
      Forall (retried handler) pre /\
      (outcome (mkExecResult o t1 (calls0 ++ [t1]) w') = ExecNil <-> handler last = None)).
  { intros o w' Ho. exists [], t1. cbn. split; [reflexivity|].
    split; [constructor|]. split; [intros Hx; contradiction|].
    intros Hx. rewrite Hh in Hx. discriminate. }
  destruct (ShouldRetry (retryManager q) t1 (Some e) (rand_src w))
    as [[[b delay] s]|] eqn:Esr.
  2:{ intros _. apply Hstop. discriminate. }
  destruct b.
  2:{ intros _. apply Hstop. discriminate. }
  apply RetryFacts.ShouldRetry_true in Esr. destruct Esr as [Hlt Hre].
  destruct (Rand.Int63n (div64 delay Millisecond) (rand_src (with_rand w s)))
    as [[j s']|].
  2:{ intros _. apply Hstop. discriminate. }
  destruct (ctxDone (with_rand (with_rand w s) s')) as [done w2].
  destruct done.
  { intros _. apply Hstop. discriminate. }
  intros Hout.
  destruct (IH q handler t1 (calls0 ++ [t1])%list
              (Sleep (wrap64 (delay + wrap64 (j * Millisecond))) w2) Hout)
    as [pre [last [Hc [Hpre Hlast]]]].
  exists (t1 :: pre), last. split.
  - rewrite Hc. rewrite <- app_assoc. reflexivity.
  - split; [|exact Hlast].
    constructor; [|exact Hpre].
    exists e. split; [exact Hh|]. split; [exact Hre|exact Hlt].
Qed.

(** The calls of the handler in one run of [executeTaskWithRetry]: at
    least one; every call but the last failed with a retryable error
    while the task had attempts left; and the run returns nil exactly
    when the last call succeeded. *)
Theorem executeTaskWithRetry_history :
  forall q handler t w,
    in_int64 (MaxRetries t) ->
    let r := executeTaskWithRetry q handler t w in
    exists pre last,
      calls r = (pre ++ [last])%list /\
      Forall (retried handler) pre /\
      (outcome r = ExecNil <-> handler last = None).
Proof.
  intros q handler t w HM. cbv zeta. unfold executeTaskWithRetry.
  assert (Hf : (Z.to_nat (MaxRetries t - wrap64 (Attempts t + 1)) < retryFuel t)%nat).
  { unfold retryFuel. lia. }
  pose proof (execLoop_calls (retryFuel t) q handler t [] w HM Hf) as H.
  cbv zeta in H. destruct H as [Ho _].
  destruct (execLoop_history (retryFuel t) q handler t [] w Ho)
    as [pre [last [Hc H]]].
  exists pre, last. split; [|exact H]. rewrite Hc. reflexivity.
Qed.

Lemma executeTaskWithRetry_history_witness :
  let r := executeTaskWithRetry (NewRedisQueue DefaultRedisQueueConfig)
             failing_handler
             (mkTask "t1" "send_notification" None zeroTime zeroTime 0 3)
             (mkWorld 0 [] [] []) in
  exists pre last,
    calls r = (pre ++ [last])%list /\
    Forall (retried failing_handler) pre /\
    (outcome r = ExecNil <-> failing_handler last = None).
Proof.
  apply (executeTaskWithRetry_history (NewRedisQueue DefaultRedisQueueConfig)
           failing_handler
           (mkTask "t1" "send_notification" None zeroTime zeroTime 0 3)
           (mkWorld 0 [] [] [])).
  unfold in_int64, MinInt64, MaxInt64. simpl. lia.
Defined.

End ExecMore.

Module ConsumerMore.
Import Retry Queue ExecFacts ExecMore ConsumerFacts PublishFacts.

Section Codec.

Variable marshal : Task -> string.
Variable unmarshal : string -> Task + string.
Variable marshalFailed : FailedTask -> string.

(** With nothing on the ready list, [processBatch] does nothing. *)
Lemma processBatch_idle q handler st w :
  mainQueue st = [] ->
  processBatch unmarshal marshalFailed q handler st w = ((BatchIdle, []), st, w).
Proof. intros H. unfold processBatch. rewrite H. reflexivity. Qed.

(** For an entry that decodes and a run of the retry loop that does not
    panic, [processBatch] takes the entry off the right end of the ready
    list and leaves the in-flight list as it was; when the loop ends with
    an error and a DLQ handler is installed, the DLQ receives one entry
    holding the task as the loop left it, the error text and the number
    of attempts, scored by the time of the failure; otherwise the DLQ is
    untouched. *)
Theorem processBatch_terminal_bookkeeping :
  forall q handler st w rest raw task,
    mainQueue st = (rest ++ [raw])%list ->
    unmarshal raw = inl task ->
    in_int64 (MaxRetries task) ->
    outcome (executeTaskWithRetry q handler task w) <> ExecPanic ->
    let r := executeTaskWithRetry q handler task w in
    let '((out, called), st', w') :=
      processBatch unmarshal marshalFailed q handler st w in
    out = BatchHandled (outcome r) /\
    called = calls r /\
    mainQueue st' = rest /\
    processingQueue st' = processingQueue st /\
    delayedQueue st' = delayedQueue st /\
    dlq st' =
      match outcome r with
      | ExecErr e =>
          if dlqHandler q
          then Redis.ZAdd (dlq st) (UnixNano (clock_now (world r)))
                 (marshalFailed
                    (mkFailedTask (final_task r) e (clock_now (world r))
                                  (Attempts (final_task r))))
          else dlq st
      | _ => dlq st
      end.
Proof.
  intros q handler st w rest raw task Hmain Hdec HM Hp. cbv zeta.
  assert (Hf : outcome (executeTaskWithRetry q handler task w) <> ExecOutOfFuel).
  { unfold executeTaskWithRetry.
    assert (Hfuel : (Z.to_nat (MaxRetries task - wrap64 (Attempts task + 1))
                     < retryFuel task)%nat) by (unfold retryFuel; lia).
    exact (proj1 (execLoop_calls (retryFuel task) q handler task [] w HM Hfuel)). }
  unfold processBatch. rewrite Hmain, RPopLPush_last, Hdec.
  destruct (outcome (executeTaskWithRetry q handler task w)) eqn:Eo;
    try contradiction.
  - cbn. rewrite String.eqb_refl. repeat split; reflexivity.
  - destruct (dlqHandler q); cbn; rewrite String.eqb_refl; repeat split; reflexivity.
Qed.

(** [Publish] of a task with a type that is due. *)
Lemma Publish_due_now q st t w :
  Type_ t <> "" ->
  (if IsZero (ExecuteAt t) then True else ExecuteAt t <= routeNow q t w) ->
  let v := validateTask q t w in
  Publish marshal q st t w =
    ((fst (fst v), None),
     mkStore (marshal (fst (fst v)) :: mainQueue st) (delayedQueue st)
             (processingQueue st) (dlq st),
     snd (Now (snd v))).
Proof.
  intros Hty Hdue. cbv zeta. unfold Publish, routeNow in *.
  pose proof (validateTask_ok q t w Hty) as Hv.
  destruct (validateTask q t w) as [[t' err] w0].
  destruct Hv as (He & _ & _ & _ & _ & _ & _ & Hex). subst err.
  cbn [snd fst] in *.
  destruct (Now w0) as [now w1] eqn:EN.
  assert (Hnow : now = clock_now w0) by (unfold Now in EN; inversion EN; reflexivity).
  subst now.
  assert (Hnf : (negb (IsZero (ExecuteAt t')) && After (ExecuteAt t') (clock_now w0))%bool
                = false).
  { destruct (IsZero (ExecuteAt t)).
    - apply andb_false_iff. right. unfold After. apply Z.ltb_ge. lia.
    - apply andb_false_iff. right. unfold After. apply Z.ltb_ge. rewrite Hex. exact Hdue. }
  rewrite Hnf. reflexivity.
Qed.

(** What [Publish] accepts for immediate execution comes back to the
    handler: on an empty ready list, with a decoder that reads back what
    the encoder wrote for this task, the next [processBatch] calls the
    handler first on the task as [Publish] left it, with one more
    attempt, and the ready list is empty again. *)
Theorem Publish_then_processBatch :
  forall q handler st t w,
    Type_ t <> "" ->
    mainQueue st = [] ->
    (if IsZero (ExecuteAt t) then True else ExecuteAt t <= routeNow q t w) ->
    let t' := fst (fst (fst (Publish marshal q st t w))) in
    unmarshal (marshal t') = inl t' ->
    in_int64 (MaxRetries t') ->
    let '(_, st1, w1) := Publish marshal q st t w in
    let '((_, called), st2, _) :=
      processBatch unmarshal marshalFailed q handler st1 w1 in
    hd_error called = Some (firstCall t') /\
    Type_ t' = Type_ t /\
    Attempts t' = Attempts t /\
    mainQueue st2 = [].
Proof.
  intros q handler st t w Hty Hmain Hdue.
  rewrite (Publish_due_now q st t w Hty Hdue). cbv zeta. cbn [fst].
  pose proof (validateTask_ok q t w Hty) as Hv.
  destruct (validateTask q t w) as [[t' err] w0].
  destruct Hv as (_ & Hty' & Hat & _). cbn [fst snd].
  intros Hrt HM.
  set (w1 := snd (Now w0)).
  unfold processBatch. cbn [mainQueue processingQueue]. rewrite Hmain.
  change [marshal t'] with ([] ++ [marshal t'])%list.
  rewrite RPopLPush_last, Hrt.
  assert (Hfuel : (Z.to_nat (MaxRetries t' - wrap64 (Attempts t' + 1))
                   < retryFuel t')%nat) by (unfold retryFuel; lia).
  pose proof (execLoop_calls (retryFuel t') q handler t' [] w1 HM Hfuel) as Hc.
  cbv zeta in Hc. destruct Hc as [Ho [n [Hn1 [_ Hcalls]]]].
  fold (executeTaskWithRetry q handler t' w1) in Ho, Hcalls.
  assert (Hhd : hd_error (calls (executeTaskWithRetry q handler t' w1))
                = Some (firstCall t')).
  { rewrite Hcalls. destruct n as [|n]; [lia|]. reflexivity. }
  destruct (outcome (executeTaskWithRetry q handler t' w1)) eqn:Eo;
    try contradiction.
  - cbn. repeat split; assumption.
  - destruct (dlqHandler q); cbn; repeat split; assumption.
  - cbn. repeat split; assumption.
Qed.

End Codec.

Lemma processBatch_terminal_bookkeeping_witness :
  let q := NewRedisQueue DefaultRedisQueueConfig in
  let st := mkStore ["{id:x1}"] [] [] [] in
  let w := mkWorld (100 * Second) [] [] [] in
  let task := mkTask "{id:x1}" "send_notification" (Some []) zeroTime zeroTime 0 3 in
  let handler := fun _ : Task => Some "booking not found" in
  let r := executeTaskWithRetry q handler task w in
  let '((out, called), st', w') :=
    processBatch demo_unmarshal demo_marshalFailed q handler st w in
  out = BatchHandled (outcome r) /\
  called = calls r /\
  mainQueue st' = [] /\
  processingQueue st' = processingQueue st /\
  delayedQueue st' = delayedQueue st /\
  dlq st' =
    match outcome r with
    | ExecErr e =>
        if dlqHandler q
        then Redis.ZAdd (dlq st) (UnixNano (clock_now (world r)))
               (demo_marshalFailed
                  (mkFailedTask (final_task r) e (clock_now (world r))
                                (Attempts (final_task r))))
        else dlq st
    | _ => dlq st
    end.
Proof.
  apply (processBatch_terminal_bookkeeping demo_unmarshal demo_marshalFailed
           (NewRedisQueue DefaultRedisQueueConfig)
           (fun _ : Task => Some "booking not found")
           (mkStore ["{id:x1}"] [] [] []) (mkWorld (100 * Second) [] [] [])
           [] "{id:x1}"
           (mkTask "{id:x1}" "send_notification" (Some []) zeroTime zeroTime 0 3)).
  - reflexivity.
  - reflexivity.
  - unfold in_int64, MinInt64, MaxInt64. simpl. lia.
  - vm_compute. discriminate.
Defined.

(** A codec for the examples that reads back the one task it is made
    for. *)
Definition echo_task : Task :=
  mkTask "n1" "send_notification" (Some []) (100 * Second) (100 * Second) 0 3.

Definition echo_unmarshal (s : string) : Task + string :=
  if String.eqb s (demo_marshal echo_task) then inl echo_task
  else inr "unexpected end of JSON input".

Lemma Publish_then_processBatch_witness :
  let q := NewRedisQueue DefaultRedisQueueConfig in
  let t := mkTask "n1" "send_notification" None zeroTime zeroTime 0 0 in
  let st := mkStore [] [] [] [] in
  let w := mkWorld (100 * Second) [] [] [] in
  let t' := fst (fst (fst (Publish demo_marshal q st t w))) in
  let '(_, st1, w1) := Publish demo_marshal q st t w in
  let '((_, called), st2, _) :=
    processBatch echo_unmarshal demo_marshalFailed q (fun _ => None) st1 w1 in
  hd_error called = Some (firstCall t') /\
  Type_ t' = "send_notification" /\
  Attempts t' = 0 /\
  mainQueue st2 = [].
Proof.
  apply (Publish_then_processBatch demo_marshal echo_unmarshal demo_marshalFailed
           (NewRedisQueue DefaultRedisQueueConfig) (fun _ => None)
           (mkStore [] [] [] [])
           (mkTask "n1" "send_notification" None zeroTime zeroTime 0 0)
           (mkWorld (100 * Second) [] [] [])).
  - discriminate.
  - reflexivity.
  - exact I.
  - reflexivity.
  - vm_compute. split; discriminate.
Defined.

End ConsumerMore.

(** ** Batches, the delayed promoter and the DLQ handler *)

Module QueueOpsFacts.
Import Queue QueueOps.

Lemma zinsert_perm x l : Permutation (zinsert x l) (x :: l).
Proof.
  induction l as [|y l IH]; simpl; [apply Permutation_refl|].
  destruct (score_le x y); [apply Permutation_refl|].
  eapply Permutation_trans; [apply perm_skip; exact IH|apply perm_swap].
Qed.

Lemma zsort_perm z : Permutation (zsort z) z.
Proof.
  induction z as [|x z IH]; simpl; [apply Permutation_refl|].
  eapply Permutation_trans; [apply zinsert_perm|apply perm_skip; exact IH].
Qed.










Section Codec.

Variable marshal : Task -> string.
Variable unmarshalFailed : string -> FailedTask + string.

(** What [Publish] does to the accumulated state of a batch. *)
Definition publishStep (q : RedisQueue) (acc : list Task * Store * World)
    (task : Task) : list Task * Store * World :=
  let '(seen, st, w) := acc in
  let '((task', _), st', w') := Publish marshal q st task w in
  ((seen ++ [task'])%list, st', w').

Lemma publishBatchStep_Publish q acc task :
  publishBatchStep marshal q acc task = publishStep q acc task.
Proof.
  destruct acc as [[seen st] w]. unfold publishBatchStep, publishStep, Publish.
  destruct (validateTask q task w) as [[t' err] w0].
  destruct err as [e|]; [reflexivity|].
  destruct (Now w0) as [now w1].
  destruct (negb (IsZero (ExecuteAt t')) && After (ExecuteAt t') now)%bool; reflexivity.
Qed.

(** [PublishBatch] never fails, and it leaves the tasks, the store and
    the world exactly as publishing the tasks one by one with [Publish]
    does, the errors of [Publish] ignored: an invalid task is skipped and
    its siblings still go through. *)
Theorem PublishBatch_as_Publish :
  forall q st tasks w,
    PublishBatch marshal q st tasks w =
    let '(seen, st', w') := fold_left (publishStep q) tasks ([], st, w) in
    ((seen, None), st', w').
Proof.
  intros q st tasks w. unfold PublishBatch.
  assert (H : forall acc,
    fold_left (publishBatchStep marshal q) tasks acc
    = fold_left (publishStep q) tasks acc).
  { induction tasks as [|t tasks IH]; intros acc; [reflexivity|].
    simpl. rewrite publishBatchStep_Publish. apply IH. }
  destruct tasks as [|t tasks]; [reflexivity|].
  rewrite H. reflexivity.
Qed.

Lemma findFailedTask_some tasks taskID entry ft :
  findFailedTask unmarshalFailed tasks taskID = Some (entry, ft) ->
  In entry tasks /\ unmarshalFailed entry = inl ft /\ ID (ft_Task ft) = taskID.
Proof.
  induction tasks as [|x tasks IH]; simpl; [discriminate|].
  destruct (unmarshalFailed x) as [f|e] eqn:Ex.
  - destruct (String.eqb (ID (ft_Task f)) taskID) eqn:Eid.
    + intros H. inversion H. subst. apply String.eqb_eq in Eid.
      split; [left; reflexivity|]. split; [exact Ex|exact Eid].
    + intros H. destruct (IH H) as [H1 H2]. split; [right; exact H1|exact H2].
  - intros H. destruct (IH H) as [H1 H2]. split; [right; exact H1|exact H2].
Qed.

Lemma findFailedTask_none tasks taskID :
  findFailedTask unmarshalFailed tasks taskID = None ->
  forall entry ft, In entry tasks -> unmarshalFailed entry = inl ft ->
                   ID (ft_Task ft) <> taskID.
Proof.
  induction tasks as [|x tasks IH]; simpl; intros H entry ft Hin Hdec; [contradiction|].
  destruct (unmarshalFailed x) as [f|e] eqn:Ex.
  - destruct (String.eqb (ID (ft_Task f)) taskID) eqn:Eid; [discriminate|].
    destruct Hin as [->|Hin].
    + rewrite Hdec in Ex. inversion Ex. subst. apply String.eqb_neq. exact Eid.
    + exact (IH H entry ft Hin Hdec).
  - destruct Hin as [->|Hin].
    + rewrite Hdec in Ex. discriminate.
    + exact (IH H entry ft Hin Hdec).
Qed.


Lemma In_ZRangeAll z m : In m (ZRangeAll z) <-> In m (map fst z).
Proof.
  unfold ZRangeAll. pose proof (zsort_perm z) as Hp.
  split; intros H.
  - apply (Permutation_in _ (Permutation_map fst Hp)). exact H.
  - apply (Permutation_in _ (Permutation_map fst (Permutation_sym Hp))). exact H.
Qed.


(** [DeleteFailedTask] on an id the DLQ holds removes the entry it found,
    which decodes to a task of that id, and nothing else; on an id the
    DLQ does not hold it fails and leaves the store alone. *)
Theorem DeleteFailedTask_removes :
  forall st taskID,
    let '(err, st') := DeleteFailedTask unmarshalFailed st taskID in
    match findFailedTask unmarshalFailed (ZRangeAll (dlq st)) taskID with
    | Some (entry, ft) =>
        err = None /\
        unmarshalFailed entry = inl ft /\ ID (ft_Task ft) = taskID /\
        In entry (map fst (dlq st)) /\
        ~ In entry (map fst (dlq st')) /\
        (forall e, fst e <> entry -> (In e (dlq st') <-> In e (dlq st))) /\
        mainQueue st' = mainQueue st /\ delayedQueue st' = delayedQueue st /\
        processingQueue st' = processingQueue st
    | None =>
        err = Some ("task " ++ taskID ++ " not found in DLQ") /\ st' = st /\
        forall entry ft, In entry (map fst (dlq st)) ->
          unmarshalFailed entry = inl ft -> ID (ft_Task ft) <> taskID
    end.
Proof.
  intros st taskID. unfold DeleteFailedTask.
  destruct (findFailedTask unmarshalFailed (ZRangeAll (dlq st)) taskID)
    as [[entry ft]|] eqn:Hf.
  - apply findFailedTask_some in Hf. destruct Hf as [Hin [Hdec Hid]].
    cbn [dlq mainQueue delayedQueue processingQueue].
    split; [reflexivity|]. split; [exact Hdec|]. split; [exact Hid|].
    split; [apply In_ZRangeAll; exact Hin|].
    split.
    { intros H. apply in_map_iff in H. destruct H as [e [He Hine]].
      unfold ZRem in Hine. apply filter_In in Hine. destruct Hine as [_ Hne].
      rewrite He, String.eqb_refl in Hne. discriminate. }
    split; [|repeat split; reflexivity].
    intros e Hne. unfold ZRem. rewrite filter_In. split.
    + intros [H _]. exact H.
    + intros H. split; [exact H|]. apply negb_true_iff, String.eqb_neq. exact Hne.
  - split; [reflexivity|]. split; [reflexivity|].
    intros entry ft Hin Hdec. apply In_ZRangeAll in Hin.
    exact (findFailedTask_none _ _ Hf entry ft Hin Hdec).
Qed.

Lemma flat_map_length_le (f : string -> list FailedTask) l :
  (forall x, (List.length (f x) <= 1)%nat) ->
  (List.length (flat_map f l) <= List.length l)%nat.
Proof.
  intros Hf. induction l as [|x l IH]; simpl; [lia|].
  rewrite length_app. specialize (Hf x). lia.
Qed.

(** [GetFailedTasks] never returns more entries than the limit, 50 when
    the limit given is zero or negative, and every entry it returns is
    the decoding of a member of the DLQ. *)
Theorem GetFailedTasks_limit :
  forall st limit,
    Z.of_nat (List.length (GetFailedTasks unmarshalFailed st limit))
    <= (if limit <=? 0 then 50 else limit) /\
    forall ft, In ft (GetFailedTasks unmarshalFailed st limit) ->
      exists entry, In entry (map fst (dlq st)) /\ unmarshalFailed entry = inl ft.
Proof.
  intros st limit. unfold GetFailedTasks.
  set (lim := if limit <=? 0 then 50 else limit).
  assert (Hlim : 0 < lim).
  { subst lim. destruct (limit <=? 0) eqn:E; [lia|apply Z.leb_gt in E; lia]. }
  set (all := ZRevRangeAll (dlq st)).
  set (cut := if lim <? Z.of_nat (List.length all)
              then firstn (Z.to_nat lim) all else all).
  assert (Hcut : Z.of_nat (List.length cut) <= lim).
  { subst cut. destruct (lim <? Z.of_nat (List.length all)) eqn:E.
    - rewrite length_firstn. lia.
    - apply Z.ltb_ge in E. exact E. }
  assert (Hsub : forall x, In x cut -> In x (map fst (dlq st))).
  { intros x Hx. apply In_ZRangeAll. apply in_rev. fold (ZRevRangeAll (dlq st)).
    fold all. subst cut. destruct (lim <? Z.of_nat (List.length all)).
    - rewrite <- (firstn_skipn (Z.to_nat lim) all). apply in_or_app. left. exact Hx.
    - exact Hx. }
  split.
  - eapply Z.le_trans; [|exact Hcut]. apply Nat2Z.inj_le.
    apply flat_map_length_le. intros x. destruct (unmarshalFailed x); simpl; lia.
  - intros ft Hin. apply in_flat_map in Hin. destruct Hin as [x [Hx Hft]].
    exists x. split; [apply Hsub; exact Hx|].
    destruct (unmarshalFailed x) as [f|e]; simpl in Hft; [|contradiction].
    destruct Hft as [->|[]]. reflexivity.
Qed.

End Codec.





End QueueOpsFacts.

(* ===================================================================== *)
(** ** Booking service: what a call leaves behind *)
(* ===================================================================== *)

Module BookingMore.
Import Repository Service RepositoryFacts CapacityFacts.

Lemma User_GetByID_exists db id u :
  User_GetByID db id = inl u -> userExists db id = true.
Proof.
  unfold User_GetByID, userExists.
  destruct (find (fun u => User_ID u =? id) (users db)) as [u'|] eqn:Ef; [|discriminate].
  intros _. apply find_some in Ef. apply existsb_exists. exists u'. exact Ef.
Qed.

Lemma Event_GetByID_total db id ev :
  Event_GetByID db id = inl ev ->
  totalSeats db id = Some (Event_TotalSeats (Event_ ev)) /\
  AvailableSeats ev = Event_TotalSeats (Event_ ev) - confirmedSeats db id /\
  BookedSeats ev = confirmedSeats db id.
Proof.
  unfold Event_GetByID, totalSeats.
  destruct (find (fun e => Event_ID e =? id) (events db)) as [e|]; [|discriminate].
  intros H. inversion H. cbn. auto.
Qed.

Lemma GetByEventAndUser_none db e u :
  GetByEventAndUser db e u = None -> existingBookingCount db e u = 0.
Proof.
  unfold GetByEventAndUser, existingBookingCount. intros H.
  set (p := fun b : Booking => _) in *.
  assert (Hall : forall b, In b (bookings db) -> p b = false).
  { intros b Hb. apply (find_none _ _ H). apply in_rev in Hb. exact Hb. }
  clear H. induction (bookings db) as [|b bs IH]; [reflexivity|].
  simpl. rewrite (Hall b (or_introl eq_refl)). apply IH.
  intros b' Hb'. apply Hall. right. exact Hb'.
Qed.

(** A hall of three seats: two are confirmed for the first user, the
    second user holds a pending booking of one seat, the third user has
    none. *)
Definition hall : DB :=
  mkDB [mkEvent 7 "recital" (9000 * Second) 3]
       [mkUser 1 "ann@example.org" ""; mkUser 2 "bob@example.org" "";
        mkUser 3 "eve@example.org" ""]
       [mkBooking 1 7 1 2 BookingStatusConfirmed (1000 * Second) 30
                  (100 * Second) (150 * Second);
        mkBooking 2 7 2 1 BookingStatusPending (1500 * Second) 30
                  (120 * Second) (120 * Second)]
       3.

Definition at_time (now : Time) : World := mkWorld now [] [] [].


(** A refused [BookSeats] leaves the whole database as it was, the id
    sequence included. *)
Theorem BookSeats_refused_unchanged db req w e db' w' :
  BookSeats db req w = (inr e, db', w') -> db' = db.
Proof.
  unfold BookSeats.
  destruct (Event_GetByID db (Req_EventID req)) as [ev|e0]; [|intros H; inversion H; reflexivity].
  cbn [Now].
  destruct (Before _ _); [intros H; inversion H; reflexivity|].
  destruct (AvailableSeats ev <? Req_Seats req); [intros H; inversion H; reflexivity|].
  destruct (User_GetByID db (Req_UserID req)) as [u|e0] eqn:Eu;
    [|intros H; inversion H; reflexivity].
  apply User_GetByID_exists in Eu.
  match goal with
  | |- context [match ?c with Some e1 => (inr e1, db, _) | None => _ end] =>
      destruct c; [intros H; inversion H; reflexivity|]
  end.
  unfold Create. cbn [Booking_EventID Booking_UserID Booking_Seats
                      Booking_ReservationTimeout Booking_Status Now].
  destruct (totalSeats db (Req_EventID req)); [|intros H; inversion H; reflexivity].
  destruct (0 <? existingBookingCount db (Req_EventID req) (Req_UserID req));
    [intros H; inversion H; reflexivity|].
  destruct (_ <? _); [intros H; inversion H; reflexivity|].
  rewrite Eu. cbn. discriminate.
Qed.

Lemma BookSeats_refused_unchanged_witness :
  BookSeats hall (mkBookSeatsRequest 7 3 5 0) (at_time (200 * Second)) =
    (inr SvcInsufficientSeats, hall, snd (Now (at_time (200 * Second)))) /\
  hall = hall.
Proof.
  split; [reflexivity|].
  apply (BookSeats_refused_unchanged hall (mkBookSeatsRequest 7 3 5 0)
           (at_time (200 * Second)) SvcInsufficientSeats hall
           (snd (Now (at_time (200 * Second))))).
  reflexivity.
Defined.



Lemma find_byID_in id bs b : find (byID id) bs = Some b -> In b bs.
Proof. intros H. apply find_some in H. exact (proj1 H). Qed.

(** With unique ids, the row [find] returns for the id of a row is that
    row. *)
Lemma find_byID_unique bs b :
  NoDup (map Booking_ID bs) -> In b bs -> find (byID (Booking_ID b)) bs = Some b.
Proof.
  induction bs as [|x bs IH]; intros Hnd Hin; [contradiction|].
  inversion Hnd as [|? ? Hnotin Hnd']. subst.
  simpl. unfold byID at 1. destruct Hin as [->|Hin].
  - rewrite Z.eqb_refl. reflexivity.
  - destruct (Booking_ID x =? Booking_ID b) eqn:E.
    + apply Z.eqb_eq in E. exfalso. apply Hnotin. rewrite E.
      apply in_map. exact Hin.
    + apply IH; assumption.
Qed.

(** Changing the status of the one row of a booking moves its seats out
    of, or into, the confirmed seats of its event. *)
Lemma seats_of_update eventID bs i s now b :
  NoDup (map Booking_ID bs) ->
  find (byID i) bs = Some b ->
  seats_of eventID (update_status_rows bs i s now) =
  seats_of eventID bs - contrib eventID b + contrib eventID (set_status b s now).
Proof.
  induction bs as [|x bs IH]; intros Hnd Hf; [discriminate|].
  simpl in Hnd. inversion Hnd as [|? ? Hnotin Hnd']. subst.
  simpl in Hf. unfold byID at 1 in Hf.
  cbn [update_status_rows map]. fold (update_status_rows bs i s now).
  destruct (Booking_ID x =? i) eqn:E.
  - inversion Hf. subst x. apply Z.eqb_eq in E.
    rewrite update_status_rows_absent by (rewrite <- E; exact Hnotin).
    unfold seats_of. simpl. lia.
  - specialize (IH Hnd' Hf). unfold seats_of in *. simpl. lia.
Qed.

Lemma seats_of_delete eventID bs i b :
  NoDup (map Booking_ID bs) ->
  find (byID i) bs = Some b ->
  seats_of eventID (filter (fun b => negb (Booking_ID b =? i)) bs) =
  seats_of eventID bs - contrib eventID b.
Proof.
  induction bs as [|x bs IH]; intros Hnd Hf; [discriminate|].
  simpl in Hnd. inversion Hnd as [|? ? Hnotin Hnd']. subst.
  simpl in Hf. unfold byID at 1 in Hf. simpl.
  destruct (Booking_ID x =? i) eqn:E; simpl.
  - inversion Hf. subst x. apply Z.eqb_eq in E.
    assert (Hsame : filter (fun b0 => negb (Booking_ID b0 =? i)) bs = bs).
    { clear IH Hf Hnd Hnd'. induction bs as [|y bs IH]; [reflexivity|].
      simpl. destruct (Booking_ID y =? i) eqn:Ey.
      - apply Z.eqb_eq in Ey. exfalso. apply Hnotin. left. congruence.
      - simpl. f_equal. apply IH. intros H. apply Hnotin. right. exact H. }
    rewrite Hsame. unfold seats_of. simpl. lia.
  - specialize (IH Hnd' Hf). unfold seats_of in *. simpl. lia.
Qed.

Definition isClosed (b : Booking) : bool :=
  (String.eqb (Booking_Status b) BookingStatusCancelled ||
   String.eqb (Booking_Status b) BookingStatusExpired)%bool.

(** [CancelBooking] on an existing booking.  A cancelled or expired one
    is refused and nothing changes.  A pending or confirmed one becomes
    cancelled: a confirmed one gives its seats back to its event (the
    confirmed seats of every event drop by what the booking added to
    them), and the other bookings are as they were. *)
Theorem CancelBooking_outcomes db i reason w b :
  NoDup (map Booking_ID (bookings db)) ->
  find (byID i) (bookings db) = Some b ->
  let '(err, db', _) := CancelBooking db i reason w in
  if isClosed b
  then err = Some SvcAlreadyCancelled /\ db' = db
  else
    err = None /\
    statusOf db' i = Some BookingStatusCancelled /\
    (forall eventID,
        confirmedSeats db' eventID = confirmedSeats db eventID - contrib eventID b) /\
    (forall id', id' <> i ->
        find (byID id') (bookings db') = find (byID id') (bookings db)).
Proof.
  intros Hnd Hf. unfold CancelBooking, GetByID.
  change (fun b0 : Booking => Booking_ID b0 =? i) with (byID i). rewrite Hf.
  unfold isClosed. destruct (_ || _)%bool; [split; reflexivity|].
  rewrite (UpdateStatus_unchecked db i BookingStatusCancelled w b Hf)
    by apply andb_false_r.
  split; [reflexivity|]. split.
  { rewrite statusOf_update_status_rows, Z.eqb_refl. unfold statusOf.
    change (fun b0 : Booking => Booking_ID b0 =? i) with (byID i). rewrite Hf.
    reflexivity. }
  split.
  { intros eventID. rewrite !confirmedSeats_contrib. cbn [bookings with_bookings].
    rewrite (seats_of_update eventID _ i _ _ b Hnd Hf).
    assert (Hz : contrib eventID (set_status b BookingStatusCancelled (clock_now w)) = 0).
    { unfold contrib. cbn. destruct (Booking_EventID b =? eventID); reflexivity. }
    rewrite Hz. lia. }
  intros id' Hne. cbn [bookings with_bookings]. rewrite find_update_status_rows.
  destruct (find (byID id') (bookings db)) as [b'|] eqn:Ef'; [|reflexivity].
  cbn. apply find_byID_id in Ef'. rewrite Ef'.
  apply Z.eqb_neq in Hne. rewrite Hne. reflexivity.
Qed.

Lemma CancelBooking_outcomes_witness :
  let '(err, db', _) := CancelBooking hall 1 "ill" (at_time (200 * Second)) in
  err = None /\
  statusOf db' 1 = Some BookingStatusCancelled /\
  confirmedSeats hall 7 = 2 /\
  confirmedSeats db' 7 = 0.
Proof.
  pose proof (CancelBooking_outcomes hall 1 "ill" (at_time (200 * Second))
                (mkBooking 1 7 1 2 BookingStatusConfirmed (1000 * Second) 30
                           (100 * Second) (150 * Second))) as H.
  assert (Hnd : NoDup (map Booking_ID (bookings hall))).
  { cbn. repeat constructor; cbn; intuition discriminate. }
  specialize (H Hnd eq_refl).
  destruct (CancelBooking hall 1 "ill" (at_time (200 * Second))) as [[err db'] w'].
  cbn [isClosed] in H. destruct H as [He [Hs [Hc _]]].
  split; [exact He|]. split; [exact Hs|]. split; [reflexivity|].
  rewrite (Hc 7). reflexivity.
Defined.

(** [DeleteBooking] on an existing booking.  A confirmed one is refused
    and nothing changes.  Any other one is removed: it can no longer be
    found, the confirmed seats of every event and the other bookings are
    as they were. *)
Theorem DeleteBooking_outcomes db i w b :
  NoDup (map Booking_ID (bookings db)) ->
  find (byID i) (bookings db) = Some b ->
  let '(err, db', _) := DeleteBooking db i w in
  if String.eqb (Booking_Status b) BookingStatusConfirmed
  then err = Some SvcDeleteConfirmed /\ db' = db
  else
    err = None /\
    GetByID db' i = inr ErrBookingNotFound /\
    (forall eventID, confirmedSeats db' eventID = confirmedSeats db eventID) /\
    (forall id', id' <> i ->
        find (byID id') (bookings db') = find (byID id') (bookings db)).
Proof.
  intros Hnd Hf. unfold DeleteBooking, GetByID.
  change (fun b0 : Booking => Booking_ID b0 =? i) with (byID i). rewrite Hf.
  destruct (String.eqb (Booking_Status b) BookingStatusConfirmed) eqn:Es;
    [split; reflexivity|].
  unfold Delete.
  assert (Hex : existsb (fun b0 => Booking_ID b0 =? i) (bookings db) = true).
  { apply existsb_exists. exists b. apply find_some in Hf. exact Hf. }
  rewrite Hex. cbn [bookings with_bookings].
  split; [reflexivity|]. split.
  { change (fun b0 : Booking => Booking_ID b0 =? i) with (byID i).
    rewrite SequenceFacts.find_filter_drop; [reflexivity|].
    intros x Hx. unfold byID in Hx. rewrite Hx. reflexivity. }
  split.
  { intros eventID. rewrite !confirmedSeats_contrib. cbn [bookings with_bookings].
    rewrite (seats_of_delete eventID _ i b Hnd Hf).
    unfold contrib. unfold BookingStatusConfirmed in Es. rewrite Es, andb_false_r. lia. }
  intros id' Hne. apply SequenceFacts.find_filter_keep.
  intros x Hx. unfold byID in Hx. apply Z.eqb_eq in Hx. subst id'.
  apply negb_true_iff. apply Z.eqb_neq. exact Hne.
Qed.

Lemma DeleteBooking_outcomes_witness :
  let '(err, db', _) := DeleteBooking hall 2 (at_time (200 * Second)) in
  err = None /\ GetByID db' 2 = inr ErrBookingNotFound /\
  confirmedSeats db' 7 = confirmedSeats hall 7.
Proof.
  pose proof (DeleteBooking_outcomes hall 2 (at_time (200 * Second))
                (mkBooking 2 7 2 1 BookingStatusPending (1500 * Second) 30
                           (120 * Second) (120 * Second))) as H.
  assert (Hnd : NoDup (map Booking_ID (bookings hall))).
  { cbn. repeat constructor; cbn; intuition discriminate. }
  specialize (H Hnd eq_refl).
  destruct (DeleteBooking hall 2 (at_time (200 * Second))) as [[err db'] w'].
  cbn [String.eqb] in H. destruct H as [He [Hg [Hc _]]].
  split; [exact He|]. split; [exact Hg|]. exact (Hc 7).
Defined.

(* --------------------------------------------------------------------- *)
(** *** Overdue reservations *)

(** The WHERE clause of [GetExpiredBookings]: pending, due before the
    given instant, and with a user and an event to join. *)
Definition due (db : DB) (before : Time) (b : Booking) : bool :=
  (String.eqb (Booking_Status b) "pending" &&
   (Booking_ExpiresAt b <? before) &&
   userExists db (Booking_UserID b) &&
   existsb (fun e => Event_ID e =? Booking_EventID b) (events db))%bool.

Definition expirationOf (b : Booking) : BookingExpiration :=
  mkBookingExpiration (Booking_ID b) (Booking_ExpiresAt b)
                      (Booking_UserID b) (Booking_EventID b).

Fixpoint byDeadline (l : list BookingExpiration) : Prop :=
  match l with
  | [] => True
  | x :: l' =>
      Forall (fun y => Exp_ExpiresAt x <= Exp_ExpiresAt y) l' /\ byDeadline l'
  end.

Lemma insert_by_expiry_perm x l : Permutation (insert_by_expiry x l) (x :: l).
Proof.
  induction l as [|y l IH]; simpl; [apply Permutation_refl|].
  destruct (Exp_ExpiresAt x <=? Exp_ExpiresAt y); [apply Permutation_refl|].
  apply perm_trans with (y :: x :: l); [|apply perm_swap].
  apply perm_skip. exact IH.
Qed.

Lemma insert_by_expiry_sorted x l : byDeadline l -> byDeadline (insert_by_expiry x l).
Proof.
  induction l as [|y l IH]; intros Hl; simpl; [auto|].
  destruct Hl as [Hy Hl].
  destruct (Exp_ExpiresAt x <=? Exp_ExpiresAt y) eqn:E.
  - apply Z.leb_le in E. simpl. split; [|split; assumption].
    constructor; [exact E|].
    eapply Forall_impl; [|exact Hy]. cbn. intros a Ha. lia.
  - apply Z.leb_gt in E. simpl. split; [|apply IH; exact Hl].
    eapply Permutation_Forall; [apply Permutation_sym, insert_by_expiry_perm|].
    constructor; [lia|exact Hy].
Qed.

Lemma GetExpiredBookings_perm db before :
  Permutation (GetExpiredBookings db before)
              (map expirationOf (filter (due db before) (bookings db))).
Proof.
  unfold GetExpiredBookings. fold expirationOf.
  change (fun b : Booking => _) with (due db before).
  induction (map expirationOf (filter (due db before) (bookings db))) as [|x l IH];
    simpl; [constructor|].
  eapply perm_trans; [apply insert_by_expiry_perm|]. apply perm_skip. exact IH.
Qed.

(** [GetExpiredBookings] lists, earliest deadline first, exactly the
    pending bookings whose deadline is before the given instant and whose
    user and event exist; a confirmed, cancelled or expired booking is
    never listed. *)
Theorem GetExpiredBookings_spec db before :
  byDeadline (GetExpiredBookings db before) /\
  List.length (GetExpiredBookings db before) =
    List.length (filter (due db before) (bookings db)) /\
  forall x,
    In x (GetExpiredBookings db before) <->
    exists b,
      In b (bookings db) /\
      Booking_Status b = BookingStatusPending /\
      Booking_ExpiresAt b < before /\
      userExists db (Booking_UserID b) = true /\
      existsb (fun e => Event_ID e =? Booking_EventID b) (events db) = true /\
      x = mkBookingExpiration (Booking_ID b) (Booking_ExpiresAt b)
                              (Booking_UserID b) (Booking_EventID b).
Proof.
  split; [|split].
  - unfold GetExpiredBookings.
    induction (map _ (filter _ (bookings db))) as [|x l IH]; simpl; [exact I|].
    apply insert_by_expiry_sorted. exact IH.
  - rewrite (Permutation_length (GetExpiredBookings_perm db before)).
    apply length_map.
  - intros x. split.
    + intros Hx.
      apply (Permutation_in _ (GetExpiredBookings_perm db before)) in Hx.
      apply in_map_iff in Hx. destruct Hx as [b [<- Hb]].
      apply filter_In in Hb. destruct Hb as [Hb Hd].
      unfold due in Hd. rewrite !andb_true_iff in Hd.
      destruct Hd as [[[Hs Ht] Hu] He].
      exists b. apply String.eqb_eq in Hs. apply Z.ltb_lt in Ht.
      repeat split; assumption.
    + intros [b [Hb [Hs [Ht [Hu [He ->]]]]]].
      apply (Permutation_in _ (Permutation_sym (GetExpiredBookings_perm db before))).
      apply in_map_iff. exists b. split; [reflexivity|].
      apply filter_In. split; [exact Hb|].
      unfold due. rewrite Hs, Hu, He. apply Z.ltb_lt in Ht. rewrite Ht. reflexivity.
Qed.

(** The status of every booking after the loop of [CancelExpiredBookings]:
    the listed ids are expired, the others are as they were. *)
Lemma expire_each_status l : forall db w id,
  statusOf (fst (expire_each db l w)) id =
  if existsb (fun x => Exp_BookingID x =? id) l
  then option_map (fun _ => BookingStatusExpired) (statusOf db id)
  else statusOf db id.
Proof.
  induction l as [|x l IH]; intros db w id; [reflexivity|].
  cbn [expire_each existsb].
  destruct (find (byID (Exp_BookingID x)) (bookings db)) as [b|] eqn:Ef.
  - rewrite (UpdateStatus_unchecked db _ BookingStatusExpired w b Ef)
      by apply andb_false_r.
    rewrite IH. rewrite statusOf_update_status_rows.
    rewrite (Z.eqb_sym id). destruct (Exp_BookingID x =? id); cbn [orb].
    + destruct (existsb _ l); destruct (statusOf db id); reflexivity.
    + reflexivity.
  - unfold UpdateStatus. unfold byID in Ef. rewrite Ef. rewrite IH.
    destruct (Exp_BookingID x =? id) eqn:E; cbn [orb]; [|reflexivity].
    apply Z.eqb_eq in E. subst id. unfold statusOf. rewrite Ef. cbn.
    destruct (existsb _ l); reflexivity.
Qed.

Lemma expire_each_ids l : forall db w,
  map Booking_ID (bookings (fst (expire_each db l w))) = map Booking_ID (bookings db).
Proof.
  induction l as [|x l IH]; intros db w; [reflexivity|].
  cbn [expire_each].
  pose proof (UpdateStatus_cases db (Exp_BookingID x) BookingStatusExpired w) as H.
  destruct (UpdateStatus db (Exp_BookingID x) BookingStatusExpired w) as [[err db1] w1].
  rewrite IH. destruct H as [[_ ->]|[_ [-> _]]]; [reflexivity|].
  cbn [bookings with_bookings]. apply update_status_rows_ids.
Qed.

Lemma statusOf_unique db b :
  NoDup (map Booking_ID (bookings db)) -> In b (bookings db) ->
  statusOf db (Booking_ID b) = Some (Booking_Status b).
Proof.
  intros Hnd Hin. unfold statusOf.
  change (fun b0 : Booking => Booking_ID b0 =? Booking_ID b) with (byID (Booking_ID b)).
  rewrite (find_byID_unique _ _ Hnd Hin). reflexivity.
Qed.

(** The confirmed seats of every event after the loop, when no listed id
    is the id of a confirmed booking. *)
Lemma expire_each_confirmed l : forall db w,
  NoDup (map Booking_ID (bookings db)) ->
  (forall x, In x l -> statusOf db (Exp_BookingID x) <> Some BookingStatusConfirmed) ->
  forall eventID,
    confirmedSeats (fst (expire_each db l w)) eventID = confirmedSeats db eventID.
Proof.
  induction l as [|x l IH]; intros db w Hnd Hl eventID; [reflexivity|].
  cbn [expire_each].
  destruct (find (byID (Exp_BookingID x)) (bookings db)) as [b|] eqn:Ef.
  - rewrite (UpdateStatus_unchecked db _ BookingStatusExpired w b Ef)
      by apply andb_false_r.
    rewrite IH.
    + rewrite !confirmedSeats_contrib. cbn [bookings with_bookings].
      rewrite (seats_of_update eventID _ _ _ _ b Hnd Ef).
      assert (Hb : String.eqb (Booking_Status b) "confirmed" = false).
      { apply String.eqb_neq. intros Hc.
        apply (Hl x (or_introl eq_refl)). unfold statusOf.
        change (fun b0 : Booking => Booking_ID b0 =? Exp_BookingID x)
          with (byID (Exp_BookingID x)).
        rewrite Ef. cbn. rewrite Hc. reflexivity. }
      assert (H1 : contrib eventID b = 0).
      { unfold contrib. rewrite Hb, andb_false_r. reflexivity. }
      assert (H2 : contrib eventID
                     (set_status b BookingStatusExpired (clock_now w)) = 0).
      { unfold contrib. cbn. destruct (Booking_EventID b =? eventID); reflexivity. }
      rewrite H1, H2. lia.
    + cbn [bookings with_bookings]. rewrite update_status_rows_ids. exact Hnd.
    + intros y Hy. rewrite statusOf_update_status_rows.
      destruct (Exp_BookingID y =? Exp_BookingID x).
      * destruct (statusOf db (Exp_BookingID y)); cbn; discriminate.
      * apply Hl. right. exact Hy.
  - unfold UpdateStatus. unfold byID in Ef. rewrite Ef.
    apply IH; [exact Hnd|]. intros y Hy. apply Hl. right. exact Hy.
Qed.

Lemma listed_iff_due db before b :
  NoDup (map Booking_ID (bookings db)) -> In b (bookings db) ->
  existsb (fun x => Exp_BookingID x =? Booking_ID b) (GetExpiredBookings db before) =
  due db before b.
Proof.
  intros Hnd Hin. apply eq_true_iff_eq. rewrite existsb_exists. split.
  - intros [x [Hx Hid]]. apply Z.eqb_eq in Hid.
    apply (Permutation_in _ (GetExpiredBookings_perm db before)) in Hx.
    apply in_map_iff in Hx. destruct Hx as [b' [<- Hb']].
    apply filter_In in Hb'. destruct Hb' as [Hin' Hd]. cbn in Hid.
    assert (b' = b); [|subst; exact Hd].
    pose proof (find_byID_unique _ _ Hnd Hin) as H1.
    pose proof (find_byID_unique _ _ Hnd Hin') as H2.
    rewrite Hid in H2. congruence.
  - intros Hd. exists (expirationOf b). split; [|apply Z.eqb_refl].
    apply (Permutation_in _ (Permutation_sym (GetExpiredBookings_perm db before))).
    apply in_map. apply filter_In. split; assumption.
Qed.

(** The loop of [CancelExpiredBookings] on the bookings overdue at
    [now]. *)
Lemma expire_due_effect db now w1 :
  NoDup (map Booking_ID (bookings db)) ->
  let db' := fst (expire_each db (GetExpiredBookings db now) w1) in
  map Booking_ID (bookings db') = map Booking_ID (bookings db) /\
  (forall b, In b (bookings db) ->
     statusOf db' (Booking_ID b) =
     Some (if due db now b then BookingStatusExpired else Booking_Status b)) /\
  (forall eventID, confirmedSeats db' eventID = confirmedSeats db eventID).
Proof.
  intros Hnd. cbv zeta.
  split; [apply expire_each_ids|]. split.
  - intros b Hin. rewrite expire_each_status, (listed_iff_due db _ b Hnd Hin).
    rewrite (statusOf_unique db b Hnd Hin). destruct (due db now b); reflexivity.
  - apply expire_each_confirmed; [exact Hnd|]. intros x Hx.
    apply (Permutation_in _ (GetExpiredBookings_perm db now)) in Hx.
    apply in_map_iff in Hx. destruct Hx as [b [<- Hb]].
    apply filter_In in Hb. destruct Hb as [Hin Hd]. cbn [expirationOf Exp_BookingID].
    rewrite (statusOf_unique db b Hnd Hin).
    unfold due in Hd. rewrite !andb_true_iff in Hd. destruct Hd as [[[Hp _] _] _].
    apply String.eqb_eq in Hp. rewrite Hp. discriminate.
Qed.

(** One sweep of [CancelExpiredBookings] returns nil and leaves every
    booking that was pending and overdue at the instant of the sweep (and
    whose user and event exist) expired; every other booking keeps its
    status, no row is added or removed, and the confirmed seats of every
    event are as they were. *)
Theorem CancelExpiredBookings_sweep db w :
  NoDup (map Booking_ID (bookings db)) ->
  let '(err, db', _) := CancelExpiredBookings db w in
  err = None /\
  map Booking_ID (bookings db') = map Booking_ID (bookings db) /\
  (forall b, In b (bookings db) ->
     statusOf db' (Booking_ID b) =
     Some (if due db (clock_now w) b then BookingStatusExpired
           else Booking_Status b)) /\
  (forall eventID, confirmedSeats db' eventID = confirmedSeats db eventID).
Proof.
  intros Hnd. unfold CancelExpiredBookings. cbn [Now].
  set (w1 := mkWorld _ _ _ _).
  pose proof (expire_due_effect db (clock_now w) w1 Hnd) as H. cbv zeta in H.
  destruct (expire_each db (GetExpiredBookings db (clock_now w)) w1) as [db' w'].
  cbn [fst] in H. destruct H as [Hids [Hstatus Hseats]].
  split; [reflexivity|]. split; [exact Hids|]. split; [exact Hstatus|exact Hseats].
Qed.

Lemma CancelExpiredBookings_sweep_witness :
  let '(err, db', _) := CancelExpiredBookings hall (at_time (2000 * Second)) in
  err = None /\
  statusOf db' 1 = Some BookingStatusConfirmed /\
  statusOf db' 2 = Some BookingStatusExpired /\
  confirmedSeats db' 7 = 2.
Proof.
  assert (Hnd : NoDup (map Booking_ID (bookings hall))).
  { cbn. repeat constructor; cbn; intuition discriminate. }
  pose proof (CancelExpiredBookings_sweep hall (at_time (2000 * Second)) Hnd) as H.
  destruct (CancelExpiredBookings hall (at_time (2000 * Second))) as [[err db'] w'].
  destruct H as [He [_ [Hs Hc]]].
  split; [exact He|]. split.
  { apply (Hs (mkBooking 1 7 1 2 BookingStatusConfirmed (1000 * Second) 30
                         (100 * Second) (150 * Second))).
    left. reflexivity. }
  split.
  { apply (Hs (mkBooking 2 7 2 1 BookingStatusPending (1500 * Second) 30
                         (120 * Second) (120 * Second))).
    right. left. reflexivity. }
  rewrite (Hc 7). reflexivity.
Defined.

End BookingMore.

(* ===================================================================== *)
(** ** The expire handler, bulk operations, statistics and events *)
(* ===================================================================== *)

Module BookingOpsFacts.
Import Repository Service BookingOps RepositoryFacts CapacityFacts BookingMore.

(* --------------------------------------------------------------------- *)
(** *** The expire-booking task *)

(** [handleExpireBooking] on a task that names an existing booking never
    fails.  A booking that is not pending is left alone, and so is a
    pending one whose deadline has not come.  A pending booking at or
    after its deadline becomes expired, the other bookings staying as
    they were, and a second delivery of the same task, whenever it
    comes, changes nothing. *)
Theorem handleExpireBooking_outcomes db task w id b :
  dataLookup task "booking_id" = Some (JNumber id) ->
  find (byID id) (bookings db) = Some b ->
  let '(err, db', w') := handleExpireBooking db task w in
  err = None /\
  if negb (String.eqb (Booking_Status b) BookingStatusPending)
  then db' = db /\ w' = w
  else if clock_now w <? Booking_ExpiresAt b
  then db' = db
  else
    statusOf db' id = Some BookingStatusExpired /\
    (forall id', id' <> id ->
        find (byID id') (bookings db') = find (byID id') (bookings db)) /\
    (forall w2, handleExpireBooking db' task w2 = (None, db', w2)).
Proof.
  intros Hd Hf. unfold handleExpireBooking at 1. rewrite Hd.
  unfold GetBooking, GetByID.
  change (fun b0 : Booking => Booking_ID b0 =? id) with (byID id). rewrite Hf.
  destruct (negb (String.eqb (Booking_Status b) BookingStatusPending)) eqn:Es;
    [auto|].
  cbn [Now]. unfold Before.
  destruct (clock_now w <? Booking_ExpiresAt b); [auto|].
  unfold ExpireBooking. rewrite (find_byID_id _ _ _ Hf).
  rewrite (UpdateStatus_unchecked db id BookingStatusExpired _ b Hf)
    by apply andb_false_r.
  split; [reflexivity|]. split.
  { rewrite statusOf_update_status_rows, Z.eqb_refl. unfold statusOf.
    change (fun b0 : Booking => Booking_ID b0 =? id) with (byID id). rewrite Hf.
    reflexivity. }
  split.
  { intros id' Hne. cbn [bookings with_bookings]. rewrite find_update_status_rows.
    destruct (find (byID id') (bookings db)) as [b'|] eqn:Ef'; [|reflexivity].
    cbn. apply find_byID_id in Ef'. rewrite Ef'.
    apply Z.eqb_neq in Hne. rewrite Hne. reflexivity. }
  intros w2. unfold handleExpireBooking. rewrite Hd.
  unfold GetBooking, GetByID.
  change (fun b0 : Booking => Booking_ID b0 =? id) with (byID id).
  cbn [bookings with_bookings]. rewrite find_update_status_rows, Hf.
  cbn [option_map]. rewrite (find_byID_id _ _ _ Hf), Z.eqb_refl. reflexivity.
Qed.

Definition expire_task (id : Z) : Task :=
  mkTask "1700000000-0" "expire_booking" (Some [("booking_id", JNumber id)])
         (1500 * Second) (120 * Second) 0 3.

Lemma handleExpireBooking_outcomes_witness :
  let '(err, db', _) :=
    handleExpireBooking hall (expire_task 2) (at_time (1500 * Second)) in
  err = None /\ statusOf db' 2 = Some BookingStatusExpired /\
  statusOf db' 1 = Some BookingStatusConfirmed.
Proof.
  pose proof (handleExpireBooking_outcomes hall (expire_task 2)
                (at_time (1500 * Second)) 2
                (mkBooking 2 7 2 1 BookingStatusPending (1500 * Second) 30
                           (120 * Second) (120 * Second)) eq_refl eq_refl) as H.
  destruct (handleExpireBooking hall (expire_task 2) (at_time (1500 * Second)))
    as [[err db'] w'].
  destruct H as [He H]. cbn in H. destruct H as [Hs [Ho _]].
  split; [exact He|]. split; [exact Hs|].
  unfold statusOf. change (fun b : Booking => Booking_ID b =? 1) with (byID 1).
  rewrite (Ho 1) by discriminate. reflexivity.
Defined.

(** A task without a numeric [booking_id], or one that names a booking
    that does not exist, is failed and the database is not touched. *)
Theorem handleExpireBooking_rejects db task w :
  (forall id, dataLookup task "booking_id" = Some (JNumber id) ->
              find (byID id) (bookings db) = None) ->
  exists e, handleExpireBooking db task w = (Some e, db, w).
Proof.
  intros H. unfold handleExpireBooking.
  destruct (dataLookup task "booking_id") as [[s|id|flag]|] eqn:Ed;
    try (exists HBadBookingID; reflexivity).
  unfold GetBooking, GetByID.
  change (fun b0 : Booking => Booking_ID b0 =? id) with (byID id).
  rewrite (H id eq_refl). eexists. reflexivity.
Qed.

Lemma handleExpireBooking_rejects_witness :
  exists e, handleExpireBooking hall (expire_task 9) (at_time (1500 * Second)) =
            (Some e, hall, at_time (1500 * Second)).
Proof.
  apply (handleExpireBooking_rejects hall (expire_task 9) (at_time (1500 * Second))).
  intros id H. cbn in H. inversion H. reflexivity.
Defined.

(* --------------------------------------------------------------------- *)
(** *** Bulk operations of the repository *)

Lemma inIDs_In ids b : inIDs ids b = true <-> In (Booking_ID b) ids.
Proof.
  unfold inIDs. rewrite existsb_exists. split.
  - intros [x [Hx He]]. apply Z.eqb_eq in He. subst. exact Hx.
  - intros H. exists (Booking_ID b). split; [exact H|apply Z.eqb_refl].
Qed.

Definition touched (ids : list Z) (bs : list Booking) : list Z :=
  map Booking_ID (filter (inIDs ids) bs).

Lemma touched_incl ids bs : incl (touched ids bs) ids.
Proof.
  intros x Hx. unfold touched in Hx. apply in_map_iff in Hx.
  destruct Hx as [b [<- Hb]]. apply filter_In in Hb. apply inIDs_In. exact (proj2 Hb).
Qed.

Lemma touched_complete ids bs id :
  In id ids -> In id (map Booking_ID bs) -> In id (touched ids bs).
Proof.
  intros Hi Hb. apply in_map_iff in Hb. destruct Hb as [b [<- Hb]].
  unfold touched. apply in_map. apply filter_In. split; [exact Hb|].
  apply inIDs_In. exact Hi.
Qed.

Lemma statusOf_some_iff db id :
  statusOf db id <> None <-> In id (map Booking_ID (bookings db)).
Proof.
  unfold statusOf. change (fun b : Booking => Booking_ID b =? id) with (byID id).
  split.
  - destruct (find (byID id) (bookings db)) as [b|] eqn:Ef; [|intros H; contradiction H; reflexivity].
    intros _. apply in_map_iff. exists b. split.
    + exact (find_byID_id _ _ _ Ef).
    + exact (find_byID_in _ _ _ Ef).
  - intros H. apply in_map_iff in H. destruct H as [b [Hid Hb]].
    destruct (find (byID id) (bookings db)) eqn:Ef; [discriminate|].
    exfalso. pose proof (find_none _ _ Ef b Hb) as Hn. unfold byID in Hn.
    apply Z.eqb_neq in Hn. contradiction.
Qed.

(** The request [BulkUpdateStatus] accepts: no id at all, or ids without
    repetition that all exist. *)
Definition bulkAccepted (db : DB) (ids : list Z) : Prop :=
  NoDup ids /\ forall id, In id ids -> statusOf db id <> None.

Lemma bulk_count db ids :
  NoDup (map Booking_ID (bookings db)) ->
  List.length (filter (inIDs ids) (bookings db)) = List.length ids <->
  bulkAccepted db ids.
Proof.
  intros Hnd.
  assert (HR : NoDup (touched ids (bookings db))).
  { apply NoDup_map_filter. exact Hnd. }
  pose proof (touched_incl ids (bookings db)) as Hincl.
  assert (Hlen : List.length (touched ids (bookings db)) =
                 List.length (filter (inIDs ids) (bookings db))).
  { apply length_map. }
  rewrite <- Hlen. split.
  - intros Heq. split.
    + apply (NoDup_incl_NoDup HR); [lia|exact Hincl].
    + intros id Hid. apply statusOf_some_iff.
      assert (Hback : incl ids (touched ids (bookings db))).
      { apply (NoDup_length_incl HR); [lia|exact Hincl]. }
      specialize (Hback id Hid). unfold touched in Hback.
      apply in_map_iff in Hback. destruct Hback as [b [<- Hb]].
      apply filter_In in Hb. apply in_map. exact (proj1 Hb).
  - intros [Hndi Hall]. apply Nat.le_antisymm.
    + apply NoDup_incl_length; assumption.
    + apply NoDup_incl_length; [exact Hndi|].
      intros id Hid. apply touched_complete; [exact Hid|].
      apply statusOf_some_iff. apply Hall. exact Hid.
Qed.

Lemma find_bulk ids status now id bs :
  find (byID id)
       (map (fun b => if inIDs ids b then set_status b status now else b) bs) =
  option_map (fun b => if inIDs ids b then set_status b status now else b)
             (find (byID id) bs).
Proof.
  apply find_map_id. intros b. destruct (inIDs ids b); reflexivity.
Qed.

(** [BulkUpdateStatus] is all or nothing.  It goes through exactly when
    the ids are given without repetition and every one of them exists
    (or none is given): then every listed booking gets the new status,
    whatever its status was and without any seat check, and the others
    keep theirs.  Otherwise it fails and nothing changes; a repeated id
    is enough to fail. *)
Theorem BulkUpdateStatus_all_or_nothing db ids status w :
  NoDup (map Booking_ID (bookings db)) ->
  let '(err, db', _) := BulkUpdateStatus db ids status w in
  (err = None <-> bulkAccepted db ids) /\
  (err <> None -> db' = db) /\
  (err = None ->
   forall id,
     statusOf db' id =
     if existsb (Z.eqb id) ids then option_map (fun _ => status) (statusOf db id)
     else statusOf db id).
Proof.
  intros Hnd. unfold BulkUpdateStatus. destruct ids as [|i ids].
  { split; [|split].
    - split; [|reflexivity]. intros _. split; [constructor|]. intros id [].
    - reflexivity.
    - intros _ id. reflexivity. }
  cbn [Now]. set (l := i :: ids).
  pose proof (bulk_count db l Hnd) as Hcount.
  destruct (Z.of_nat (List.length (filter (inIDs l) (bookings db))) =?
            Z.of_nat (List.length l)) eqn:E; cbn [negb].
  - apply Z.eqb_eq in E. apply Nat2Z.inj in E. split; [|split].
    + split; [intros _; apply Hcount; exact E|reflexivity].
    + intros H. contradiction H. reflexivity.
    + intros _ id. unfold statusOf. cbn [bookings with_bookings].
      change (fun b : Booking => Booking_ID b =? id) with (byID id).
      rewrite find_bulk.
      destruct (find (byID id) (bookings db)) as [b|] eqn:Ef; cbn [option_map].
      * pose proof (find_byID_id _ _ _ Ef) as Hid.
        unfold inIDs. rewrite Hid.
        destruct (existsb (fun id0 => id =? id0) l) eqn:Ex.
        -- replace (existsb (Z.eqb id) l) with true; reflexivity.
        -- replace (existsb (Z.eqb id) l) with false; reflexivity.
      * destruct (existsb (Z.eqb id) l); reflexivity.
  - apply Z.eqb_neq in E. split; [|split].
    + split; [discriminate|]. intros Hacc. apply Hcount in Hacc. lia.
    + reflexivity.
    + discriminate.
Qed.

Lemma BulkUpdateStatus_all_or_nothing_witness :
  let '(err, db', _) :=
    BulkUpdateStatus hall [2; 2] BookingStatusCancelled (at_time (200 * Second)) in
  err <> None /\ db' = hall.
Proof.
  assert (Hnd : NoDup (map Booking_ID (bookings hall))).
  { cbn. repeat constructor; cbn; intuition discriminate. }
  pose proof (BulkUpdateStatus_all_or_nothing hall [2; 2] BookingStatusCancelled
                (at_time (200 * Second)) Hnd) as H.
  destruct (BulkUpdateStatus hall [2; 2] BookingStatusCancelled (at_time (200 * Second)))
    as [[err db'] w'].
  destruct H as [Hiff [Hfail _]].
  assert (He : err <> None).
  { intros Hn. apply Hiff in Hn. destruct Hn as [Hd _].
    inversion Hd as [|? ? Hnotin _]. apply Hnotin. left. reflexivity. }
  split; [exact He|]. exact (Hfail He).
Defined.

Lemma filter_split_length (p : Booking -> bool) bs :
  (List.length (filter p bs) + List.length (filter (fun b => negb (p b)) bs))%nat =
  List.length bs.
Proof.
  induction bs as [|b bs IH]; [reflexivity|].
  cbn [filter]. destruct (p b); cbn [negb List.length]; lia.
Qed.

(** [DeleteExpired] reports the number of rows it removes; afterwards
    no pending booking due before the given instant is left, so
    [GetExpiredBookings] for that instant is empty; the bookings that
    are not pending, and with them the confirmed seats of every event,
    are as they were. *)
Theorem DeleteExpired_effect db before :
  let '(n, db') := DeleteExpired db before in
  n + Z.of_nat (List.length (bookings db')) = Z.of_nat (List.length (bookings db)) /\
  GetExpiredBookings db' before = [] /\
  filter (fun b => negb (String.eqb (Booking_Status b) "pending")) (bookings db') =
  filter (fun b => negb (String.eqb (Booking_Status b) "pending")) (bookings db) /\
  (forall eventID, confirmedSeats db' eventID = confirmedSeats db eventID).
Proof.
  unfold DeleteExpired. cbn [bookings with_bookings]. split; [|split; [|split]].
  - rewrite <- Nat2Z.inj_add. f_equal. apply filter_split_length.
  - unfold GetExpiredBookings. cbn [bookings with_bookings events users].
    match goal with
    | |- fold_right _ _ (map _ ?l) = _ => assert (Hl : l = []); [|rewrite Hl; reflexivity]
    end.
    match goal with |- ?l = [] => destruct l as [|x l'] eqn:El end; [reflexivity|].
    exfalso. assert (Hx : In x (x :: l')) by (left; reflexivity).
    rewrite <- El in Hx. apply filter_In in Hx. destruct Hx as [Hx Hdue].
    apply filter_In in Hx. destruct Hx as [_ Hkeep].
    unfold overdue in Hkeep. rewrite !andb_true_iff in Hdue.
    destruct Hdue as [[[Hs Ht] _] _]. rewrite Hs, Ht in Hkeep. discriminate.
  - induction (bookings db) as [|b bs IH]; [reflexivity|].
    simpl. unfold overdue at 1.
    destruct (String.eqb (Booking_Status b) "pending") eqn:Es; simpl.
    + destruct (Booking_ExpiresAt b <? before); simpl; [exact IH|].
      rewrite Es. simpl. exact IH.
    + rewrite Es. simpl. f_equal. exact IH.
  - intros eventID. rewrite !confirmedSeats_contrib. cbn [bookings with_bookings].
    unfold seats_of. induction (bookings db) as [|b bs IH]; [reflexivity|].
    simpl. unfold overdue at 1.
    destruct (String.eqb (Booking_Status b) "pending") eqn:Es; simpl.
    + assert (Hc : contrib eventID b = 0).
      { unfold contrib. apply String.eqb_eq in Es. rewrite Es.
        destruct (Booking_EventID b =? eventID); reflexivity. }
      destruct (Booking_ExpiresAt b <? before); simpl; lia.
    + lia.
Qed.

(* --------------------------------------------------------------------- *)
(** *** Statistics *)

Lemma seatsWithStatus_confirmed db eventID :
  seatsWithStatus db eventID "confirmed" = confirmedSeats db eventID.
Proof.
  unfold seatsWithStatus, confirmedSeats.
  induction (bookings db) as [|b bs IH]; [reflexivity|].
  simpl. destruct (Booking_EventID b =? eventID); simpl; [|exact IH].
  destruct (String.eqb (Booking_Status b) "confirmed"); simpl; lia.
Qed.

Definition knownStatus (b : Booking) : Prop :=
  Booking_Status b = BookingStatusPending \/
  Booking_Status b = BookingStatusConfirmed \/
  Booking_Status b = BookingStatusCancelled \/
  Booking_Status b = BookingStatusExpired.

(** The statistics of an event agree with what [eventRepository.GetByID]
    reports: the same confirmed seats and the same available seats.  When
    every booking has one of the four statuses, the four seat counts add
    up to the seats of all the bookings of the event. *)
Theorem GetEventBookingStats_agrees db eventID ev :
  Event_GetByID db eventID = inl ev ->
  let stats := GetEventBookingStats db eventID in
  ConfirmedSeats stats = BookedSeats ev /\
  Stats_AvailableSeats stats (Event_TotalSeats (Event_ ev)) = AvailableSeats ev /\
  TotalBookings stats = CountByEvent db eventID /\
  (Forall knownStatus (bookings db) ->
   PendingSeats stats + ConfirmedSeats stats + CancelledSeats stats +
   ExpiredSeats stats =
   sum (map Booking_Seats
            (filter (fun b => Booking_EventID b =? eventID) (bookings db)))).
Proof.
  intros He. apply Event_GetByID_total in He. destruct He as [_ [Hav Hbk]].
  cbn. unfold Stats_AvailableSeats. cbn. rewrite seatsWithStatus_confirmed.
  split; [symmetry; exact Hbk|]. split; [symmetry; exact Hav|].
  split; [reflexivity|].
  intros Hall. unfold confirmedSeats, seatsWithStatus.
  induction Hall as [|b bs Hb _ IH]; [reflexivity|].
  simpl. destruct (Booking_EventID b =? eventID); simpl; [|exact IH].
  destruct Hb as [Hs|[Hs|[Hs|Hs]]]; rewrite Hs; cbn; unfold sum in *; lia.
Qed.

Lemma GetEventBookingStats_agrees_witness :
  ConfirmedSeats (GetEventBookingStats hall 7) = 2 /\
  Stats_AvailableSeats (GetEventBookingStats hall 7) 3 = 1.
Proof.
  destruct (GetEventBookingStats_agrees hall 7
              (mkEventWithAvailability (mkEvent 7 "recital" (9000 * Second) 3) 1 2)
              eq_refl) as [H1 [H2 _]].
  split; [exact H1|exact H2].
Defined.

(* --------------------------------------------------------------------- *)
(** *** Events *)

(** No event has more confirmed seats than seats. *)
Definition fits (db : DB) : Prop :=
  forall eventID total,
    totalSeats db eventID = Some total -> confirmedSeats db eventID <= total.

Definition eventByID (id : Z) (e : Event) : bool := Event_ID e =? id.

Lemma find_event_map (f : Event -> Event) id es :
  (forall e, Event_ID (f e) = Event_ID e) ->
  find (eventByID id) (map f es) = option_map f (find (eventByID id) es).
Proof.
  intros Hf. induction es as [|e es IH]; [reflexivity|].
  simpl. unfold eventByID at 1 3. rewrite Hf.
  destruct (Event_ID e =? id); [reflexivity|exact IH].
Qed.

Definition rewriteEvent (event e : Event) : Event :=
  if Event_ID e =? Event_ID event
  then mkEvent (Event_ID e) (Event_Title event) (Event_Date event)
               (Event_TotalSeats event)
  else e.

Lemma Event_Update_found db event w e0 :
  find (eventByID (Event_ID event)) (events db) = Some e0 ->
  Event_Update db event w =
    (None, with_events db (map (rewriteEvent event) (events db)), snd (Now w)).
Proof.
  intros Hf. unfold Event_Update. cbn [Now].
  assert (Hex : existsb (fun e => Event_ID e =? Event_ID event) (events db) = true).
  { apply existsb_exists. exists e0. apply find_some in Hf. exact Hf. }
  rewrite Hex. reflexivity.
Qed.

Lemma totalSeats_rewrite db event eventID :
  totalSeats (with_events db (map (rewriteEvent event) (events db))) eventID =
  if eventID =? Event_ID event
  then option_map (fun _ => Event_TotalSeats event) (totalSeats db eventID)
  else totalSeats db eventID.
Proof.
  unfold totalSeats. cbn [events with_events].
  change (fun e : Event => Event_ID e =? eventID) with (eventByID eventID).
  rewrite find_event_map.
  2:{ intros e. unfold rewriteEvent. destruct (Event_ID e =? Event_ID event); reflexivity. }
  destruct (find (eventByID eventID) (events db)) as [e|] eqn:Ef; cbn [option_map].
  - apply find_some in Ef. destruct Ef as [_ Ef]. unfold eventByID in Ef.
    apply Z.eqb_eq in Ef. unfold rewriteEvent. rewrite Ef.
    destruct (eventID =? Event_ID event); reflexivity.
  - destruct (eventID =? Event_ID event); reflexivity.
Qed.

Lemma fits_rewrite db event :
  fits db ->
  confirmedSeats db (Event_ID event) <= Event_TotalSeats event ->
  fits (with_events db (map (rewriteEvent event) (events db))).
Proof.
  intros Hfit Hle eventID total. rewrite totalSeats_rewrite.
  change (confirmedSeats (with_events db (map (rewriteEvent event) (events db))) eventID)
    with (confirmedSeats db eventID).
  destruct (eventID =? Event_ID event) eqn:E.
  - apply Z.eqb_eq in E. subst eventID.
    destruct (totalSeats db (Event_ID event)); [|discriminate].
    cbn. intros H. inversion H. subst. exact Hle.
  - apply Hfit.
Qed.

Lemma find_none_filter_events id es :
  find (fun e => Event_ID e =? id) (filter (fun e => negb (Event_ID e =? id)) es) = None.
Proof.
  induction es as [|e es IH]; [reflexivity|].
  simpl. destruct (Event_ID e =? id) eqn:E; simpl; [exact IH|].
  rewrite E. exact IH.
Qed.

Lemma find_keep_filter_events id id' es :
  id' <> id ->
  find (fun e => Event_ID e =? id') (filter (fun e => negb (Event_ID e =? id)) es) =
  find (fun e => Event_ID e =? id') es.
Proof.
  intros Hne. induction es as [|e es IH]; [reflexivity|].
  simpl. destruct (Event_ID e =? id) eqn:E; simpl.
  - apply Z.eqb_eq in E. rewrite E. apply Z.eqb_neq in Hne.
    rewrite Z.eqb_sym, Hne. exact IH.
  - destruct (Event_ID e =? id'); [reflexivity|exact IH].
Qed.

(** [UpdateEvent] never touches a booking and keeps every event within
    its capacity: a total below the confirmed seats of the event is
    refused.  A refused update changes nothing; an accepted one stores
    the requested total, or keeps the old one when none is requested. *)
Theorem UpdateEvent_keeps_capacity db id req w :
  fits db ->
  let '(res, db', _) := UpdateEvent db id req w in
  bookings db' = bookings db /\
  fits db' /\
  match res with
  | inr _ => db' = db
  | inl event =>
      Event_ID event = id /\
      totalSeats db' id = Some (Event_TotalSeats event) /\
      confirmedSeats db' id <= Event_TotalSeats event /\
      match Upd_TotalSeats req with
      | Some total => Event_TotalSeats event = total
      | None => totalSeats db id = Some (Event_TotalSeats event)
      end
  end.
Proof.
  intros Hfit. unfold UpdateEvent.
  destruct (Event_GetByID db id) as [ex|e] eqn:Eg; [|auto].
  pose proof (Event_GetByID_total db id ex Eg) as [Htot [_ Hbk]].
  assert (Hfound : exists e0, find (eventByID id) (events db) = Some e0).
  { unfold Event_GetByID in Eg. unfold eventByID.
    destruct (find (fun e => Event_ID e =? id) (events db)) as [e0|]; [|discriminate].
    exists e0. reflexivity. }
  destruct Hfound as [e0 Hfound].
  pose proof (Hfit id _ Htot) as Hold.
  cbn [Now].
  assert (Hdone : forall event w1,
             Event_ID event = id ->
             confirmedSeats db id <= Event_TotalSeats event ->
             match Upd_TotalSeats req with
             | Some total => Event_TotalSeats event = total
             | None => totalSeats db id = Some (Event_TotalSeats event)
             end ->
             let '(res, db', _) :=
               match Event_Update db event w1 with
               | (Some e, db', w') => (inr (SvcUpdateEvent e), db', w')
               | (None, db', w') => (inl event, db', w')
               end in
             bookings db' = bookings db /\ fits db' /\
             match res with
             | inr _ => db' = db
             | inl event =>
                 Event_ID event = id /\
                 totalSeats db' id = Some (Event_TotalSeats event) /\
                 confirmedSeats db' id <= Event_TotalSeats event /\
                 match Upd_TotalSeats req with
                 | Some total => Event_TotalSeats event = total
                 | None => totalSeats db id = Some (Event_TotalSeats event)
                 end
             end).
  { intros event w1 Hid Hle Hreq.
    rewrite (Event_Update_found db event w1 e0) by (rewrite Hid; exact Hfound).
    split; [reflexivity|]. split; [apply fits_rewrite; [exact Hfit|rewrite Hid; exact Hle]|].
    split; [exact Hid|]. split.
    - rewrite totalSeats_rewrite, Hid, Z.eqb_refl, Htot. reflexivity.
    - split; [exact Hle|exact Hreq]. }
  destruct (Upd_Title req) as [title|]; destruct (Upd_Date req) as [date|];
    cbn [Now Event_ID Event_Title Event_Date Event_TotalSeats];
    try (destruct (Before date _); [auto|]);
    (destruct (Upd_TotalSeats req) as [total|] eqn:Er;
     [ destruct (total <? BookedSeats ex) eqn:El; [auto|];
       apply Z.ltb_ge in El; rewrite Hbk in El;
       cbn [Event_ID Event_Title Event_Date Event_TotalSeats];
       match goal with
       | |- context [Event_Update db ?ev ?w1] =>
           specialize (Hdone ev w1 eq_refl El); try rewrite Er in Hdone;
           exact (Hdone eq_refl)
       end
     | match goal with
       | |- context [Event_Update db ?ev ?w1] =>
           specialize (Hdone ev w1 eq_refl Hold); try rewrite Er in Hdone;
           exact (Hdone Htot)
       end ]).
Qed.

(** A concert hall with one event that has no booking at all. *)
Definition two_events : DB :=
  mkDB [mkEvent 7 "recital" (9000 * Second) 3; mkEvent 8 "matinee" (9500 * Second) 5]
       (users hall) (bookings hall) 3.

Lemma fits_two_events : fits two_events.
Proof.
  intros eventID total.
  destruct (Z.eq_dec eventID 7) as [->|N7];
    [change (Some 3 = Some total -> 2 <= total); intros H; inversion H; lia|].
  destruct (Z.eq_dec eventID 8) as [->|N8];
    [change (Some 5 = Some total -> 0 <= total); intros H; inversion H; lia|].
  unfold totalSeats, two_events. cbn [events find Event_ID option_map].
  assert (E7 : (7 =? eventID) = false) by lia.
  assert (E8 : (8 =? eventID) = false) by lia.
  rewrite E7, E8. discriminate.
Qed.

Lemma UpdateEvent_keeps_capacity_witness :
  let '(res, db', _) :=
    UpdateEvent two_events 7 (mkUpdateEventRequest None None (Some 2))
                (at_time (200 * Second)) in
  res = inl (mkEvent 7 "recital" (9000 * Second) 2) /\
  totalSeats db' 7 = Some 2 /\ fits db'.
Proof.
  pose proof (UpdateEvent_keeps_capacity two_events 7
                (mkUpdateEventRequest None None (Some 2))
                (at_time (200 * Second)) fits_two_events) as H.
  destruct (UpdateEvent two_events 7 (mkUpdateEventRequest None None (Some 2))
                        (at_time (200 * Second))) as [[res db'] w'] eqn:E.
  destruct H as [_ [Hfit Hres]].
  assert (Hr : res = inl (mkEvent 7 "recital" (9000 * Second) 2)).
  { vm_compute in E. inversion E. reflexivity. }
  split; [exact Hr|]. rewrite Hr in Hres. destruct Hres as [_ [Ht _]].
  split; [exact Ht|exact Hfit].
Defined.

(** [DeleteEvent] goes through exactly when the event exists and has no
    booking of any status: bookings that are all cancelled or expired
    pass the check of the service and are then refused by the
    repository.  A refused call changes nothing; an accepted one removes
    the event, and no booking is left pointing at it. *)
Theorem DeleteEvent_outcomes db id :
  let '(err, db') := DeleteEvent db id in
  bookings db' = bookings db /\
  (err = None <->
   (forall b, In b (bookings db) -> Booking_EventID b <> id) /\
   totalSeats db id <> None) /\
  (err <> None -> db' = db) /\
  (err = None ->
   Event_GetByID db' id = inr ErrNoRows /\
   forall id', id' <> id -> Event_GetByID db' id' = Event_GetByID db id').
Proof.
  unfold DeleteEvent, GetByEventID, Event_Delete, CountByEvent.
  set (mine := filter (fun b => Booking_EventID b =? id) (bookings db)).
  assert (Hmine : mine = [] <-> forall b, In b (bookings db) -> Booking_EventID b <> id).
  { split.
    - intros Hm b Hb He. assert (In b mine).
      { apply filter_In. split; [exact Hb|apply Z.eqb_eq; exact He]. }
      rewrite Hm in H. exact H.
    - intros Hall. destruct mine as [|b l] eqn:Em; [reflexivity|].
      exfalso. assert (Hb : In b mine) by (rewrite Em; left; reflexivity).
      apply filter_In in Hb. destruct Hb as [Hb He]. apply Z.eqb_eq in He.
      exact (Hall b Hb He). }
  assert (Hev : existsb (fun e => Event_ID e =? id) (events db) = true <->
                totalSeats db id <> None).
  { unfold totalSeats. rewrite existsb_exists. split.
    - intros [e [He Hid]].
      destruct (find (fun e => Event_ID e =? id) (events db)) eqn:Ef; [discriminate|].
      rewrite (find_none _ _ Ef e He) in Hid. discriminate.
    - destruct (find (fun e => Event_ID e =? id) (events db)) as [e|] eqn:Ef.
      + intros _. exists e. apply find_some in Ef. exact Ef.
      + intros H. contradiction H. reflexivity. }
  destruct (existsb _ (rev mine)) eqn:Eact.
  { split; [reflexivity|]. split; [|split; [reflexivity|discriminate]].
    split; [discriminate|]. intros [Hall _]. apply Hmine in Hall.
    rewrite Hall in Eact. discriminate. }
  destruct mine as [|b l] eqn:Em.
  - cbn [List.length Z.of_nat Z.ltb Z.compare].
    destruct (existsb (fun e => Event_ID e =? id) (events db)) eqn:Eex; cbn [negb].
    + split; [reflexivity|]. split; [|split].
      * split; [|reflexivity]. intros _. split; [apply Hmine; reflexivity|].
        apply Hev. reflexivity.
      * intros H. contradiction H. reflexivity.
      * intros _. unfold Event_GetByID. cbn [events with_events]. split.
        -- rewrite find_none_filter_events. reflexivity.
        -- intros id' Hne. rewrite (find_keep_filter_events _ _ _ Hne).
           unfold confirmedSeats. reflexivity.
    + split; [reflexivity|]. split; [|split; [reflexivity|discriminate]].
      split; [discriminate|]. intros [_ Hex]. apply Hev in Hex. discriminate.
  - assert (Hpos : (0 <? Z.of_nat (List.length (b :: l))) = true).
    { apply Z.ltb_lt. cbn [List.length]. lia. }
    rewrite Hpos.
    split; [reflexivity|]. split; [|split; [reflexivity|discriminate]].
    split; [discriminate|]. intros [Hall _]. apply Hmine in Hall. discriminate.
Qed.

Lemma DeleteEvent_outcomes_witness :
  fst (DeleteEvent two_events 8) = None /\
  Event_GetByID (snd (DeleteEvent two_events 8)) 8 = inr ErrNoRows /\
  fst (DeleteEvent two_events 7) <> None.
Proof.
  pose proof (DeleteEvent_outcomes two_events 8) as H8.
  pose proof (DeleteEvent_outcomes two_events 7) as H7.
  destruct (DeleteEvent two_events 8) as [err8 db8] eqn:E8.
  destruct (DeleteEvent two_events 7) as [err7 db7] eqn:E7.
  cbn [fst snd].
  destruct H8 as [_ [Hiff8 [_ Hok8]]]. destruct H7 as [_ [Hiff7 _]].
  assert (He8 : err8 = None).
  { apply Hiff8. split; [|discriminate].
    intros b [<-|[<-|[]]]; discriminate. }
  split; [exact He8|]. split; [exact (proj1 (Hok8 He8))|].
  intros Hn. apply Hiff7 in Hn. destruct Hn as [Hall _].
  apply (Hall (mkBooking 1 7 1 2 BookingStatusConfirmed (1000 * Second) 30
                         (100 * Second) (150 * Second))); [left|]; reflexivity.
Defined.

(** [CheckBookingAvailability] and [BookSeats] read the same seats: when
    the check answers "not available", a [BookSeats] for these seats
    made at the same moment is refused for lack of seats, whoever the
    user is; so a [BookSeats] that is accepted was answered "available". *)
Theorem CheckBookingAvailability_agrees db eventID seats w ok w1 :
  CheckBookingAvailability db eventID seats w = ((ok, None), w1) ->
  (ok = false ->
   forall userID timeout,
     BookSeats db (mkBookSeatsRequest eventID userID seats timeout) w =
       (inr SvcInsufficientSeats, db, w1)) /\
  (forall userID timeout b db' w',
     BookSeats db (mkBookSeatsRequest eventID userID seats timeout) w =
       (inl b, db', w') -> ok = true).
Proof.
  intros Hc.
  assert (H1 : ok = false ->
               forall userID timeout,
                 BookSeats db (mkBookSeatsRequest eventID userID seats timeout) w =
                   (inr SvcInsufficientSeats, db, w1)).
  { intros -> userID timeout. revert Hc.
    unfold CheckBookingAvailability, BookSeats. cbn [Req_EventID Req_Seats].
    destruct (seats <=? 0); [discriminate|].
    destruct (Event_GetByID db eventID) as [ev|e]; [|discriminate].
    cbn [Now]. destruct (Before _ _); [discriminate|].
    intros H. inversion H as [[Hlt Hw]].
    apply Z.leb_gt in Hlt. apply Z.ltb_lt in Hlt. rewrite Hlt. reflexivity. }
  split; [exact H1|].
  intros userID timeout b db' w' Hb. destruct ok; [reflexivity|].
  rewrite (H1 eq_refl userID timeout) in Hb. discriminate.
Qed.

Lemma CheckBookingAvailability_agrees_witness :
  CheckBookingAvailability hall 7 2 (at_time (200 * Second)) =
    ((false, None), snd (Now (at_time (200 * Second)))) /\
  BookSeats hall (mkBookSeatsRequest 7 3 2 0) (at_time (200 * Second)) =
    (inr SvcInsufficientSeats, hall, snd (Now (at_time (200 * Second)))).
Proof.
  split; [reflexivity|].
  apply (proj1 (CheckBookingAvailability_agrees hall 7 2 (at_time (200 * Second))
                  false (snd (Now (at_time (200 * Second)))) eq_refl) eq_refl 3 0).
Defined.

End BookingOpsFacts.

(* ===================================================================== *)
(** ** Sequences of operations: what no operation changes *)
(* ===================================================================== *)

Module SequenceMore.
Import Repository Service RepositoryFacts CapacityFacts BookingMore.

(** The columns of a booking that are fixed when it is created. *)
Definition frameOfRow (b : Booking) : Z * Z * Time * Z * Time :=
  (Booking_EventID b, Booking_UserID b, Booking_ExpiresAt b,
   Booking_ReservationTimeout b, Booking_CreatedAt b).

Definition frameOf (db : DB) (id : Z) : option (Z * Z * Time * Z * Time) :=
  option_map frameOfRow (find (byID id) (bookings db)).

(** From [db] to [db'] an id the sequence has issued stays issued, and
    its booking keeps its fixed columns or is gone. *)
Definition stable (id : Z) (db db' : DB) : Prop :=
  id < bookings_id_seq db ->
  id < bookings_id_seq db' /\
  (frameOf db' id = frameOf db id \/ frameOf db' id = None).

Lemma stable_refl id db : stable id db db.
Proof. intros H. split; [exact H|left; reflexivity]. Qed.

Lemma stable_trans id db1 db2 db3 :
  stable id db1 db2 -> stable id db2 db3 -> stable id db1 db3.
Proof.
  intros H12 H23 H1. destruct (H12 H1) as [H2 Hf2].
  destruct (H23 H2) as [H3 Hf3]. split; [exact H3|].
  destruct Hf3 as [Hf3|Hf3]; [|right; exact Hf3].
  rewrite Hf3. exact Hf2.
Qed.

Lemma UpdateStatus_stable db i s w id :
  let '(_, db', _) := UpdateStatus db i s w in stable id db db'.
Proof.
  pose proof (UpdateStatus_cases db i s w) as H.
  destruct (UpdateStatus db i s w) as [[err db'] w'].
  destruct H as [[_ ->]|[_ [-> _]]]; [apply stable_refl|].
  intros H1. split; [exact H1|]. left.
  unfold frameOf. cbn [bookings with_bookings]. rewrite find_update_status_rows.
  destruct (find (byID id) (bookings db)) as [b|]; [|reflexivity].
  cbn [option_map]. destruct (Booking_ID b =? i); reflexivity.
Qed.

Lemma Create_stable db booking w id :
  let '(_, db', _) := Create db booking w in stable id db db'.
Proof.
  unfold Create.
  destruct (totalSeats db (Booking_EventID booking)) as [total|];
    [|apply stable_refl].
  destruct (0 <? existingBookingCount db (Booking_EventID booking)
                   (Booking_UserID booking)); [apply stable_refl|].
  destruct (total <? confirmedSeats db (Booking_EventID booking)
                     + Booking_Seats booking); [apply stable_refl|].
  destruct (Now w) as [now w1].
  destruct (negb (userExists db (Booking_UserID booking))).
  - intros H1. cbn. split; [lia|left; reflexivity].
  - intros H1. cbn [bookings_id_seq]. split; [lia|]. left.
    unfold frameOf. cbn [bookings]. rewrite SequenceFacts.find_app_last.
    destruct (find (byID id) (bookings db)); [reflexivity|].
    unfold byID at 1. cbn [Booking_ID].
    destruct (bookings_id_seq db =? id) eqn:E; [|reflexivity].
    apply Z.eqb_eq in E. lia.
Qed.

Lemma BookSeats_stable db req w id :
  let '(_, db', _) := BookSeats db req w in stable id db db'.
Proof.
  unfold BookSeats.
  destruct (Event_GetByID db (Req_EventID req)) as [ewa|]; [|apply stable_refl].
  destruct (Now w) as [now w1].
  destruct (Before (Event_Date (Event_ ewa)) now); [apply stable_refl|].
  destruct (AvailableSeats ewa <? Req_Seats req); [apply stable_refl|].
  destruct (User_GetByID db (Req_UserID req)); [|apply stable_refl].
  match goal with
  | |- context [match ?c with Some e => (inr e, db, w1) | None => _ end] =>
      destruct c; [apply stable_refl|]
  end.
  match goal with
  | |- context [Create db ?b w1] =>
      pose proof (Create_stable db b w1 id) as H;
      destruct (Create db b w1) as [[[b' [e|]] db'] w']; exact H
  end.
Qed.

Ltac by_UpdateStatus db i s w id :=
  let H := fresh "H" in
  pose proof (UpdateStatus_stable db i s w id) as H;
  destruct (UpdateStatus db i s w) as [[[?|] ?] ?]; exact H.

Lemma ConfirmBooking_stable db i w id :
  let '(_, db', _) := ConfirmBooking db i w in stable id db db'.
Proof.
  unfold ConfirmBooking.
  destruct (GetByID db i) as [b|]; [|apply stable_refl].
  destruct (negb (String.eqb (Booking_Status b) BookingStatusPending));
    [apply stable_refl|].
  destruct (Now w) as [now w1].
  destruct (After now (Booking_ExpiresAt b)).
  - by_UpdateStatus db i BookingStatusExpired w1 id.
  - destruct (Event_GetByID db (Booking_EventID b)) as [ewa|]; [|apply stable_refl].
    destruct (AvailableSeats ewa <? Booking_Seats b); [apply stable_refl|].
    by_UpdateStatus db i BookingStatusConfirmed w1 id.
Qed.

Lemma CancelBooking_stable db i reason w id :
  let '(_, db', _) := CancelBooking db i reason w in stable id db db'.
Proof.
  unfold CancelBooking.
  destruct (GetByID db i) as [b|]; [|apply stable_refl].
  destruct (String.eqb (Booking_Status b) BookingStatusCancelled ||
            String.eqb (Booking_Status b) BookingStatusExpired)%bool;
    [apply stable_refl|].
  by_UpdateStatus db i BookingStatusCancelled w id.
Qed.

Lemma expire_each_stable l : forall db w id,
  stable id db (fst (expire_each db l w)).
Proof.
  induction l as [|x l IH]; intros db w id; [apply stable_refl|].
  simpl.
  pose proof (UpdateStatus_stable db (Exp_BookingID x) BookingStatusExpired w id) as H.
  destruct (UpdateStatus db (Exp_BookingID x) BookingStatusExpired w)
    as [[e db'] w'].
  exact (stable_trans id db db' _ H (IH db' w' id)).
Qed.

Lemma UpdateBookingSeats_stable db i seats w id :
  let '(_, db', _) := UpdateBookingSeats db i seats w in stable id db db'.
Proof.
  unfold UpdateBookingSeats.
  destruct (seats <=? 0); [apply stable_refl|].
  unfold GetByID.
  destruct (find (fun b => Booking_ID b =? i) (bookings db)) as [b|] eqn:Ef;
    [|apply stable_refl].
  destruct (negb (String.eqb (Booking_Status b) BookingStatusPending));
    [apply stable_refl|].
  destruct (Event_GetByID db (Booking_EventID b)) as [ewa|]; [|apply stable_refl].
  destruct (AvailableSeats ewa + (seats - Booking_Seats b) <? 0); [apply stable_refl|].
  unfold Update. destruct (Now w) as [now w1].
  cbn [Booking_ID Booking_UserID Booking_EventID].
  destruct (negb (existsb (fun b0 => Booking_ID b0 =? Booking_ID b) (bookings db)));
    [apply stable_refl|].
  destruct (negb (userExists db (Booking_UserID b) &&
                  existsb (fun e => Event_ID e =? Booking_EventID b) (events db)));
    [apply stable_refl|].
  destruct (Now w1) as [now' w2].
  intros H1. cbn [bookings_id_seq with_bookings]. split; [exact H1|]. left.
  assert (Hi : Booking_ID b = i) by (apply (find_byID_id i (bookings db)); exact Ef).
  unfold frameOf. cbn [bookings with_bookings].
  rewrite find_map_id.
  2:{ intros b0. destruct (Booking_ID b0 =? Booking_ID b); reflexivity. }
  destruct (find (byID id) (bookings db)) as [b1|] eqn:E1; [|reflexivity].
  cbn [option_map]. pose proof (find_byID_id _ _ _ E1) as Hid1. rewrite Hid1, Hi.
  destruct (id =? i) eqn:E; [|reflexivity].
  apply Z.eqb_eq in E. rewrite E in E1.
  assert (Hb : Some b1 = Some b) by (rewrite <- E1, <- Ef; reflexivity).
  inversion Hb. reflexivity.
Qed.

Lemma UpdateBookingStatus_stable db i s w id :
  let '(_, db', _) := UpdateBookingStatus db i s w in stable id db db'.
Proof.
  unfold UpdateBookingStatus.
  destruct (String.eqb s BookingStatusPending || String.eqb s BookingStatusConfirmed ||
            String.eqb s BookingStatusCancelled || String.eqb s BookingStatusExpired)%bool;
    [|apply stable_refl].
  by_UpdateStatus db i s w id.
Qed.

Lemma DeleteBooking_stable db i w id :
  let '(_, db', _) := DeleteBooking db i w in stable id db db'.
Proof.
  unfold DeleteBooking.
  destruct (GetByID db i) as [b|]; [|apply stable_refl].
  destruct (String.eqb (Booking_Status b) BookingStatusConfirmed); [apply stable_refl|].
  unfold Delete.
  destruct (existsb (fun b0 => Booking_ID b0 =? i) (bookings db)); [|apply stable_refl].
  intros H1. cbn [bookings_id_seq with_bookings]. split; [exact H1|].
  unfold frameOf. cbn [bookings with_bookings].
  destruct (id =? i) eqn:E.
  - apply Z.eqb_eq in E. subst i. right.
    rewrite SequenceFacts.find_filter_drop; [reflexivity|].
    intros x Hx. unfold byID in Hx. rewrite Hx. reflexivity.
  - left. rewrite SequenceFacts.find_filter_keep; [reflexivity|].
    intros x Hx. unfold byID in Hx. apply Z.eqb_eq in Hx. rewrite Hx, E. reflexivity.
Qed.

Lemma step_stable op db w id : stable id db (fst (step op db w)).
Proof.
  destruct op as [req|i|i reason|i| |i seats|i s|i]; cbn [step].
  - pose proof (BookSeats_stable db req w id) as H.
    destruct (BookSeats db req w) as [[r db'] w']. exact H.
  - pose proof (ConfirmBooking_stable db i w id) as H.
    destruct (ConfirmBooking db i w) as [[r db'] w']. exact H.
  - pose proof (CancelBooking_stable db i reason w id) as H.
    destruct (CancelBooking db i reason w) as [[r db'] w']. exact H.
  - unfold ExpireBooking.
    pose proof (UpdateStatus_stable db i BookingStatusExpired w id) as H.
    destruct (UpdateStatus db i BookingStatusExpired w) as [[r db'] w']. exact H.
  - unfold CancelExpiredBookings. destruct (Now w) as [now w1].
    pose proof (expire_each_stable (GetExpiredBookings db now) db w1 id) as H.
    destruct (expire_each db (GetExpiredBookings db now) w1) as [db' w']. exact H.
  - pose proof (UpdateBookingSeats_stable db i seats w id) as H.
    destruct (UpdateBookingSeats db i seats w) as [[r db'] w']. exact H.
  - pose proof (UpdateBookingStatus_stable db i s w id) as H.
    destruct (UpdateBookingStatus db i s w) as [[r db'] w']. exact H.
  - pose proof (DeleteBooking_stable db i w id) as H.
    destruct (DeleteBooking db i w) as [[r db'] w']. exact H.
Qed.

Lemma run_stable ops : forall db w id, stable id db (fst (run ops db w)).
Proof.
  induction ops as [|op ops IH]; intros db w id; [apply stable_refl|].
  pose proof (step_stable op db w id) as Hs.
  simpl. destruct (step op db w) as [db' w']. cbn [fst] in Hs.
  exact (stable_trans id db db' _ Hs (IH db' w' id)).
Qed.

(** Whatever the public operations of the booking service do, in any
    order and with any arguments, to a booking the id sequence has
    issued, they never change its event, its user, its deadline, its
    timeout or its creation time: after the sequence the booking has
    the same fixed columns or no longer exists.  In particular no
    operation extends a reservation, not even the [UpdateBookingStatus]
    that puts an expired booking back to pending; and an id that was
    issued and is free stays free. *)
Theorem fixed_columns_never_change ops db w id :
  id < bookings_id_seq db ->
  match find (byID id) (bookings (fst (run ops db w))) with
  | None => True
  | Some b' =>
      exists b,
        find (byID id) (bookings db) = Some b /\
        Booking_EventID b' = Booking_EventID b /\
        Booking_UserID b' = Booking_UserID b /\
        Booking_ExpiresAt b' = Booking_ExpiresAt b /\
        Booking_ReservationTimeout b' = Booking_ReservationTimeout b /\
        Booking_CreatedAt b' = Booking_CreatedAt b
  end.
Proof.
  intros Hid. destruct (run_stable ops db w id Hid) as [_ H].
  unfold frameOf in H.
  destruct (find (byID id) (bookings (fst (run ops db w)))) as [b'|]; [|exact I].
  destruct H as [H|H]; [|discriminate].
  destruct (find (byID id) (bookings db)) as [b|]; [|discriminate].
  exists b. split; [reflexivity|]. cbn in H. unfold frameOfRow in H.
  inversion H. auto.
Qed.

Lemma fixed_columns_never_change_witness :
  match find (byID 2)
             (bookings (fst (run [OpUpdateBookingSeats 2 3; OpExpireBooking 2;
                                  OpUpdateBookingStatus 2 BookingStatusPending;
                                  OpConfirmBooking 2]
                                 hall (at_time (3000 * Second))))) with
  | None => True
  | Some b' => Booking_ExpiresAt b' = 1500 * Second
  end.
Proof.
  pose proof (fixed_columns_never_change
                [OpUpdateBookingSeats 2 3; OpExpireBooking 2;
                 OpUpdateBookingStatus 2 BookingStatusPending;
                 OpConfirmBooking 2]
                hall (at_time (3000 * Second)) 2 ltac:(reflexivity)) as H.
  destruct (find (byID 2) (bookings (fst (run _ hall (at_time (3000 * Second))))))
    as [b'|]; [|exact I].
  destruct H as [b [Hb [_ [_ [He _]]]]].
  rewrite He. cbn in Hb. inversion Hb. reflexivity.
Defined.

(** The hall satisfies the invariant behind capacity. *)
Lemma Inv_hall : Inv hall.
Proof.
  constructor.
  - cbn. repeat constructor; cbn; intuition discriminate.
  - repeat constructor; cbn; lia.
  - repeat constructor; cbn; lia.
  - intros eventID total.
    destruct (Z.eq_dec eventID 7) as [->|N7];
      [change (Some 3 = Some total -> 2 <= total); intros H; inversion H; lia|].
    unfold totalSeats, hall. cbn [events find Event_ID option_map].
    assert (E7 : (7 =? eventID) = false) by lia.
    rewrite E7. discriminate.
Qed.

Lemma capacity_kept_without_reconfirmation_witness :
  Inv (fst (run [OpBookSeats (mkBookSeatsRequest 7 3 1 0);
                 OpConfirmBooking 2;
                 OpUpdateBookingSeats 3 5;
                 OpConfirmBooking 3;
                 OpCancelBooking 1 "ill";
                 OpUpdateBookingStatus 2 BookingStatusPending;
                 OpCancelExpiredBookings;
                 OpDeleteBooking 2]
                hall (at_time (200 * Second)))).
Proof.
  apply capacity_kept_without_reconfirmation; [exact Inv_hall|reflexivity].
Defined.

End SequenceMore.

(* ===================================================================== *)
(** ** The cleanup worker *)
(* ===================================================================== *)

Module WorkerFacts.
Import Repository Service BookingOps RepositoryFacts CapacityFacts BookingMore.

(** The bookings the loop of the worker reaches: those before the first
    poll that finds the context cancelled. *)
Fixpoint processed (l : list BookingExpiration) (flags : list bool)
  : list BookingExpiration :=
  match l with
  | [] => []
  | x :: l' => if hd false flags then [] else x :: processed l' (tl flags)
  end.

Lemma processed_all l : forall flags,
  forallb negb flags = true -> processed l flags = l.
Proof.
  induction l as [|x l IH]; intros flags Hf; [reflexivity|].
  destruct flags as [|f flags]; cbn [processed hd tl].
  - rewrite IH; reflexivity.
  - cbn in Hf. apply andb_true_iff in Hf. destruct Hf as [Hf1 Hf2].
    apply negb_true_iff in Hf1. rewrite Hf1. rewrite IH; [reflexivity|exact Hf2].
Qed.

Lemma processed_incl l : forall flags x, In x (processed l flags) -> In x l.
Proof.
  induction l as [|y l IH]; intros flags x; [intros []|].
  cbn [processed]. destruct (hd false flags); [intros []|].
  intros [->|H]; [left; reflexivity|right; exact (IH _ _ H)].
Qed.

Definition same_clock (w w0 : World) : Prop :=
  clock_now w = clock_now w0 /\ clock_ticks w = clock_ticks w0.

(** [UpdateStatus] looks at the clock only. *)
Lemma UpdateStatus_same_clock db i s w w0 :
  same_clock w w0 ->
  fst (UpdateStatus db i s w) = fst (UpdateStatus db i s w0) /\
  same_clock (snd (UpdateStatus db i s w)) (snd (UpdateStatus db i s w0)) /\
  ctx_done (snd (UpdateStatus db i s w)) = ctx_done w.
Proof.
  intros [Hn Ht]. unfold UpdateStatus.
  destruct (find (fun b => Booking_ID b =? i) (bookings db)) as [cur|];
    [|repeat split; assumption].
  assert (Hgo : fst (let '(now, w1) := Now w in
                     (@None Error,
                      with_bookings db (update_status_rows (bookings db) i s now), w1)) =
                fst (let '(now, w1) := Now w0 in
                     (@None Error,
                      with_bookings db (update_status_rows (bookings db) i s now), w1)) /\
                same_clock
                  (snd (let '(now, w1) := Now w in
                        (@None Error,
                         with_bookings db (update_status_rows (bookings db) i s now), w1)))
                  (snd (let '(now, w1) := Now w0 in
                        (@None Error,
                         with_bookings db (update_status_rows (bookings db) i s now), w1))) /\
                ctx_done
                  (snd (let '(now, w1) := Now w in
                        (@None Error,
                         with_bookings db (update_status_rows (bookings db) i s now), w1))) =
                ctx_done w).
  { cbn. rewrite Hn, Ht. repeat split. }
  destruct (String.eqb (Booking_Status cur) BookingStatusPending &&
            String.eqb s BookingStatusConfirmed)%bool; [|exact Hgo].
  destruct (totalSeats db (Booking_EventID cur)) as [total|];
    [|repeat split; assumption].
  destruct (total <? _); [repeat split; assumption|exact Hgo].
Qed.

(** The loop of the worker does to the database what the loop of
    [CancelExpiredBookings] does on the bookings it reaches. *)
Lemma cleanup_each_db l : forall db w w0,
  same_clock w w0 ->
  fst (fst (cleanup_each db l w)) =
    negb (Nat.eqb (List.length (processed l (ctx_done w))) (List.length l)) /\
  snd (fst (cleanup_each db l w)) =
    fst (expire_each db (processed l (ctx_done w)) w0).
Proof.
  induction l as [|x l IH]; intros db w w0 Hc; [split; reflexivity|].
  cbn [cleanup_each ctxDone processed].
  destruct (hd false (ctx_done w)) eqn:Eh; [split; reflexivity|].
  set (w1 := mkWorld (clock_now w) (clock_ticks w) (rand_src w) (tl (ctx_done w))).
  assert (Hc1 : same_clock w1 w0) by exact Hc.
  unfold ExpireBooking. cbn [expire_each].
  pose proof (UpdateStatus_same_clock db (Exp_BookingID x) BookingStatusExpired
                w1 w0 Hc1) as [Hres [Hclock Hctx]].
  destruct (UpdateStatus db (Exp_BookingID x) BookingStatusExpired w1)
    as [[e1 db1] w1'].
  destruct (UpdateStatus db (Exp_BookingID x) BookingStatusExpired w0)
    as [[e0 db0] w0'].
  cbn [fst snd] in Hres, Hclock, Hctx. inversion Hres. subst e0 db0.
  destruct (IH db1 w1' w0' Hclock) as [Hflag Hdb].
  rewrite Hctx in Hflag, Hdb. cbn [ctx_done w1] in Hflag, Hdb.
  rewrite Hflag, Hdb. split; reflexivity.
Qed.

Lemma statusOf_row db id s :
  statusOf db id = Some s ->
  exists b, In b (bookings db) /\ Booking_ID b = id /\ Booking_Status b = s.
Proof.
  unfold statusOf. change (fun b : Booking => Booking_ID b =? id) with (byID id).
  destruct (find (byID id) (bookings db)) as [b|] eqn:Ef; [|discriminate].
  cbn. intros H. inversion H. exists b.
  split; [exact (find_byID_in _ _ _ Ef)|].
  split; [exact (find_byID_id _ _ _ Ef)|reflexivity].
Qed.

Lemma due_pending db before b : due db before b = true -> Booking_Status b = "pending".
Proof.
  unfold due. rewrite !andb_true_iff. intros [[[H _] _] _].
  apply String.eqb_eq. exact H.
Qed.

(** A sweep leaves a booking that is not pending as it is. *)
Lemma sweep_keeps db w id s :
  NoDup (map Booking_ID (bookings db)) ->
  statusOf db id = Some s -> s <> BookingStatusPending ->
  statusOf (snd (fst (CancelExpiredBookings db w))) id = Some s.
Proof.
  intros Hnd Hs Hne. unfold CancelExpiredBookings. cbn [Now].
  set (w1 := mkWorld _ _ _ _).
  pose proof (expire_due_effect db (clock_now w) w1 Hnd) as H. cbv zeta in H.
  destruct (expire_each db (GetExpiredBookings db (clock_now w)) w1) as [db' w'].
  cbn [fst snd] in *. destruct H as [_ [Hst _]].
  destruct (statusOf_row db id s Hs) as [b [Hin [Hid Hbs]]].
  specialize (Hst b Hin). rewrite Hid, Hbs in Hst. rewrite Hst.
  destruct (due db (clock_now w) b) eqn:Ed; [|reflexivity].
  apply due_pending in Ed. rewrite Hbs in Ed. contradiction.
Qed.

(** One run of the cleanup worker.  Whether or not it is interrupted, it
    adds and removes no booking, leaves every booking that is not
    pending with the status it had, and leaves the confirmed seats of
    every event as they were.  When the context is not cancelled, every
    booking that was pending and overdue when the run started (and whose
    user and event exist) is expired at its end. *)
Theorem cleanupExpiredBookings_effect db w :
  NoDup (map Booking_ID (bookings db)) ->
  let db' := fst (cleanupExpiredBookings db w) in
  map Booking_ID (bookings db') = map Booking_ID (bookings db) /\
  (forall eventID, confirmedSeats db' eventID = confirmedSeats db eventID) /\
  (forall b, In b (bookings db) ->
     Booking_Status b <> BookingStatusPending ->
     statusOf db' (Booking_ID b) = Some (Booking_Status b)) /\
  (forallb negb (ctx_done w) = true ->
   forall b, In b (bookings db) ->
     due db (clock_now w) b = true ->
     statusOf db' (Booking_ID b) = Some BookingStatusExpired).
Proof.
  intros Hnd. unfold cleanupExpiredBookings. cbn [Now].
  set (w1 := mkWorld _ _ _ _).
  set (l := GetExpiredBookings db (clock_now w)).
  assert (Hlisted : forall b, In b (bookings db) ->
            existsb (fun x => Exp_BookingID x =? Booking_ID b) l =
            due db (clock_now w) b).
  { intros b Hin. apply listed_iff_due; assumption. }
  destruct l as [|x0 l0] eqn:El.
  { cbn [fst]. split; [reflexivity|]. split; [reflexivity|]. split.
    - intros b Hin _. apply statusOf_unique; assumption.
    - intros _ b Hin Hd. rewrite <- (Hlisted b Hin) in Hd. discriminate. }
  rewrite <- El in *. clear El.
  destruct (cleanup_each_db l db w1 w1 (conj eq_refl eq_refl)) as [Hflag Hdb].
  change (ctx_done w1) with (ctx_done w) in Hflag, Hdb.
  set (p := processed l (ctx_done w)) in *.
  assert (Hp : forall x, In x p -> In x l) by apply processed_incl.
  destruct (cleanup_each db l w1) as [[interrupted db1] w2].
  cbn [fst snd] in Hflag, Hdb.
  assert (Hids1 : map Booking_ID (bookings db1) = map Booking_ID (bookings db)).
  { rewrite Hdb. apply expire_each_ids. }
  assert (Hnotconfirmed : forall x, In x p ->
            statusOf db (Exp_BookingID x) <> Some BookingStatusConfirmed).
  { intros x Hx. apply Hp in Hx.
    apply (Permutation_in _ (GetExpiredBookings_perm db (clock_now w))) in Hx.
    apply in_map_iff in Hx. destruct Hx as [b [<- Hb]].
    apply filter_In in Hb. destruct Hb as [Hin Hd]. cbn [expirationOf Exp_BookingID].
    rewrite (statusOf_unique db b Hnd Hin). apply due_pending in Hd.
    rewrite Hd. discriminate. }
  assert (Hseats1 : forall eventID,
            confirmedSeats db1 eventID = confirmedSeats db eventID).
  { rewrite Hdb. apply expire_each_confirmed; assumption. }
  assert (Hstatus1 : forall b, In b (bookings db) ->
            statusOf db1 (Booking_ID b) =
            Some (if existsb (fun x => Exp_BookingID x =? Booking_ID b) p
                  then BookingStatusExpired else Booking_Status b)).
  { intros b Hin. rewrite Hdb, expire_each_status.
    rewrite (statusOf_unique db b Hnd Hin).
    destruct (existsb _ p); reflexivity. }
  assert (Hsafe1 : forall b, In b (bookings db) ->
            Booking_Status b <> BookingStatusPending ->
            statusOf db1 (Booking_ID b) = Some (Booking_Status b)).
  { intros b Hin Hne. rewrite (Hstatus1 b Hin).
    destruct (existsb (fun x => Exp_BookingID x =? Booking_ID b) p) eqn:Ex;
      [|reflexivity].
    exfalso. apply existsb_exists in Ex. destruct Ex as [x [Hx Hid]].
    assert (Hl : existsb (fun x => Exp_BookingID x =? Booking_ID b) l = true).
    { apply existsb_exists. exists x. split; [apply Hp; exact Hx|exact Hid]. }
    rewrite (Hlisted b Hin) in Hl. apply due_pending in Hl. contradiction. }
  assert (Hnd1 : NoDup (map Booking_ID (bookings db1))) by (rewrite Hids1; exact Hnd).
  destruct interrupted.
  - cbn [fst]. split; [exact Hids1|]. split; [exact Hseats1|].
    split; [exact Hsafe1|].
    intros Hnever. exfalso. unfold p in Hflag.
    rewrite (processed_all l _ Hnever), Nat.eqb_refl in Hflag. discriminate.
  - pose proof (fun id s => sweep_keeps db1 w2 id s Hnd1) as Hkeep.
    pose proof (expire_due_effect db1 (clock_now w2) (snd (Now w2)) Hnd1) as Hsweep.
    cbv zeta in Hsweep. unfold CancelExpiredBookings in *. cbn [Now] in *.
    destruct (expire_each db1 (GetExpiredBookings db1 (clock_now w2)) _)
      as [db2 w3].
    cbn [fst snd] in *. destruct Hsweep as [Hids2 [_ Hseats2]].
    split; [rewrite Hids2; exact Hids1|].
    split; [intros eventID; rewrite Hseats2; apply Hseats1|].
    split.
    + intros b Hin Hne. apply Hkeep; [apply Hsafe1; assumption|exact Hne].
    + intros Hnever b Hin Hd. apply Hkeep; [|discriminate].
      rewrite (Hstatus1 b Hin). unfold p.
      rewrite (processed_all l _ Hnever), (Hlisted b Hin), Hd. reflexivity.
Qed.

Lemma cleanupExpiredBookings_effect_witness :
  let db' := fst (cleanupExpiredBookings hall (at_time (2000 * Second))) in
  statusOf db' 1 = Some BookingStatusConfirmed /\
  statusOf db' 2 = Some BookingStatusExpired /\
  confirmedSeats db' 7 = 2.
Proof.
  assert (Hnd : NoDup (map Booking_ID (bookings hall))).
  { cbn. repeat constructor; cbn; intuition discriminate. }
  destruct (cleanupExpiredBookings_effect hall (at_time (2000 * Second)) Hnd)
    as [_ [Hc [Hsafe Hlive]]].
  split.
  { apply (Hsafe (mkBooking 1 7 1 2 BookingStatusConfirmed (1000 * Second) 30
                            (100 * Second) (150 * Second)));
      [left; reflexivity|discriminate]. }
  split.
  { apply (Hlive eq_refl
             (mkBooking 2 7 2 1 BookingStatusPending (1500 * Second) 30
                        (120 * Second) (120 * Second)));
      [right; left; reflexivity|reflexivity]. }
  rewrite (Hc 7). reflexivity.
Defined.

End WorkerFacts.

(* ===================================================================== *)
(** ** Searching events *)
(* ===================================================================== *)

Module SearchFacts.
Import Repository Service BookingOps.

Fixpoint byDate (l : list EventWithAvailability) : Prop :=
  match l with
  | [] => True
  | x :: l' =>
      Forall (fun y => Event_Date (Event_ x) <= Event_Date (Event_ y)) l' /\ byDate l'
  end.

Lemma insert_by_date_perm x l : Permutation (insert_by_date x l) (x :: l).
Proof.
  induction l as [|y l IH]; simpl; [apply Permutation_refl|].
  destruct (Event_Date (Event_ x) <=? Event_Date (Event_ y)); [apply Permutation_refl|].
  apply perm_trans with (y :: x :: l); [|apply perm_swap].
  apply perm_skip. exact IH.
Qed.

Lemma insert_by_date_sorted x l : byDate l -> byDate (insert_by_date x l).
Proof.
  induction l as [|y l IH]; intros Hl; simpl; [auto|].
  destruct Hl as [Hy Hl].
  destruct (Event_Date (Event_ x) <=? Event_Date (Event_ y)) eqn:E.
  - apply Z.leb_le in E. simpl. split; [|split; assumption].
    constructor; [exact E|].
    eapply Forall_impl; [|exact Hy]. cbn. intros a Ha. lia.
  - apply Z.leb_gt in E. simpl. split; [|apply IH; exact Hl].
    eapply Permutation_Forall; [apply Permutation_sym, insert_by_date_perm|].
    constructor; [lia|exact Hy].
Qed.

Lemma Event_GetAll_sorted db : byDate (Event_GetAll db).
Proof.
  unfold Event_GetAll. induction (map _ (events db)) as [|x l IH]; simpl; [exact I|].
  apply insert_by_date_sorted. exact IH.
Qed.

Lemma byDate_filter p l : byDate l -> byDate (filter p l).
Proof.
  induction l as [|x l IH]; intros H; [exact I|].
  destruct H as [Hx Hl]. simpl. destruct (p x); [|apply IH; exact Hl].
  simpl. split; [|apply IH; exact Hl].
  apply Forall_forall. intros y Hy. apply filter_In in Hy.
  exact (proj1 (Forall_forall _ _) Hx y (proj1 Hy)).
Qed.

Lemma byDate_skipn n : forall l, byDate l -> byDate (skipn n l).
Proof.
  induction n as [|n IH]; intros l H; [exact H|].
  destruct l as [|x l]; [exact I|]. simpl. apply IH. exact (proj2 H).
Qed.

Lemma byDate_firstn n : forall l, byDate l -> byDate (firstn n l).
Proof.
  induction n as [|n IH]; intros l H; [exact I|].
  destruct l as [|x l]; [exact I|]. destruct H as [Hx Hl]. simpl.
  split; [|apply IH; exact Hl].
  apply Forall_forall. intros y Hy.
  apply (proj1 (Forall_forall _ _) Hx y).
  rewrite <- (firstn_skipn n l). apply in_or_app. left. exact Hy.
Qed.

Lemma sortEvents_id events sortBy sortOrder : sortEvents events sortBy sortOrder = events.
Proof.
  unfold sortEvents.
  destruct (String.eqb sortBy "title"); [destruct (String.eqb sortOrder "desc"); reflexivity|].
  destruct (String.eqb sortBy "created_at"); destruct (String.eqb sortOrder "desc"); reflexivity.
Qed.

Lemma substring_prefix : forall (p s : string),
  String.substring 0 (String.length p) s = p -> exists rest, s = (p ++ rest)%string.
Proof.
  induction p as [|c p IH]; intros s H.
  - exists s. reflexivity.
  - destruct s as [|d s]; [discriminate|].
    cbn in H. inversion H as [[Hc Hp]]. rewrite Hp.
    destruct (IH s Hp) as [rest ->]. exists rest.
    cbn. f_equal.
Qed.

(** Despite its name, [containsIgnoreCase] holds exactly when the second
    string is a prefix of the first, byte for byte. *)
Lemma containsIgnoreCase_prefix s p :
  containsIgnoreCase s p = true <-> exists rest, s = (p ++ rest)%string.
Proof.
  unfold containsIgnoreCase. rewrite andb_true_iff. split.
  - intros [_ H]. apply String.eqb_eq in H. apply substring_prefix. exact H.
  - intros [rest ->]. split.
    + apply Nat.leb_le. clear. induction p as [|c p IH]; cbn; [lia|]. lia.
    + apply String.eqb_eq. clear. induction p as [|c p IH]; cbn.
      * destruct rest; reflexivity.
      * f_equal. exact IH.
Qed.

Definition effectiveLimit (filter : EventFilter) : Z :=
  if ((Filter_Limit filter <=? 0) || (100 <? Filter_Limit filter))%bool
  then 50 else Filter_Limit filter.

Lemma In_skipn {A} n : forall (l : list A) x, In x (skipn n l) -> In x l.
Proof.
  induction n as [|n IH]; intros l x H; [exact H|].
  destruct l as [|y l]; [exact H|]. right. apply IH. exact H.
Qed.

Lemma In_firstn {A} n (l : list A) x : In x (firstn n l) -> In x l.
Proof.
  intros H. rewrite <- (firstn_skipn n l). apply in_or_app. left. exact H.
Qed.

(** [SearchEvents] returns at most [limit] events, 50 when the limit
    given is not between 1 and 100.  Every event returned is an event of
    the repository whose title starts, byte for byte, with the title of
    the filter (when one is given: the match is neither case-insensitive
    nor a substring match) and whose date lies within the bounds given.
    The events come in ascending order of date whatever [sort_by] and
    [sort_order] ask for: these two fields have no effect on the
    result. *)
Theorem SearchEvents_result db filter :
  let result := SearchEvents db filter in
  Z.of_nat (List.length result) <= effectiveLimit filter <= 100 /\
  (forall event, In event result ->
     In event (Event_GetAll db) /\
     (Filter_Title filter = "" \/
      exists rest, Event_Title (Event_ event) = (Filter_Title filter ++ rest)%string) /\
     (IsZero (Filter_DateFrom filter) = true \/
      Filter_DateFrom filter <= Event_Date (Event_ event)) /\
     (IsZero (Filter_DateTo filter) = true \/
      Event_Date (Event_ event) <= Filter_DateTo filter)) /\
  byDate result /\
  (forall sortBy sortOrder,
     SearchEvents db (mkEventFilter (Filter_Title filter) (Filter_DateFrom filter)
                                    (Filter_DateTo filter) (Filter_Limit filter)
                                    (Filter_Offset filter) sortBy sortOrder)
     = result).
Proof.
  cbv zeta.
  assert (Hlim : 1 <= effectiveLimit filter <= 100).
  { unfold effectiveLimit.
    destruct (Filter_Limit filter <=? 0) eqn:E1; cbn [orb]; [lia|].
    destruct (100 <? Filter_Limit filter) eqn:E2; [lia|].
    apply Z.leb_gt in E1. apply Z.ltb_ge in E2. lia. }
  assert (Hshape : exists page,
            SearchEvents db filter = page /\
            (forall x, In x page -> In x (List.filter (keptBy filter) (Event_GetAll db))) /\
            byDate page /\
            Z.of_nat (List.length page) <= effectiveLimit filter).
  { unfold SearchEvents. fold (effectiveLimit filter). rewrite sortEvents_id.
    set (kept := List.filter (keptBy filter) (Event_GetAll db)).
    assert (Hk : byDate kept) by (apply byDate_filter, Event_GetAll_sorted).
    destruct ((0 <? Filter_Offset filter) &&
              (Z.of_nat (List.length kept) <=? Filter_Offset filter))%bool.
    { eexists. split; [reflexivity|]. split; [intros x []|]. split; [exact I|].
      cbn. lia. }
    set (rest := if 0 <? Filter_Offset filter
                 then skipn (Z.to_nat (Filter_Offset filter)) kept else kept).
    assert (Hin : forall x, In x rest -> In x kept).
    { intros x. unfold rest. destruct (0 <? Filter_Offset filter); [apply In_skipn|auto]. }
    assert (Hr : byDate rest).
    { unfold rest. destruct (0 <? Filter_Offset filter); [apply byDate_skipn|]; exact Hk. }
    destruct (effectiveLimit filter <? Z.of_nat (List.length rest)) eqn:El.
    - eexists. split; [reflexivity|]. split.
      + intros x Hx. apply Hin. exact (In_firstn _ _ _ Hx).
      + split; [apply byDate_firstn; exact Hr|].
        rewrite length_firstn. lia.
    - eexists. split; [reflexivity|]. split; [exact Hin|]. split; [exact Hr|].
      apply Z.ltb_ge in El. exact El. }
  destruct Hshape as [page [Hpage [Hin [Hsorted Hlen]]]].
  rewrite Hpage. split; [lia|]. split; [|split; [exact Hsorted|]].
  - intros event Hev. apply Hin in Hev. apply filter_In in Hev.
    destruct Hev as [Hall Hkept]. split; [exact Hall|].
    unfold keptBy in Hkept.
    destruct (negb (String.eqb (Filter_Title filter) "") &&
              negb (containsIgnoreCase (Event_Title (Event_ event))
                                       (Filter_Title filter)))%bool eqn:Et;
      [discriminate|].
    destruct (negb (IsZero (Filter_DateFrom filter)) &&
              Before (Event_Date (Event_ event)) (Filter_DateFrom filter))%bool eqn:Ef;
      [discriminate|].
    destruct (negb (IsZero (Filter_DateTo filter)) &&
              After (Event_Date (Event_ event)) (Filter_DateTo filter))%bool eqn:Eo;
      [discriminate|].
    split; [|split].
    + apply andb_false_iff in Et. destruct Et as [Et|Et].
      * left. apply negb_false_iff, String.eqb_eq in Et. exact Et.
      * right. apply negb_false_iff in Et. apply containsIgnoreCase_prefix. exact Et.
    + apply andb_false_iff in Ef. destruct Ef as [Ef|Ef].
      * left. apply negb_false_iff in Ef. exact Ef.
      * right. unfold Before in Ef. apply Z.ltb_ge in Ef. exact Ef.
    + apply andb_false_iff in Eo. destruct Eo as [Eo|Eo].
      * left. apply negb_false_iff in Eo. exact Eo.
      * right. unfold After in Eo. apply Z.ltb_ge in Eo. exact Eo.
  - intros sortBy sortOrder. rewrite <- Hpage. unfold SearchEvents.
    rewrite !sortEvents_id. reflexivity.
Qed.

End SearchFacts.
